(** * The fractal-compute core of src/source/main.cpp

    A shallow embedding of [FractalRenderer] (the pixel kernel, the colour
    mapper [WritePixel], the band loop of [operator()] and the job flag) and
    of the part of [Application::run] that builds the colour ramp and the
    two band jobs.

    Numbers are modelled as the program has them:
    - [double] and [float] are IEEE-754 binary64 and binary32 values, with the
      operations of [SpecFloat] (one rounding to nearest-even per operation,
      no fused multiply-add);
    - [size_t] is a 64-bit unsigned integer, [int] a 32-bit signed one;
    - a conversion or an access that C++ leaves undefined yields [None]. *)

From Stdlib Require Import ZArith Lia Bool List.
From Stdlib Require Import QArith Qabs Qpower.
From Stdlib Require Import Floats.SpecFloat.
From stdpp Require Import base option list.

Local Open Scope Z_scope.

(** ** IEEE-754 binary64 *)

Module Double.

Definition prec : Z := 53.
Definition emax : Z := 1024.

Definition double : Type := spec_float.

Definition add : double -> double -> double := SFadd prec emax.
Definition sub : double -> double -> double := SFsub prec emax.
Definition mul : double -> double -> double := SFmul prec emax.
Definition div : double -> double -> double := SFdiv prec emax.
Definition sqrt : double -> double := SFsqrt prec emax.
Definition ltb : double -> double -> bool := SFltb.
Definition leb : double -> double -> bool := SFleb.
Definition eqb : double -> double -> bool := SFeqb.

(** Conversion of an integer to [double] (exact below 2^53). *)
Definition of_Z (n : Z) : double := binary_normalize prec emax n 0 false.

(** A value that is a binary64 number in canonical form. *)
Definition valid (x : double) : bool := valid_binary prec emax x.

(** Truncation toward zero of a finite value. *)
Definition trunc (x : double) : option Z :=
  match x with
  | S754_zero _ => Some 0
  | S754_finite s m (Zneg p) => Some (cond_Zopp s (Z.shiftr (Zpos m) (Zpos p)))
  | S754_finite s m e => Some (cond_Zopp s (Z.shiftl (Zpos m) e))
  | _ => None
  end.

(** The mathematical floor of a finite value. *)
Definition floor (x : double) : option Z :=
  match x with
  | S754_zero _ => Some 0
  | S754_finite s m (Zneg p) =>
      Some (if s then - ((Zpos m + 2 ^ Zpos p - 1) / 2 ^ Zpos p)
            else Zpos m / 2 ^ Zpos p)
  | S754_finite s m e => Some (cond_Zopp s (Zpos m * 2 ^ e))
  | _ => None
  end.

Definition zero : double := S754_zero false.
Definition nan : double := S754_nan.

End Double.

Abbreviation double := Double.double.

Declare Scope double_scope.
Delimit Scope double_scope with D.
Bind Scope double_scope with double.
Infix "+" := Double.add : double_scope.
Infix "-" := Double.sub : double_scope.
Infix "*" := Double.mul : double_scope.
Infix "/" := Double.div : double_scope.
Infix "<?" := Double.ltb : double_scope.
Infix "<=?" := Double.leb : double_scope.

(** ** C++ integer types and conversions *)

Definition SIZE_MOD : Z := 2 ^ 64.
Definition INT_MIN : Z := - 2 ^ 31.
Definition INT_MAX : Z := 2 ^ 31 - 1.

(** Arithmetic on [size_t] wraps around. *)
Definition size_wrap (n : Z) : Z := n mod SIZE_MOD.

(** [(double)n] for an [int] or a [size_t]. *)
Definition of_int (n : Z) : double := Double.of_Z n.

(** A floating-integral conversion truncates; the behaviour is undefined
    if the truncated value cannot be represented in the destination type. *)
Definition to_range (lo hi : Z) (x : double) : option Z :=
  t ← Double.trunc x;
  if (lo <=? t) && (t <=? hi) then Some t else None.

Definition to_int : double -> option Z := to_range INT_MIN INT_MAX.
Definition to_size_t : double -> option Z := to_range 0 (SIZE_MOD - 1).
Definition to_uchar : double -> option Z := to_range 0 255.

(** [a + b] on [int]: signed overflow is undefined. *)
Definition int_add (a b : Z) : option Z :=
  if (INT_MIN <=? a + b) && (a + b <=? INT_MAX) then Some (a + b) else None.

(** ** std::complex<double> *)

Record complex : Type := Complex { real : double; imag : double }.

Definition cadd (a b : complex) : complex :=
  Complex (real a + real b)%D (imag a + imag b)%D.

(** [a * b]: the four products and their difference and sum. (Library
    implementations add a recovery step for results that are NaN in both
    parts; the kernel only squares a [z] with [|z|^2 < 4], which is finite.) *)
Definition cmul (a b : complex) : complex :=
  Complex (real a * real b - imag a * imag b)%D
          (real a * imag b + imag a * real b)%D.

(** [c *= s] with a [double] on the right scales both parts. *)
Definition cscale (a : complex) (s : double) : complex :=
  Complex (real a * s)%D (imag a * s)%D.

(** [z.real()*z.real() + z.imag()*z.imag()] *)
Definition norm2 (z : complex) : double :=
  (real z * real z + imag z * imag z)%D.

(** The functions of the C library the kernel calls: [log] and the modulus
    [abs] of a complex number. Their results are not fixed bit for bit by any
    standard, so the kernel is parametrised by them. *)
Class LibM : Type := {
  log : double -> double;
  cabs : complex -> double
}.

(** ** FractalRenderer *)

Record Color : Type := mkColor { r : double; g : double; b : double }.

Definition color_scale (c : Color) (factor : double) : Color :=
  mkColor (r c * factor)%D (g c * factor)%D (b c * factor)%D.

Definition color_add (c other : Color) : Color :=
  mkColor (r c + r other)%D (g c + g other)%D (b c + b other)%D.

Record Job : Type := mkJob {
  y_start : Z;
  y_count : Z;
  scale : double;
  offset : complex
}.

Definition max_iterations : Z := 1000.
Definition max_colors : Z := 50.

(** The fields of a renderer that a job never changes. *)
Record Renderer : Type := mkRenderer {
  color_ramp : list Color;
  texture_width : double;
  texture_height : double
}.

(** The raster [texture_data], one byte per element. *)
Abbreviation raster := (list Z).

(** [texture_data[i] = v]; a store outside the array is undefined. *)
Definition store (i v : Z) (t : raster) : option raster :=
  if (0 <=? i) && (i <? Z.of_nat (length t))
  then Some (<[Z.to_nat i := v]> t) else None.

(** [color_ramp[i]]; a read outside the array is undefined. *)
Definition ramp_at (ramp : list Color) (i : Z) : option Color :=
  if 0 <=? i then ramp !! Z.to_nat i else None.

Definition two : double := of_int 2.
Definition one : double := of_int 1.
Definition four : double := (two * two)%D.

(** *** The pixel kernel: lines 88-112 *)

Definition pixel_c (R : Renderer) (job : Job) (_x _y : Z) : complex :=
  let c := Complex (of_int _x / texture_width R * two - one)%D
                   (of_int _y / texture_height R * two - one)%D in
  cadd (cscale c (scale job)) (offset job).

Definition z0 : complex := Complex Double.zero Double.zero.

(** [1/4] and [1/16] are divisions of [int] literals. *)
Definition quarter : double := of_int (1 ÷ 4).
Definition sixteenth : double := of_int (1 ÷ 16).

Definition q_of (z : complex) : double :=
  ((real z - quarter) * (real z - quarter) + imag z * imag z)%D.

Definition inside_cardioid (z : complex) : bool :=
  let q := q_of z in
  (q * (q + (real z - quarter)) <? quarter * imag z * imag z)%D.

Definition inside_period2_bulb (z : complex) : bool :=
  ((real z + one) * (real z + one) + imag z * imag z <? sixteenth)%D.

(** The [while] loop of lines 103-107, with an explicit bound [fuel] on the
    number of times its condition is evaluated. *)
Fixpoint escape_loop (fuel : nat) (c z : complex) (i : Z) : option (complex * Z) :=
  match fuel with
  | O => None
  | S fuel' =>
      if (i <? max_iterations) && (norm2 z <? four)%D
      then escape_loop fuel' c (cadd (cmul z z) c) (size_wrap (i + 1))
      else Some (z, i)
  end.

(** Lines 94-112: the value of [(z, i)] after the [if]/[else]. *)
Definition iterate (fuel : nat) (c : complex) : option (complex * Z) :=
  let z := z0 in
  if negb (inside_cardioid z) || negb (inside_period2_bulb z)
  then escape_loop fuel c z 0
  else Some (z, max_iterations).

(** The number of evaluations of the loop condition that [operator()] can
    need: one per iteration and one that ends the loop. *)
Definition loop_fuel : nat := S (Z.to_nat max_iterations).

(** *** The colour mapper: WritePixel, lines 156-169 *)

Definition black : Color := mkColor (of_int 0) (of_int 0) (of_int 0).

Definition ramp_color (ramp : list Color) (first second : Z) (factor : double)
  : option Color :=
  if first =? -1 then Some black
  else
    c2 ← ramp_at ramp (Z.rem second (max_colors * 2));
    c1 ← ramp_at ramp (Z.rem first (max_colors * 2));
    Some (color_add (color_scale c2 factor) (color_scale c1 (one - factor)%D)).

Definition channel_byte (v : double) : option Z := to_uchar (v * of_int 255)%D.

(** Lines 166-168: the three stores. *)
Definition put_bytes (offset : Z) (color : Color) (t : raster) : option raster :=
  vr ← channel_byte (r color);
  t ← store (size_wrap (offset * 3 + 0)) vr t;
  vg ← channel_byte (g color);
  t ← store (size_wrap (offset * 3 + 1)) vg t;
  vb ← channel_byte (b color);
  store (size_wrap (offset * 3 + 2)) vb t.

Definition WritePixel (R : Renderer) (x y first second : Z) (factor : double)
    (t : raster) : option raster :=
  W ← to_size_t (texture_width R);
  let offset := size_wrap (y * W + x) in
  color ← ramp_color (color_ramp R) first second factor;
  put_bytes offset color t.

(** *** The body of the two loops: lines 88-124 *)

(** What the kernel decides for a pixel: inside, or outside with the
    smoothed escape count [s]. *)
Inductive verdict : Type :=
  | Inside
  | Outside (s : double).

(** The bound [current_job.y_start + current_job.y_count] of the outer loop. *)
Definition job_end (job : Job) : Z := size_wrap (y_start job + y_count job).

(** A [for] loop whose counter takes the values [l] in turn, over a state
    of type [A]; the body may be undefined. *)
Fixpoint for_each {A : Type} (l : list Z) (body : Z -> A -> option A) (a : A)
  : option A :=
  match l with
  | [] => Some a
  | v :: l' => a' ← body v a; for_each l' body a'
  end.

Section Kernel.
Context {lm : LibM}.

(** Line 118. *)
Definition smooth (i : Z) (z : complex) : double :=
  (of_int i + (log (log (of_int max_iterations)) - log (log (cabs z))) / log two)%D.

(** Line 114: the test that chooses between the two calls of WritePixel. *)
Definition classify (z : complex) (i : Z) : verdict :=
  if (norm2 z <? four)%D || (i =? max_iterations) then Inside
  else Outside (smooth i z).

Definition kernel (R : Renderer) (job : Job) (x y : Z) : option verdict :=
  '(z, i) ← iterate loop_fuel (pixel_c R job x y);
  Some (classify z i).

(** Lines 115-124. *)
Definition paint (R : Renderer) (x y : Z) (v : verdict) (t : raster)
  : option raster :=
  match v with
  | Inside => WritePixel R x y (-1) 0 Double.zero t
  | Outside s =>
      first ← to_int s;
      second ← int_add first 1;
      let factor := (s - of_int first)%D in
      WritePixel R x y first second factor t
  end.

Definition render_pixel (R : Renderer) (job : Job) (x y : Z) (t : raster)
  : option raster :=
  v ← kernel R job x y;
  paint R x y v t.

(** *** The band: lines 84-126 *)

(** The rows [_y] the outer loop visits for a job. *)
Definition job_rows (job : Job) : list Z :=
  seqZ (y_start job) (job_end job - y_start job).

Definition render_row (R : Renderer) (job : Job) (y : Z) (t : raster)
  : option raster :=
  W ← to_size_t (texture_width R);
  for_each (seqZ 0 W) (fun x => render_pixel R job x y) t.

Definition run_job (R : Renderer) (job : Job) (t : raster) : option raster :=
  for_each (job_rows job) (render_row R job) t.

End Kernel.

(** ** Application::run *)

(** *** IEEE-754 binary32, for the [float] locals of the palette loop *)

Module Single.

Definition prec : Z := 24.
Definition emax : Z := 128.

Definition float : Type := spec_float.

Definition mul : float -> float -> float := SFmul prec emax.
Definition div : float -> float -> float := SFdiv prec emax.
Definition sqrt : float -> float := SFsqrt prec emax.

(** [(float)n] for an integer [n]. *)
Definition of_Z (n : Z) : float := binary_normalize prec emax n 0 false.

(** The conversion of a [float] to [double] is exact: the same number,
    written with a 53-bit mantissa. *)
Definition to_double (x : float) : double :=
  match x with
  | S754_finite s m e =>
      binary_normalize Double.prec Double.emax (cond_Zopp s (Zpos m)) e false
  | _ => x
  end.

(** The literal [0.5f]. *)
Definition half : float := div (of_Z 1) (of_Z 2).

End Single.

(** *** The palette loop: lines 222-229 *)

(** [sqrt] is called unqualified on a [float]: with the overloads of
    <cmath> in scope it is the [float] one, with only the C function it is
    the [double] one. Both readings are kept. *)
Inductive sqrt_overload : Type := SqrtFloat | SqrtDouble.

Definition sqrt_sqrt (ov : sqrt_overload) (x : Single.float) : double :=
  match ov with
  | SqrtFloat => Single.to_double (Single.sqrt (Single.sqrt x))
  | SqrtDouble => Double.sqrt (Double.sqrt (Single.to_double x))
  end.

(** The colour stored at [color_ramp[i]] by line 227. *)
Definition ramp_entry (ov : sqrt_overload) (i : Z) : Color :=
  let factor := Single.div (Single.of_Z i) (Single.of_Z max_colors) in
  let inverse_factor :=
    Single.div (Single.of_Z (size_wrap (max_colors - i))) (Single.of_Z max_colors) in
  mkColor (sqrt_sqrt ov factor)
          (Single.to_double factor)
          (Single.to_double (Single.mul inverse_factor Single.half)).

(** [color_ramp[i] = c] on the array of [Application]. *)
Definition ramp_store (i : Z) (c : Color) (ramp : list Color) : option (list Color) :=
  if (0 <=? i) && (i <? Z.of_nat (length ramp))
  then Some (<[Z.to_nat i := c]> ramp) else None.

(** One iteration of the loop: lines 227 and 228. *)
Definition ramp_step (ov : sqrt_overload) (i : Z) (ramp : list Color)
  : option (list Color) :=
  ramp ← ramp_store i (ramp_entry ov i) ramp;
  c ← ramp_at ramp i;
  ramp_store (size_wrap (max_colors * 2 - 1 - i)) c ramp.

(** The loop, from the array [init] as the constructor of [Application]
    left it (its [Color]s are not initialised). *)
Definition build_ramp (ov : sqrt_overload) (init : list Color)
  : option (list Color) :=
  for_each (seqZ 0 max_colors) (ramp_step ov) init.

(** *** The two jobs: lines 234-244 *)

(** The literals [+0.001643721971153] and [+0.822467633298876]: a decimal
    literal is the quotient of two integers below 2^53, correctly rounded. *)
Definition app_offset : complex :=
  Complex (of_int 1643721971153 / of_int (10 ^ 15))%D
          (of_int 822467633298876 / of_int (10 ^ 15))%D.

(** [job] and [job2] for a window of height [H] ([window.getHeight()]). *)
Definition first_job (H : Z) : Job :=
  mkJob 0 (size_wrap (H ÷ 2)) two app_offset.

Definition second_job (H : Z) : Job :=
  let ys := size_wrap (H ÷ 2) in
  mkJob ys (size_wrap (H - ys)) two app_offset.

(** A list of jobs run one after the other on the shared raster. *)
Fixpoint run_jobs `{LibM} (R : Renderer) (jobs : list Job) (t : raster)
  : option raster :=
  match jobs with
  | [] => Some t
  | job :: jobs' => t' ← run_job R job t; run_jobs R jobs' t'
  end.

(** ** A reference C library

    [log] and the complex modulus computed to far more than 53 bits and
    rounded once, with the special values of Annex F of the C standard. It
    is the instance at which the examples below are evaluated; the theorems
    hold for every [LibM]. *)

Module RefLibM.

(** Fixed-point numbers: integers scaled by [2^P]. *)
Definition P : Z := 200.

(** The [n] first terms of [T + T^3/3 + T^5/5 + ...], [T2] being [T^2]
    and [pw] the current odd power of [T]. *)
Fixpoint atanh_series (n : nat) (k : Z) (T2 pw acc : Z) : Z :=
  match n with
  | O => acc
  | S n' =>
      atanh_series n' (k + 1) T2 (Z.shiftr (pw * T2) P) (acc + pw / (2 * k + 1))
  end.

(** [2^P * atanh (num / den)], for [|num / den| <= 1/3]. *)
Definition atanh_fix (num den : Z) : Z :=
  let T := Z.shiftl num P / den in
  atanh_series 100 0 (Z.shiftr (T * T) P) T 0.

(** [ln 2 = 2 atanh (1/3)] *)
Definition ln2_fix : Z := 2 * atanh_fix 1 3.

(** [2^P * ln (m * 2^e)]: with [m = y * 2^k] and [y] between 3/4 and 3/2,
    [ln (m * 2^e) = (e + k) ln 2 + 2 atanh ((y - 1) / (y + 1))]. *)
Definition ln_fix (m : positive) (e : Z) : Z :=
  let d := Zpos (digits2_pos m) in
  let k := if 4 * Zpos m <? 3 * 2 ^ d then d - 1 else d in
  (e + k) * ln2_fix + 2 * atanh_fix (Zpos m - 2 ^ k) (Zpos m + 2 ^ k).

Definition log_ref (x : double) : double :=
  match x with
  | S754_nan => S754_nan
  | S754_zero _ => S754_infinity true
  | S754_infinity s => if s then S754_nan else x
  | S754_finite true _ _ => S754_nan
  | S754_finite false m e =>
      binary_normalize Double.prec Double.emax (ln_fix m e) (- P) false
  end.

(** [hypot]: the square root of the exact sum of the squares. *)
Definition hypot_ref (x y : double) : double :=
  match x, y with
  | S754_infinity _, _ | _, S754_infinity _ => S754_infinity false
  | S754_nan, _ | _, S754_nan => S754_nan
  | S754_zero _, _ => SFabs y
  | _, S754_zero _ => SFabs x
  | S754_finite _ mx ex, S754_finite _ my ey =>
      let ez := Z.min ex ey in
      let ax := Zpos (fst (shl_align mx ex ez)) in
      let ay := Zpos (fst (shl_align my ey ez)) in
      match (ax * ax + ay * ay)%Z with
      | Zpos m => Double.sqrt (S754_finite false m (2 * ez))
      | _ => S754_nan
      end
  end.

#[export] Instance ref_libm : LibM :=
  {| log := log_ref; cabs := fun z => hypot_ref (real z) (imag z) |}.

End RefLibM.

(** ** The worker thread and its consumer

    [operator()] runs in a thread of its own while the consumer calls
    [setJob], [jobDone] and [stop]. The two threads are interleaved at the
    points where they read or write the members they share. *)

(** Where the worker is in [operator()]. *)
Inductive worker_pc : Type :=
  | NotStarted                (* the thread has not been created *)
  | AtDo                      (* line 76: about to read job_done *)
  | AtRow (_y : Z)            (* line 84: about to test the outer loop *)
  | AtPixel (_y _x : Z)       (* line 86: about to test the inner loop *)
  | AtBandEnd                 (* line 128: about to set job_done *)
  | AtWhile                   (* line 136: about to read running *)
  | Exited.

(** Where the consumer is: outside [setJob], or inside it between the
    assignment of line 53 and the store of line 55. *)
Inductive consumer_pc : Type :=
  | Idle
  | InSetJob.

Record state : Type := mkState {
  current_job : Job;
  job_done : bool;
  running : bool;
  texture_data : raster;
  worker : worker_pc;
  consumer : consumer_pc;
  (** ghost: the pixels [(x, y)] written since [current_job] was assigned *)
  written : list (Z * Z)
}.

(** The state the constructor leaves: [job_done(false), running(true)];
    [current_job] holds whatever was in memory. *)
Definition constructed (garbage : Job) (t : raster) : state :=
  mkState garbage false true t NotStarted Idle [].

Inductive event : Type :=
  | SetJobAssign (new_job : Job)   (* line 53 *)
  | SetJobClear                    (* lines 54-55 *)
  | Stop                           (* lines 66-67 *)
  | Start                          (* boost::thread worker_thread(...) *)
  | Work.                          (* the worker runs to its next point *)

Section Worker.
Context {lm : LibM}.
Variable R : Renderer.

Definition set_worker (s : state) (pc : worker_pc) : state :=
  mkState (current_job s) (job_done s) (running s) (texture_data s) pc
          (consumer s) (written s).

(** One step of the worker thread. *)
Definition work (s : state) : option state :=
  match worker s with
  | NotStarted | Exited => None
  | AtDo =>
      if job_done s then Some (set_worker s AtWhile)
      else Some (set_worker s (AtRow (y_start (current_job s))))
  | AtRow _y =>
      if _y <? job_end (current_job s)
      then Some (set_worker s (AtPixel _y 0))
      else Some (set_worker s AtBandEnd)
  | AtPixel _y _x =>
      W ← to_size_t (texture_width R);
      if _x <? W then
        t ← render_pixel R (current_job s) _x _y (texture_data s);
        Some (mkState (current_job s) (job_done s) (running s) t
                      (AtPixel _y (size_wrap (_x + 1))) (consumer s)
                      ((_x, _y) :: written s))
      else Some (set_worker s (AtRow (size_wrap (_y + 1))))
  | AtBandEnd =>
      Some (mkState (current_job s) true (running s) (texture_data s)
                    AtWhile (consumer s) (written s))
  | AtWhile =>
      Some (set_worker s (if running s then AtDo else Exited))
  end.

Definition step (e : event) (s : state) : option state :=
  match e with
  | SetJobAssign new_job =>
      match consumer s with
      | Idle => Some (mkState new_job (job_done s) (running s) (texture_data s)
                              (worker s) InSetJob [])
      | InSetJob => None
      end
  | SetJobClear =>
      match consumer s with
      | InSetJob => Some (mkState (current_job s) false (running s)
                                  (texture_data s) (worker s) Idle (written s))
      | Idle => None
      end
  | Stop =>
      Some (mkState (current_job s) (job_done s) false (texture_data s)
                    (worker s) (consumer s) (written s))
  | Start =>
      match worker s with
      | NotStarted => Some (set_worker s AtDo)
      | _ => None
      end
  | Work => work s
  end.

Fixpoint run (es : list event) (s : state) : option state :=
  match es with
  | [] => Some s
  | e :: es' => s' ← step e s; run es' s'
  end.

(** [jobDone()], which the consumer can call when it is not in [setJob]. *)
Definition jobDone (s : state) : option bool :=
  match consumer s with
  | Idle => Some (job_done s)
  | InSetJob => None
  end.

(** The fields of a job are [size_t] values. *)
Definition job_wf (job : Job) : Prop :=
  0 <= y_start job < SIZE_MOD /\ 0 <= y_count job < SIZE_MOD.

(** The way [Application::run] calls [setJob]: before the thread is
    created, or after [jobDone()] has returned true. *)
Definition gated (e : event) (s : state) : Prop :=
  match e with
  | SetJobAssign new_job =>
      job_wf new_job /\ (worker s = NotStarted \/ job_done s = true)
  | _ => True
  end.

(** The states reached from [s0] by events that are all gated. *)
Inductive gated_run (s0 : state) : state -> Prop :=
  | gated_nil : gated_run s0 s0
  | gated_snoc s e s' :
      gated_run s0 s -> gated e s -> step e s = Some s' -> gated_run s0 s'.

(** The pixels of the band of a job. *)
Definition in_band (job : Job) (W x y : Z) : Prop :=
  y_start job <= y < job_end job /\ 0 <= x < W.

(** Every pixel of the current job has been written since it was set. *)
Definition band_written (s : state) : Prop :=
  forall W x y,
    to_size_t (texture_width R) = Some W ->
    in_band (current_job s) W x y -> (x, y) ∈ written s.

(** The gate as a test, and a run that stops at the first event that is
    not gated. *)
Definition job_wfb (job : Job) : bool :=
  (0 <=? y_start job) && (y_start job <? SIZE_MOD) &&
  (0 <=? y_count job) && (y_count job <? SIZE_MOD).

Definition gatedb (e : event) (s : state) : bool :=
  match e with
  | SetJobAssign new_job =>
      job_wfb new_job &&
      (match worker s with NotStarted => true | _ => false end || job_done s)
  | _ => true
  end.

Fixpoint run_gated (es : list event) (s : state) : option state :=
  match es with
  | [] => Some s
  | e :: es' =>
      if gatedb e s then s' ← step e s; run_gated es' s' else None
  end.

(** The worker is inside the band of the job it took. *)
Definition in_flight (s : state) : Prop :=
  match worker s with
  | AtRow _ | AtPixel _ _ | AtBandEnd => True
  | _ => False
  end.

(** The rows of the band before [_y] have been written. *)
Definition rows_written (s : state) (_y : Z) : Prop :=
  forall W x y,
    to_size_t (texture_width R) = Some W ->
    y_start (current_job s) <= y < _y -> y < job_end (current_job s) ->
    0 <= x < W -> (x, y) ∈ written s.

(** The pixels of the row [_y] before [_x] have been written. *)
Definition cols_written (s : state) (_y _x : Z) : Prop :=
  forall W x,
    to_size_t (texture_width R) = Some W -> 0 <= x < _x -> 0 <= x < W ->
    (x, _y) ∈ written s.

(** What holds at each point of the worker when [setJob] is gated. *)
Definition worker_inv (s : state) : Prop :=
  job_wf (current_job s) /\
  match worker s with
  | NotStarted => job_done s = false
  | AtRow _y =>
      job_done s = false /\ y_start (current_job s) <= _y /\ rows_written s _y
  | AtPixel _y _x =>
      job_done s = false /\
      y_start (current_job s) <= _y < job_end (current_job s) /\
      0 <= _x /\ rows_written s _y /\ cols_written s _y _x
  | AtBandEnd => job_done s = false /\ band_written s
  | AtDo | AtWhile | Exited =>
      job_done s = true -> consumer s = Idle -> band_written s
  end.

End Worker.

(** ** Reading the raster *)

(** The three bytes of the pixel [(x, y)], at the offsets [WritePixel] uses. *)
Definition pixel_at (R : Renderer) (x y : Z) (t : raster) : option (Z * Z * Z) :=
  W ← to_size_t (texture_width R);
  let offset := size_wrap (y * W + x) in
  vr ← t !! Z.to_nat (size_wrap (offset * 3 + 0));
  vg ← t !! Z.to_nat (size_wrap (offset * 3 + 1));
  vb ← t !! Z.to_nat (size_wrap (offset * 3 + 2));
  Some (vr, vg, vb).

(** ** The colour mapper in the words of the specification

    [first = floor(s)], [second = first + 1], [f = s - first], and the
    colour [ramp[second mod M] * f + ramp[first mod M] * (1 - f)] with
    [M = 100]. *)

Definition spec_color (ramp : list Color) (s : double) : option Color :=
  first ← Double.floor s;
  let second := first + 1 in
  let f := (s - of_int first)%D in
  c2 ← ramp !! Z.to_nat (second mod 100);
  c1 ← ramp !! Z.to_nat (first mod 100);
  Some (color_add (color_scale c2 f) (color_scale c1 (one - f)%D)).

(** The pixel [(x, y)] painted with that colour, each channel multiplied
    by 255 and truncated to a byte. *)
Definition spec_paint (R : Renderer) (x y : Z) (s : double) (t : raster)
  : option raster :=
  W ← to_size_t (texture_width R);
  color ← spec_color (color_ramp R) s;
  put_bytes (size_wrap (y * W + x)) color t.

(** ** Partitions of the rows and orders of the pixels *)

(** The colour WritePixel computes for a pixel: lines 160-164 after the
    kernel; the raster plays no part in it. *)
Definition pixel_color `{LibM} (R : Renderer) (job : Job) (x y : Z) : option Color :=
  v ← kernel R job x y;
  match v with
  | Inside => ramp_color (color_ramp R) (-1) 0 Double.zero
  | Outside s =>
      first ← to_int s;
      second ← int_add first 1;
      ramp_color (color_ramp R) first second (s - of_int first)%D
  end.

(** The three bytes of a colour. *)
Definition color_bytes (c : Color) : option (Z * Z * Z) :=
  vr ← channel_byte (r c);
  vg ← channel_byte (g c);
  vb ← channel_byte (b c);
  Some (vr, vg, vb).

(** Consecutive bands of the given heights from row [y0] on: a dispatcher
    with one worker per element of [counts]. *)
Fixpoint bands (y0 : Z) (counts : list Z) (sc : double) (off : complex) : list Job :=
  match counts with
  | [] => []
  | n :: counts' => mkJob y0 n sc off :: bands (y0 + n) counts' sc off
  end.

Definition total (counts : list Z) : Z := foldr Z.add 0 counts.

(** The pixels [(x, y)] of the rows [rows] of a raster [W] wide, in the
    order the two loops visit them. *)
Definition all_pixels (W : Z) (rows : list Z) : list (Z * Z) :=
  concat (map (fun y => map (fun x => (x, y)) (seqZ 0 W)) rows).

(** The loop body run on the pixels of [order] one after the other: the
    writes of concurrent workers, interleaved in some way. *)
Fixpoint render_pixels `{LibM} (R : Renderer) (job : Job) (order : list (Z * Z))
    (t : raster) : option raster :=
  match order with
  | [] => Some t
  | (x, y) :: order' =>
      t' ← render_pixel R job x y t; render_pixels R job order' t'
  end.

(** The raster after the three stores of a pixel at [offset]. *)
Definition write3 (offset vr vg vb : Z) (t : raster) : raster :=
  <[Z.to_nat (offset * 3 + 2) := vb]>
    (<[Z.to_nat (offset * 3 + 1) := vg]>
       (<[Z.to_nat (offset * 3 + 0) := vr]> t)).

(** The array after the [n] first iterations of the loop. *)
Definition ramp_filled (ov : sqrt_overload) (n : Z) (ramp : list Color) : Prop :=
  length ramp = 100%nat /\
  forall j, 0 <= j < n ->
    ramp !! Z.to_nat j = Some (ramp_entry ov j) /\
    ramp !! Z.to_nat (99 - j) = Some (ramp_entry ov j).

(** A pixel of a raster [W] wide whose offsets do not wrap around. *)
Definition plain_pixel (W : Z) (p : Z * Z) : Prop :=
  0 <= fst p < W /\ 0 <= snd p /\ (snd p * W + fst p) * 3 + 2 < SIZE_MOD.

(** The rational number a finite [double] is. *)
Definition exact (x : double) : option Q :=
  match x with
  | S754_zero _ => Some 0%Q
  | S754_finite sg m e => Some (inject_Z (cond_Zopp sg (Zpos m)) * 2 ^ e)%Q
  | _ => None
  end.

(** A channel in [0, 1], and a colour whose three channels are. *)
Definition in_unit (v : double) : bool :=
  (Double.zero <=? v)%D && (v <=? one)%D.

Definition unit_color (c : Color) : bool :=
  in_unit (r c) && in_unit (g c) && in_unit (b c).

(** ** Sample inputs *)

Module Samples.
Import RefLibM.

(** A ramp as [Application::run] builds it, from an array of zeros. *)
Definition ramp : list Color :=
  default [] (build_ramp SqrtFloat (replicate 100 black)).

(** A 2x2 window; its pixel [(1, 1)] maps to [c = 0*scale + offset]. *)
Definition R2 : Renderer := mkRenderer ramp (of_int 2) (of_int 2).

Definition blank : raster := replicate 12 7.

Definition job_at (re im : double) : Job := mkJob 0 2 two (Complex re im).

(** [c = 0.25 + 165/2^24]: the orbit on the real axis leaves the disc of
    radius 2 at the iteration that brings [i] to 1000. *)
Definition last_step_job : Job :=
  job_at (of_int 4194469 / of_int (2 ^ 24))%D Double.zero.

(** The value of [z] when that loop ends: about 3.19. *)
Definition escaped_z : complex :=
  Complex (S754_finite false 7189709705780180 (-51)) Double.zero.

(** [c = 10^15]: the first iterate is far outside the disc. *)
Definition far_job : Job := job_at (of_int (10 ^ 15)) Double.zero.

(** Its smoothed count, about -1.32. *)
Definition far_s : double := S754_finite true 5953434875545316 (-52).

(** [c = 3]: escapes at the first iteration with [s] about 3.65. *)
Definition near_job : Job := job_at (of_int 3) Double.zero.

Definition near_s : double := S754_finite false 8224776819380700 (-51).

(** [c = 0.25 + 2^-13]: just right of the cusp of the cardioid, where the
    orbit on the real axis takes some hundreds of iterations to leave. *)
Definition slow_job : Job := job_at (of_int 2049 / of_int (2 ^ 13))%D Double.zero.

(** Two jobs for the first row, with the same offset and different scales. *)
Definition job_A : Job := mkJob 0 1 two (Complex (of_int 3) Double.zero).
Definition job_B : Job := mkJob 0 1 four (Complex (of_int 3) Double.zero).

(** One job submitted before the thread starts and run to its end. *)
Definition one_job : list event :=
  [SetJobAssign job_A; SetJobClear; Start;
   Work; Work; Work; Work; Work; Work; Work].

(** A second [setJob] while the worker is in the middle of the row. *)
Definition resubmission : list event :=
  [SetJobAssign job_A; SetJobClear; Start; Work; Work; Work;
   SetJobAssign job_B; SetJobClear; Work; Work; Work; Work].

End Samples.

(** ** Further definitions: the orbit, the frame loop of Application::run *)

(** The iterates of [z -> z*z + c] from [z = 0], as line 105 computes them. *)
Fixpoint orbit (c : complex) (n : nat) : complex :=
  match n with
  | O => z0
  | S n' => cadd (cmul (orbit c n') (orbit c n')) c
  end.

(** The three offsets of the pixel [(x, y)] in a raster [W] wide. *)
Definition pixel_offsets (W x y : Z) : list nat :=
  map (fun k => Z.to_nat (size_wrap (size_wrap (y * W + x) * 3 + k))) [0; 1; 2].

(** [c = 10^30], whose smoothed count is about -2.32. *)
Definition very_far_job : Job := Samples.job_at (of_int (10 ^ 30)) Double.zero.
Definition very_far_s : double := S754_finite true 5228517251457906 (-51).

(** A pixel of a raster [W] wide whose three bytes lie at the offsets
    [lo <= i < hi]. *)
Definition pixel_within (W lo hi : Z) (p : Z * Z) : Prop :=
  plain_pixel W p /\
  lo <= (snd p * W + fst p) * 3 /\ (snd p * W + fst p) * 3 + 2 < hi.

(** The pixels of one row, in the order of the inner loop. *)
Definition row_pixels_of (y : Z) (xs : list Z) : list (Z * Z) :=
  map (fun x => (x, y)) xs.

(** The number of steps the worker takes for a band of [rows] rows of [W]
    pixels: the read of the flag, per row the two loop tests that frame it
    and one step per pixel, the test that ends the outer loop, and the
    store of the flag. *)
Definition band_steps (rows W : nat) : nat := (3 + rows * (W + 2))%nat.

(** The worker is outside the band: polling, or gone. *)
Definition polling (s : state) : Prop :=
  match worker s with
  | AtDo | AtWhile | Exited => True
  | _ => False
  end.

(** *** The frame loop: lines 256-268 *)

(** The literal [0.00000000001]. *)
Definition scale_floor : double := (of_int 1 / of_int (10 ^ 11))%D.

(** Line 256: [1.0f + timer.getElapsed() * 0.005]. *)
Definition elapsed_factor (seconds : double) : double :=
  (one + seconds * (of_int 5 / of_int 1000))%D.

(** Lines 262-264: the new scale. *)
Definition zoom (elapsed sc : double) : double :=
  let s := (one / (elapsed * (one / sc)))%D in
  if (s <? scale_floor)%D then scale_floor else s.

Definition with_scale (sc : double) (job : Job) : Job :=
  mkJob (y_start job) (y_count job) sc (offset job).

(** Lines 262-268: the two jobs submitted for the next frame. *)
Definition next_jobs (elapsed : double) (jobs : Job * Job) : Job * Job :=
  let job := with_scale (zoom elapsed (scale (fst jobs))) (fst jobs) in
  let job2 := with_scale (scale job) (snd jobs) in
  (job, job2).

(** The jobs after the frames whose elapsed factors are [es]. *)
Definition jobs_after (H : Z) (es : list double) : Job * Job :=
  foldl (fun jobs e => next_jobs e jobs) (first_job H, second_job H) es.

(** ** The two workers of Application::run on their shared raster

    [worker] and [worker2] are constructed with the same [texture_data]
    (lines 231-232). Their calls and steps are interleaved; the consumer
    also reads the raster ([texture->update], line 260) and computes the
    scale of the next frame. *)

Inductive who : Type := Worker1 | Worker2.

Record system : Type := mkSystem {
  renderer1 : state;        (* worker; the raster is [shared] *)
  renderer2 : state;        (* worker2; the raster is [shared] *)
  shared : raster;          (* the array both were constructed with *)
  view : double;            (* [job.scale] *)
  base : raster;            (* ghost: the raster at the last upload *)
  order : list (Z * Z);     (* ghost: the pixels written since, oldest first *)
  sub1 : bool;              (* ghost: setJob was called on worker since *)
  sub2 : bool               (* ghost: setJob was called on worker2 since *)
}.

Inductive sys_event : Type :=
  | Call (w : who) (e : event)     (* a call on, or a step of, one worker *)
  | Upload (elapsed : double).     (* lines 260-264 *)

(** A worker object seen with the shared raster. *)
Definition on_raster (s : state) (t : raster) : state :=
  mkState (current_job s) (job_done s) (running s) t (worker s) (consumer s)
          (written s).

Definition is_assign (e : event) : bool :=
  match e with SetJobAssign _ => true | _ => false end.

(** The job of each worker for a window of height [H] at scale [sc]. *)
Definition band (w : who) (H : Z) (sc : double) : Job :=
  match w with
  | Worker1 => with_scale sc (first_job H)
  | Worker2 => with_scale sc (second_job H)
  end.

(** The job that renders the whole window at scale [sc]. *)
Definition frame_job (H : Z) (sc : double) : Job := mkJob 0 H sc app_offset.

Section TwoWorkers.
Context {lm : LibM}.
Variable R : Renderer.

(** The pixel the next step of a worker writes, if it writes one. *)
Definition writes (s : state) : list (Z * Z) :=
  match worker s with
  | AtPixel _y _x =>
      match to_size_t (texture_width R) with
      | Some W => if _x <? W then [(_x, _y)] else []
      | None => []
      end
  | _ => []
  end.

Definition sys_step (ev : sys_event) (sys : system) : option system :=
  match ev with
  | Call Worker1 e =>
      s' ← step R e (on_raster (renderer1 sys) (shared sys));
      Some (mkSystem s' (renderer2 sys) (texture_data s') (view sys) (base sys)
              (order sys ++ match e with Work => writes (renderer1 sys) | _ => [] end)
              (sub1 sys || is_assign e) (sub2 sys))
  | Call Worker2 e =>
      s' ← step R e (on_raster (renderer2 sys) (shared sys));
      Some (mkSystem (renderer1 sys) s' (texture_data s') (view sys) (base sys)
              (order sys ++ match e with Work => writes (renderer2 sys) | _ => [] end)
              (sub1 sys) (sub2 sys || is_assign e))
  | Upload elapsed =>
      Some (mkSystem (renderer1 sys) (renderer2 sys) (shared sys)
              (zoom elapsed (view sys)) (shared sys) [] false false)
  end.

Definition renderer_of (w : who) (sys : system) : state :=
  match w with Worker1 => renderer1 sys | Worker2 => renderer2 sys end.

Definition sub_of (w : who) (sys : system) : bool :=
  match w with Worker1 => sub1 sys | Worker2 => sub2 sys end.

(** Both jobs are done and were set since the last upload: the test of line
    258 passes. *)
Definition frame_done (sys : system) : Prop :=
  jobDone (renderer1 sys) = Some true /\ jobDone (renderer2 sys) = Some true /\
  sub1 sys = true /\ sub2 sys = true.

(** The calls on one worker as [Application::run] makes them between two
    uploads, [job] being the job of that worker for the frame: [setJob]
    once, with [job], before the thread is created or after [jobDone()]
    was true; the thread is created after [setJob] has returned. *)
Definition call_ok (job : Job) (submitted : bool) (e : event) (s : state) : Prop :=
  match e with
  | SetJobAssign new_job =>
      submitted = false /\ new_job = job /\
      (worker s = NotStarted \/ job_done s = true)
  | Start => submitted = true /\ consumer s = Idle
  | _ => True
  end.

(** The events of [Application::run] for a window of height [H]; the raster
    is uploaded when both jobs are done. *)
Definition app_calls (H : Z) (ev : sys_event) (sys : system) : Prop :=
  match ev with
  | Call w e =>
      call_ok (band w H (view sys)) (sub_of w sys) e (renderer_of w sys)
  | Upload _ => frame_done sys
  end.

(** The states the program reaches from [sys0]. *)
Inductive app_run (H : Z) (sys0 : system) : system -> Prop :=
  | app_nil : app_run H sys0 sys0
  | app_snoc sys ev sys' :
      app_run H sys0 sys -> app_calls H ev sys -> sys_step ev sys = Some sys' ->
      app_run H sys0 sys'.

(** The two objects as constructed, on the raster [t]; [job.scale] is 2.0
    (line 236). *)
Definition app_start (garbage1 garbage2 : Job) (t : raster) : system :=
  mkSystem (constructed garbage1 t) (constructed garbage2 t) t two t [] false false.

(** The pixels a worker has written since the last upload. *)
Definition since_upload (submitted : bool) (s : state) : list (Z * Z) :=
  if submitted then rev (written s) else [].

(** Where a worker that was given [job] is, and what it has written. *)
Definition progress (W : Z) (job : Job) (s : state) : Prop :=
  current_job s = job /\
  match worker s with
  | NotStarted => written s = []
  | AtDo | AtWhile | Exited =>
      (written s = [] /\
       ((job_done s = false /\ consumer s = Idle) \/
        (job_done s = true /\ consumer s = InSetJob))) \/
      (job_done s = true /\ consumer s = Idle /\
       rev (written s) = all_pixels W (job_rows job))
  | AtRow _y =>
      job_done s = false /\ consumer s = Idle /\
      y_start job <= _y <= job_end job /\
      rev (written s) = all_pixels W (seqZ (y_start job) (_y - y_start job))
  | AtPixel _y _x =>
      job_done s = false /\ consumer s = Idle /\
      y_start job <= _y < job_end job /\ 0 <= _x <= W /\
      rev (written s) =
        all_pixels W (seqZ (y_start job) (_y - y_start job)) ++
        row_pixels_of _y (seqZ 0 _x)
  | AtBandEnd =>
      job_done s = false /\ consumer s = Idle /\
      rev (written s) = all_pixels W (job_rows job)
  end.

(** What holds of one worker between two uploads. *)
Definition worker_state (W : Z) (job : Job) (submitted : bool) (s : state) : Prop :=
  (worker s = NotStarted -> job_done s = false) /\
  if submitted then progress W job s
  else consumer s = Idle /\
       (worker s = NotStarted \/ (job_done s = true /\ polling s)).

(** What holds of the two workers and the raster between two uploads. *)
Definition frame_inv (H W : Z) (sys : system) : Prop :=
  render_pixels R (frame_job H (view sys)) (order sys) (base sys)
    = Some (shared sys) /\
  order sys ≡ₚ since_upload (sub1 sys) (renderer1 sys) ++
               since_upload (sub2 sys) (renderer2 sys) /\
  worker_state W (band Worker1 H (view sys)) (sub1 sys) (renderer1 sys) /\
  worker_state W (band Worker2 H (view sys)) (sub2 sys) (renderer2 sys).

(** A list of events run from [sys], and whether each is one that
    [Application::run] makes. *)
Fixpoint sys_run (evs : list sys_event) (sys : system) : option system :=
  match evs with
  | [] => Some sys
  | ev :: evs' => sys' ← sys_step ev sys; sys_run evs' sys'
  end.

Fixpoint app_trace (H : Z) (evs : list sys_event) (sys : system) : Prop :=
  match evs with
  | [] => True
  | ev :: evs' =>
      app_calls H ev sys /\
      match sys_step ev sys with
      | Some sys' => app_trace H evs' sys'
      | None => False
      end
  end.

End TwoWorkers.

Module FrameSamples.

(** Both workers take a step in turn, [n] times. *)
Definition in_turn (n : nat) : list sys_event :=
  concat (replicate n [Call Worker1 Work; Call Worker2 Work]).

Definition submit (w : who) (sc : double) : list sys_event :=
  [Call w (SetJobAssign (band w 2 sc)); Call w SetJobClear].

(** The first frame of a 2x2 window, an upload after ten seconds, and the
    second frame. *)
Definition first_frame : list sys_event :=
  submit Worker1 two ++ submit Worker2 two ++
  [Call Worker1 Start; Call Worker2 Start] ++ in_turn 9.

Definition second_view : double := zoom (elapsed_factor (of_int 10)) two.

Definition two_frames : list sys_event :=
  first_frame ++ [Upload (elapsed_factor (of_int 10))] ++
  submit Worker1 second_view ++ Call Worker2 Work ::
  submit Worker2 second_view ++ in_turn 9.

(** The first frame when the first band is done and the second is not. *)
Definition mid_frame : list sys_event :=
  submit Worker1 two ++ [Call Worker1 Start] ++
  replicate 7 (Call Worker1 Work) ++
  submit Worker2 two ++ [Call Worker2 Start] ++
  replicate 3 (Call Worker2 Work).

End FrameSamples.

(** * Properties *)

(** ** The escape loop *)

Lemma size_wrap_small (n : Z) : 0 <= n < SIZE_MOD -> size_wrap n = n.
Proof. intros Hn. unfold size_wrap. apply Z.mod_small. exact Hn. Qed.

Lemma max_iterations_small : max_iterations + 1 < SIZE_MOD.
Proof. reflexivity. Qed.

(** From a counter [i] in range the loop ends within [max_iterations - i]
    iterations, with the counter still in range and the loop condition
    false. *)
Lemma escape_loop_ends (fuel : nat) :
  forall (c z : complex) (i : Z),
    0 <= i <= max_iterations ->
    (Z.to_nat (max_iterations - i) < fuel)%nat ->
    exists z' i',
      escape_loop fuel c z i = Some (z', i') /\
      (i <= i' <= max_iterations) /\
      ((norm2 z' <? four)%D = true -> i' = max_iterations).
Proof.
  induction fuel as [|fuel IH]; intros c z i Hi Hfuel; [lia|].
  cbn [escape_loop].
  destruct (i <? max_iterations) eqn:Hlt; cbn [andb].
  - apply Z.ltb_lt in Hlt.
    destruct (norm2 z <? four)%D eqn:Hn.
    + pose proof max_iterations_small as Hs.
      rewrite size_wrap_small by lia.
      destruct (IH c (cadd (cmul z z) c) (i + 1)) as (z' & i' & He & Hr & Hx);
        [lia | lia |].
      exists z', i'. split; [exact He|]. split; [lia | exact Hx].
    + exists z, i. split; [reflexivity|]. split; [lia|]. congruence.
  - apply Z.ltb_ge in Hlt.
    exists z, i. split; [reflexivity|]. split; [lia|]. intros _. lia.
Qed.

(** More fuel does not change a result. *)
Lemma escape_loop_more_fuel (fuel extra : nat) :
  forall c z i res,
    escape_loop fuel c z i = Some res ->
    escape_loop (fuel + extra) c z i = Some res.
Proof.
  induction fuel as [|fuel IH]; intros c z i res; cbn [escape_loop Nat.add].
  - discriminate.
  - destruct ((i <? max_iterations) && (norm2 z <? four)%D); [apply IH | auto].
Qed.

Lemma early_out_tests :
  inside_cardioid z0 = false /\ inside_period2_bulb z0 = false.
Proof. split; vm_compute; reflexivity. Qed.

Lemma iterate_is_loop (fuel : nat) (c : complex) :
  iterate fuel c = escape_loop fuel c z0 0.
Proof.
  unfold iterate. destruct early_out_tests as [-> ->]. reflexivity.
Qed.

Lemma iterate_ends (c : complex) :
  exists z i,
    iterate loop_fuel c = Some (z, i) /\
    (0 <= i <= max_iterations) /\
    ((norm2 z <? four)%D = true -> i = max_iterations).
Proof.
  rewrite iterate_is_loop.
  apply escape_loop_ends; [unfold max_iterations; lia|].
  unfold loop_fuel. rewrite Z.sub_0_r. lia.
Qed.

(** C1: the two early-out tests are computed from [z = 0 + 0i] with the
    integer quotients [1/4 = 0] and [1/16 = 0]; both are false for every
    pixel, the condition of line 101 is true, the loop branch is the one
    taken and [i = max_iterations] of line 111 is never executed. *)
Theorem C1_early_out_never_taken
    (R : Renderer) (job : Job) (x y : Z) (fuel : nat) :
  quarter = Double.zero /\ sixteenth = Double.zero /\
  inside_cardioid z0 = false /\ inside_period2_bulb z0 = false /\
  negb (inside_cardioid z0) || negb (inside_period2_bulb z0) = true /\
  iterate fuel (pixel_c R job x y) = escape_loop fuel (pixel_c R job x y) z0 0.
Proof.
  destruct early_out_tests as [Hc Hb].
  split; [reflexivity|]. split; [reflexivity|].
  split; [exact Hc|]. split; [exact Hb|].
  split; [rewrite Hc; reflexivity | apply iterate_is_loop].
Qed.

(** C4: for every pixel input the escape loop terminates (any bound of more
    than [max_iterations] evaluations of its condition yields the same
    final [z] and [i]), and at termination [0 <= i <= max_iterations], with
    [max_iterations = 1000]. *)
Theorem C4_escape_loop_terminates (R : Renderer) (job : Job) (x y : Z) :
  max_iterations = 1000 /\
  exists z i,
    (forall extra : nat,
        escape_loop (loop_fuel + extra) (pixel_c R job x y) z0 0 = Some (z, i)) /\
    (0 <= i <= max_iterations).
Proof.
  split; [reflexivity|].
  destruct (escape_loop_ends loop_fuel (pixel_c R job x y) z0 0)
    as (z & i & He & Hi & _).
  - unfold max_iterations. lia.
  - unfold loop_fuel. rewrite Z.sub_0_r. lia.
  - exists z, i. split; [|exact Hi].
    intros extra. apply escape_loop_more_fuel. exact He.
Qed.

(** ** Stores into the raster *)

(** Reduce a bind whose first computation is a known [Some] or [None]. *)
Ltac bind_some := cbn [mbind option_bind].

Lemma store_Some (i v : Z) (t t' : raster) :
  store i v t = Some t' ->
  0 <= i < Z.of_nat (length t) /\ t' = <[Z.to_nat i := v]> t.
Proof.
  unfold store. intros Hs.
  destruct ((0 <=? i) && (i <? Z.of_nat (length t))) eqn:Hb; [|discriminate].
  apply andb_true_iff in Hb as [H0 H1].
  apply Z.leb_le in H0. apply Z.ltb_lt in H1.
  split; [lia | congruence].
Qed.

Lemma store_in_range (i v : Z) (t : raster) :
  0 <= i < Z.of_nat (length t) -> store i v t = Some (<[Z.to_nat i := v]> t).
Proof.
  intros [H0 H1]. unfold store.
  apply Z.leb_le in H0. apply Z.ltb_lt in H1. rewrite H0, H1. reflexivity.
Qed.

Lemma store_length (i v : Z) (t t' : raster) :
  store i v t = Some t' -> length t' = length t.
Proof.
  intros Hs. apply store_Some in Hs as [_ ->]. apply length_insert.
Qed.

Lemma store_lookup_same (i v : Z) (t t' : raster) :
  store i v t = Some t' -> t' !! Z.to_nat i = Some v.
Proof.
  intros Hs. apply store_Some in Hs as [Hi ->].
  apply list_lookup_insert_eq. lia.
Qed.

Lemma store_lookup_other (i v : Z) (t t' : raster) (j : nat) :
  store i v t = Some t' -> j <> Z.to_nat i -> t' !! j = t !! j.
Proof.
  intros Hs Hj. apply store_Some in Hs as [Hi ->].
  apply list_lookup_insert_ne. congruence.
Qed.

(** What a defined call of WritePixel did. *)
Lemma WritePixel_Some (R : Renderer) (x y first second : Z) (factor : double)
    (t t' : raster) :
  WritePixel R x y first second factor t = Some t' ->
  exists W color vr vg vb t1 t2,
    to_size_t (texture_width R) = Some W /\
    ramp_color (color_ramp R) first second factor = Some color /\
    channel_byte (r color) = Some vr /\
    channel_byte (g color) = Some vg /\
    channel_byte (b color) = Some vb /\
    store (size_wrap (size_wrap (y * W + x) * 3 + 0)) vr t = Some t1 /\
    store (size_wrap (size_wrap (y * W + x) * 3 + 1)) vg t1 = Some t2 /\
    store (size_wrap (size_wrap (y * W + x) * 3 + 2)) vb t2 = Some t'.
Proof.
  unfold WritePixel. intros Hw.
  destruct (to_size_t (texture_width R)) as [W|] eqn:HW; [|discriminate].
  cbn in Hw.
  destruct (ramp_color (color_ramp R) first second factor) as [color|] eqn:Hc;
    [|discriminate].
  cbn in Hw. unfold put_bytes in Hw.
  destruct (channel_byte (r color)) as [vr|] eqn:Hr; [|discriminate]. cbn in Hw.
  destruct (store _ vr t) as [t1|] eqn:H1; [|discriminate]. cbn in Hw.
  destruct (channel_byte (g color)) as [vg|] eqn:Hg; [|discriminate]. cbn in Hw.
  destruct (store _ vg t1) as [t2|] eqn:H2; [|discriminate]. cbn in Hw.
  destruct (channel_byte (b color)) as [vb|] eqn:Hb; [|discriminate]. cbn in Hw.
  exists W, color, vr, vg, vb, t1, t2. repeat split; assumption.
Qed.

Lemma WritePixel_length (R : Renderer) (x y first second : Z) (factor : double)
    (t t' : raster) :
  WritePixel R x y first second factor t = Some t' -> length t' = length t.
Proof.
  intros Hw.
  apply WritePixel_Some in Hw
    as (W & color & vr & vg & vb & t1 & t2 & _ & _ & _ & _ & _ & H1 & H2 & H3).
  apply store_length in H1, H2, H3. congruence.
Qed.

Lemma size_wrap_range (n : Z) : 0 <= size_wrap n < SIZE_MOD.
Proof. unfold size_wrap. apply Z.mod_pos_bound. reflexivity. Qed.

(** The offsets of the three channels of a pixel never coincide. *)
Lemma channel_offsets_distinct (n j k : Z) :
  0 <= j < 3 -> 0 <= k < 3 -> j <> k ->
  Z.to_nat (size_wrap (n + j)) <> Z.to_nat (size_wrap (n + k)).
Proof.
  intros Hj Hk Hjk Heq.
  pose proof (size_wrap_range (n + j)) as Rj.
  pose proof (size_wrap_range (n + k)) as Rk.
  apply Z2Nat.inj in Heq; [|lia|lia].
  unfold size_wrap, SIZE_MOD in *.
  change (2 ^ 64) with 18446744073709551616 in *.
  Z.div_mod_to_equations. lia.
Qed.

(** After a defined call of WritePixel the pixel holds the bytes of the
    colour that was computed. *)
Lemma WritePixel_pixel_at (R : Renderer) (x y first second : Z)
    (factor : double) (t t' : raster) :
  WritePixel R x y first second factor t = Some t' ->
  exists color vr vg vb,
    ramp_color (color_ramp R) first second factor = Some color /\
    channel_byte (r color) = Some vr /\
    channel_byte (g color) = Some vg /\
    channel_byte (b color) = Some vb /\
    pixel_at R x y t' = Some (vr, vg, vb).
Proof.
  intros Hw.
  apply WritePixel_Some in Hw
    as (W & color & vr & vg & vb & t1 & t2 & HW & Hc & Hr & Hg & Hb & H1 & H2 & H3).
  exists color, vr, vg, vb. repeat (split; [assumption|]).
  unfold pixel_at. rewrite HW. cbn.
  set (o := size_wrap (y * W + x) * 3) in *.
  assert (t' !! Z.to_nat (size_wrap (o + 0)) = Some vr) as ->.
  { rewrite (store_lookup_other _ _ _ _ _ H3)
      by (apply channel_offsets_distinct; lia).
    rewrite (store_lookup_other _ _ _ _ _ H2)
      by (apply channel_offsets_distinct; lia).
    apply (store_lookup_same _ _ _ _ H1). }
  cbn.
  assert (t' !! Z.to_nat (size_wrap (o + 1)) = Some vg) as ->.
  { rewrite (store_lookup_other _ _ _ _ _ H3)
      by (apply channel_offsets_distinct; lia).
    apply (store_lookup_same _ _ _ _ H2). }
  cbn.
  rewrite (store_lookup_same _ _ _ _ H3). reflexivity.
Qed.

(** WritePixel is defined as soon as the colour, its three bytes and the
    three offsets are. *)
Lemma WritePixel_defined (R : Renderer) (x y first second : Z)
    (factor : double) (t : raster) (W : Z) (color : Color) (vr vg vb : Z) :
  to_size_t (texture_width R) = Some W ->
  ramp_color (color_ramp R) first second factor = Some color ->
  channel_byte (r color) = Some vr ->
  channel_byte (g color) = Some vg ->
  channel_byte (b color) = Some vb ->
  0 <= x -> 0 <= y -> 0 <= W ->
  (y * W + x) * 3 + 2 < Z.of_nat (length t) <= SIZE_MOD ->
  is_Some (WritePixel R x y first second factor t).
Proof.
  intros HW Hc Hr Hg Hb Hx Hy HW0 Hlen.
  unfold WritePixel, put_bytes. rewrite HW. bind_some. rewrite Hc. bind_some.
  rewrite Hr. bind_some.
  assert (0 <= y * W) by (apply Z.mul_nonneg_nonneg; lia).
  rewrite (size_wrap_small (y * W + x)) by lia.
  rewrite !size_wrap_small by lia.
  rewrite store_in_range by lia. bind_some. rewrite Hg. bind_some.
  rewrite store_in_range by (rewrite length_insert; lia). bind_some.
  rewrite Hb. bind_some.
  rewrite store_in_range by (rewrite !length_insert; lia).
  eexists. reflexivity.
Qed.

Lemma to_size_t_nonneg (x : double) (W : Z) : to_size_t x = Some W -> 0 <= W < SIZE_MOD.
Proof.
  unfold to_size_t, to_range. intros Hx.
  destruct (Double.trunc x) as [n|]; [|discriminate]. cbn in Hx.
  destruct ((0 <=? n) && (n <=? SIZE_MOD - 1)) eqn:Hb; [|discriminate].
  apply andb_true_iff in Hb as [H0 H1].
  apply Z.leb_le in H0. apply Z.leb_le in H1.
  injection Hx as <-. lia.
Qed.

Lemma black_bytes :
  ramp_color [] (-1) 0 (of_int 0) = Some black /\
  channel_byte (r black) = Some 0 /\
  channel_byte (g black) = Some 0 /\
  channel_byte (b black) = Some 0.
Proof. repeat split. Qed.

Lemma ramp_color_sentinel (ramp : list Color) (second : Z) (factor : double) :
  ramp_color ramp (-1) second factor = Some black.
Proof. reflexivity. Qed.

(** ** The reference library on known arguments *)

Example log_ref_2 :
  RefLibM.log_ref (of_int 2) = S754_finite false 6243314768165359 (-53).
Proof. vm_compute. reflexivity. Qed.

Example log_ref_1000 :
  RefLibM.log_ref (of_int 1000) = S754_finite false 7777441025097632 (-50).
Proof. vm_compute. reflexivity. Qed.

Example log_ref_special :
  RefLibM.log_ref (of_int 1) = Double.zero /\
  RefLibM.log_ref Double.zero = S754_infinity true /\
  RefLibM.log_ref (S754_infinity false) = S754_infinity false /\
  RefLibM.log_ref (of_int (-1)) = Double.nan.
Proof. repeat split; vm_compute; reflexivity. Qed.

Example hypot_ref_3_4 : RefLibM.hypot_ref (of_int 3) (of_int (-4)) = of_int 5.
Proof. vm_compute. reflexivity. Qed.

(** The centre pixel of a 2x2 window maps to the offset of the job. *)
Example centre_pixel :
  pixel_c Samples.R2 Samples.near_job 1 1 = Complex (of_int 3) Double.zero.
Proof. vm_compute. reflexivity. Qed.

(** ** Classification of a pixel *)

Section KernelFacts.
Context {lm : LibM}.

Lemma kernel_result (R : Renderer) (job : Job) (x y : Z) :
  exists z i,
    iterate loop_fuel (pixel_c R job x y) = Some (z, i) /\
    kernel R job x y = Some (classify z i) /\
    (0 <= i <= max_iterations) /\
    ((norm2 z <? four)%D = true -> i = max_iterations).
Proof.
  destruct (iterate_ends (pixel_c R job x y)) as (z & i & Hit & Hi & Hx).
  exists z, i. split; [exact Hit|]. split; [|split; assumption].
  unfold kernel. rewrite Hit. reflexivity.
Qed.

Lemma classify_Inside (z : complex) (i : Z) :
  classify z i = Inside <->
  (norm2 z <? four)%D = true \/ i = max_iterations.
Proof.
  unfold classify.
  destruct (norm2 z <? four)%D; cbn [orb].
  - split; [intros _; left; reflexivity | reflexivity].
  - destruct (i =? max_iterations) eqn:Hi.
    + apply Z.eqb_eq in Hi. split; [intros _; right; exact Hi | reflexivity].
    + apply Z.eqb_neq in Hi. split; [discriminate|].
      intros [Hf | He]; [discriminate | contradiction].
Qed.

Lemma paint_Inside_black (R : Renderer) (x y : Z) (t t' : raster) :
  paint R x y Inside t = Some t' -> pixel_at R x y t' = Some (0, 0, 0).
Proof.
  cbn [paint]. intros Hw.
  apply WritePixel_pixel_at in Hw
    as (color & vr & vg & vb & Hc & Hr & Hg & Hb & Hat).
  rewrite ramp_color_sentinel in Hc. injection Hc as <-.
  destruct black_bytes as (_ & Br & Bg & Bb).
  congruence.
Qed.

Lemma paint_Inside_defined (R : Renderer) (x y W : Z) (t : raster) :
  to_size_t (texture_width R) = Some W ->
  0 <= x -> 0 <= y ->
  (y * W + x) * 3 + 2 < Z.of_nat (length t) <= SIZE_MOD ->
  is_Some (paint R x y Inside t).
Proof.
  intros HW Hx Hy Hlen. cbn [paint].
  destruct black_bytes as (_ & Br & Bg & Bb).
  apply to_size_t_nonneg in HW as HW0.
  eapply WritePixel_defined; eauto using ramp_color_sentinel. lia.
Qed.

(** C2, as the code has it: a pixel is classified inside, and painted
    (0,0,0), exactly when [i] has reached [max_iterations] when the loop
    ends. [|z|^2 < 4] at that point implies it, but is not implied by it.
    Every pixel the kernel returns inside for is written as the three
    bytes (0,0,0), and that write is defined whenever the pixel lies in
    the raster. *)
Theorem C2_inside_iff_counter_at_max (R : Renderer) (job : Job) (x y : Z) :
  exists z i,
    iterate loop_fuel (pixel_c R job x y) = Some (z, i) /\
    (kernel R job x y = Some Inside <-> i = max_iterations) /\
    ((norm2 z <? four)%D = true -> i = max_iterations) /\
    (kernel R job x y = Some Inside ->
     forall t : raster,
       (forall t', render_pixel R job x y t = Some t' ->
                   pixel_at R x y t' = Some (0, 0, 0)) /\
       (forall W, to_size_t (texture_width R) = Some W ->
                  0 <= x -> 0 <= y ->
                  (y * W + x) * 3 + 2 < Z.of_nat (length t) <= SIZE_MOD ->
                  is_Some (render_pixel R job x y t))).
Proof.
  destruct (kernel_result R job x y) as (z & i & Hit & Hk & Hi & Hx).
  exists z, i. split; [exact Hit|]. split; [|split; [exact Hx|]].
  - rewrite Hk. split.
    + intros Hin. injection Hin as Hin.
      apply classify_Inside in Hin as [Hn | Hm]; [auto | exact Hm].
    + intros Hm. f_equal. apply classify_Inside. right. exact Hm.
  - intros Hin t. unfold render_pixel. rewrite Hin. bind_some. split.
    + apply paint_Inside_black.
    + intros W. apply paint_Inside_defined.
Qed.

End KernelFacts.

Section ClassificationExamples.
#[local] Existing Instance RefLibM.ref_libm.

(** C2, as stated, fails at the pixel (1,1) of a 2x2 window with offset
  [0.25 + 165/2^24]: the loop ends with [i = 1000] and [|z|^2] about
  10.2, and the pixel is classified inside and painted black. *)
Lemma C2_inside_although_escaped :
iterate loop_fuel (pixel_c Samples.R2 Samples.last_step_job 1 1)
  = Some (Samples.escaped_z, 1000) /\
(norm2 Samples.escaped_z <? four)%D = false /\
kernel Samples.R2 Samples.last_step_job 1 1 = Some Inside /\
render_pixel Samples.R2 Samples.last_step_job 1 1 Samples.blank
  = Some [7; 7; 7; 7; 7; 7; 7; 7; 7; 0; 0; 0] /\
~ (kernel Samples.R2 Samples.last_step_job 1 1 = Some Inside <->
   (norm2 Samples.escaped_z <? four)%D = true).
Proof.
assert (Hk : kernel Samples.R2 Samples.last_step_job 1 1 = Some Inside)
  by (vm_compute; reflexivity).
assert (Hn : (norm2 Samples.escaped_z <? four)%D = false)
  by (vm_compute; reflexivity).
split; [vm_compute; reflexivity|]. split; [exact Hn|].
split; [exact Hk|]. split; [vm_compute; reflexivity|].
intros [Hcl _]. specialize (Hcl Hk). congruence.
Qed.

Lemma C2_witness :
kernel Samples.R2 Samples.last_step_job 1 1 = Some Inside /\
pixel_at Samples.R2 1 1 [7; 7; 7; 7; 7; 7; 7; 7; 7; 0; 0; 0] = Some (0, 0, 0).
Proof.
destruct (C2_inside_iff_counter_at_max
            Samples.R2 Samples.last_step_job 1 1)
  as (z & i & _ & _ & _ & Hblack).
assert (Hk : kernel Samples.R2 Samples.last_step_job 1 1 = Some Inside)
  by (vm_compute; reflexivity).
split; [exact Hk|].
apply (proj1 (Hblack Hk Samples.blank)).
vm_compute. reflexivity.
Defined.

End ClassificationExamples.

(** ** The colour mapper *)

Lemma to_range_Some (lo hi : Z) (x : double) (n : Z) :
  to_range lo hi x = Some n -> Double.trunc x = Some n /\ lo <= n <= hi.
Proof.
  unfold to_range. intros Hx.
  destruct (Double.trunc x) as [m|]; [|discriminate]. bind_some.
  cbn [mbind option_bind] in Hx.
  destruct ((lo <=? m) && (m <=? hi)) eqn:Hb; [|discriminate].
  apply andb_true_iff in Hb as [H0 H1].
  apply Z.leb_le in H0. apply Z.leb_le in H1.
  injection Hx as <-. split; [reflexivity | lia].
Qed.

(** On a non-negative value the cast to [int] is the floor. *)
Lemma trunc_nonneg_floor (s : double) (n : Z) :
  (Double.zero <=? s)%D = true ->
  Double.trunc s = Some n ->
  0 <= n /\ Double.floor s = Some n.
Proof.
  intros Hs Ht.
  destruct s as [sg | sg | | sg m e]; cbn in Ht; try discriminate.
  - injection Ht as <-. split; [lia | reflexivity].
  - destruct sg; [discriminate Hs|].
    destruct e as [|p|p]; cbn [Double.floor cond_Zopp] in *;
      injection Ht as <-.
    + rewrite Z.shiftl_mul_pow2 by lia. split; [lia | reflexivity].
    + rewrite Z.shiftl_mul_pow2 by lia. split; [|reflexivity].
      apply Z.mul_nonneg_nonneg; [lia|]. apply Z.pow_nonneg. lia.
    + rewrite Z.shiftr_div_pow2 by lia. split; [|reflexivity].
      apply Z.div_pos; [lia|]. apply Z.pow_pos_nonneg; lia.
Qed.

Lemma rem_index (n : Z) :
  0 <= n -> Z.rem n (max_colors * 2) = n mod 100 /\ 0 <= n mod 100 < 100.
Proof.
  intros Hn. change (max_colors * 2) with 100.
  rewrite Z.rem_mod_nonneg by lia. split; [reflexivity|].
  apply Z.mod_pos_bound. lia.
Qed.

Lemma int_add_Some (a c n : Z) : int_add a c = Some n -> n = a + c.
Proof.
  unfold int_add. destruct ((INT_MIN <=? a + c) && (a + c <=? INT_MAX));
    [congruence | discriminate].
Qed.

Lemma ramp_at_nonneg (ramp : list Color) (i : Z) :
  0 <= i -> ramp_at ramp i = ramp !! Z.to_nat i.
Proof.
  intros Hi. unfold ramp_at. apply Z.leb_le in Hi. rewrite Hi. reflexivity.
Qed.

(** For a count that is not negative, WritePixel computes the colour of the
    specification. *)
Lemma ramp_color_spec (ramp : list Color) (s : double) (first second : Z) :
  (Double.zero <=? s)%D = true ->
  to_int s = Some first ->
  int_add first 1 = Some second ->
  Double.floor s = Some first /\
  ramp_color ramp first second (s - of_int first)%D = spec_color ramp s.
Proof.
  intros Hs Hf Hsec.
  apply to_range_Some in Hf as [Ht _].
  destruct (trunc_nonneg_floor s first Hs Ht) as [H0 Hfl].
  apply int_add_Some in Hsec. subst second.
  split; [exact Hfl|].
  unfold ramp_color, spec_color. rewrite Hfl. bind_some.
  assert ((first =? -1) = false) as -> by (apply Z.eqb_neq; lia).
  destruct (rem_index first H0) as [-> Hr1].
  destruct (rem_index (first + 1)) as [-> Hr2]; [lia|].
  rewrite !ramp_at_nonneg by lia. reflexivity.
Qed.

(** *** When the conversions of lines 120-121 are defined *)

Lemma digits2_bound (m : positive) : Zpos m < 2 ^ Zpos (digits2_pos m).
Proof.
  induction m as [m IH | m IH |]; cbn [digits2_pos].
  - rewrite Pos2Z.inj_succ, Z.pow_succ_r by lia. lia.
  - rewrite Pos2Z.inj_succ, Z.pow_succ_r by lia. lia.
  - reflexivity.
Qed.

(** The mantissa of a binary64 number has at most 53 bits. *)
Lemma valid_mantissa (sg : bool) (m : positive) (e : Z) :
  Double.valid (S754_finite sg m e) = true -> Zpos m < 2 ^ 53.
Proof.
  unfold Double.valid, valid_binary, bounded, canonical_mantissa, fexp, emin.
  intros Hv. apply andb_true_iff in Hv as [Hc _]. apply Z.eqb_eq in Hc.
  pose proof (digits2_bound m) as Hd.
  assert (Zpos (digits2_pos m) <= 53) as Hle
    by (unfold Double.prec, Double.emax in Hc; lia).
  apply (Z.lt_le_trans _ _ _ Hd). apply Z.pow_le_mono_r; lia.
Qed.

(** For a binary64 count with [0 <= s < INT_MAX] the cast to [int] and the
    increment are defined. *)
Lemma conversions_defined (s : double) :
  Double.valid s = true ->
  (Double.zero <=? s)%D = true ->
  (s <? of_int INT_MAX)%D = true ->
  exists first second,
    to_int s = Some first /\ int_add first 1 = Some second /\ 0 <= first.
Proof.
  intros Hv H0 Hlt.
  assert (Hgoal : forall n, Double.trunc s = Some n -> 0 <= n < INT_MAX ->
            exists first second,
              to_int s = Some first /\ int_add first 1 = Some second /\ 0 <= first).
  { intros n Ht Hn. exists n, (n + 1).
    unfold to_int, to_range, int_add. rewrite Ht. bind_some.
    unfold INT_MIN, INT_MAX in *.
    assert ((- 2 ^ 31 <=? n) && (n <=? 2 ^ 31 - 1) = true) as ->
      by (apply andb_true_iff; rewrite !Z.leb_le; lia).
    assert ((- 2 ^ 31 <=? n + 1) && (n + 1 <=? 2 ^ 31 - 1) = true) as ->
      by (apply andb_true_iff; rewrite !Z.leb_le; lia).
    repeat split; lia. }
  destruct s as [sg | sg | | sg m e]; try discriminate.
  - apply (Hgoal 0); [reflexivity | unfold INT_MAX; lia].
  - destruct sg; [discriminate H0 | vm_compute in Hlt; discriminate Hlt].
  - destruct sg; [discriminate H0|].
    apply valid_mantissa in Hv.
    change (of_int INT_MAX) with (S754_finite false 9007199250546688 (-22)) in Hlt.
    unfold Double.ltb, SFltb in Hlt. cbn [SFcompare] in Hlt.
    destruct (Z.compare e (-22)) eqn:He; try discriminate.
    + apply Z.compare_eq in He. subst e.
      rewrite Pos.compare_cont_spec in Hlt. cbn [Pos.switch_Eq] in Hlt.
      destruct (Pos.compare m 9007199250546688) eqn:Hm; try discriminate.
      apply Pos.compare_lt_iff in Hm.
      apply (Hgoal (Z.shiftr (Zpos m) 22)); [reflexivity|].
      rewrite Z.shiftr_div_pow2 by lia. unfold INT_MAX.
      change (2 ^ 22) with 4194304. change (2 ^ 31 - 1) with 2147483647.
      split.
      * apply Z.div_pos; lia.
      * apply Z.div_lt_upper_bound; [lia|].
        pose proof (Pos2Z.pos_lt_pos _ _ Hm). lia.
    + destruct e as [|p|p]; try discriminate He.
      assert (Z.neg p < -22) as He' by exact He.
      apply (Hgoal (Z.shiftr (Zpos m) (Zpos p))); [reflexivity|].
      rewrite Z.shiftr_div_pow2 by lia. unfold INT_MAX. split.
      * apply Z.div_pos; [lia|]. apply Z.pow_pos_nonneg; lia.
      * apply Z.div_lt_upper_bound; [apply Z.pow_pos_nonneg; lia|].
        assert (2 ^ 23 <= 2 ^ Zpos p) as Hp by (apply Z.pow_le_mono_r; lia).
        change (2 ^ 23) with 8388608 in Hp.
        change (2 ^ 53) with 9007199254740992 in Hv.
        change (2 ^ 31 - 1) with 2147483647. nia.
Qed.

Section ColourFacts.
Context {lm : LibM}.

Lemma kernel_Outside (R : Renderer) (job : Job) (x y : Z) (s : double) :
  kernel R job x y = Some (Outside s) ->
  exists z i,
    iterate loop_fuel (pixel_c R job x y) = Some (z, i) /\
    (norm2 z <? four)%D = false /\ (0 <= i < max_iterations) /\
    s = smooth i z.
Proof.
  intros Hk.
  destruct (kernel_result R job x y) as (z & i & Hit & Hk' & Hi & _).
  rewrite Hk' in Hk. injection Hk as Hk. unfold classify in Hk.
  destruct (norm2 z <? four)%D eqn:Hn; [discriminate|]. cbn [orb] in Hk.
  destruct (i =? max_iterations) eqn:He; [discriminate|].
  apply Z.eqb_neq in He. injection Hk as <-.
  exists z, i. split; [exact Hit|]. split; [exact Hn|].
  split; [lia | reflexivity].
Qed.

(** C3, for the counts the cast of line 120 floors: for every pixel
    classified outside whose smoothed count [s] is not negative and whose
    conversions to [int] are defined, [s] is the formula of line 118,
    [first = floor(s)], [second = first + 1], [f = s - first], and the pixel
    is painted as the specification says: the colour
    [ramp[second mod 100]*f + ramp[first mod 100]*(1-f)], each channel
    multiplied by 255 and truncated to a byte. *)
Theorem C3_outside_colour_for_nonnegative_count
    (R : Renderer) (job : Job) (x y : Z) (s : double) (first second : Z) :
  kernel R job x y = Some (Outside s) ->
  (Double.zero <=? s)%D = true ->
  to_int s = Some first ->
  int_add first 1 = Some second ->
  (exists z i,
      iterate loop_fuel (pixel_c R job x y) = Some (z, i) /\
      s = (of_int i + (log (log (of_int max_iterations)) - log (log (cabs z)))
                      / log two)%D) /\
  Double.floor s = Some first /\ second = first + 1 /\
  (forall t : raster, render_pixel R job x y t = spec_paint R x y s t) /\
  (forall t t' : raster,
      render_pixel R job x y t = Some t' ->
      exists color vr vg vb,
        spec_color (color_ramp R) s = Some color /\
        Double.trunc (r color * of_int 255)%D = Some vr /\
        Double.trunc (g color * of_int 255)%D = Some vg /\
        Double.trunc (b color * of_int 255)%D = Some vb /\
        pixel_at R x y t' = Some (vr, vg, vb)).
Proof.
  intros Hk Hs Hf Hsec.
  destruct (ramp_color_spec (color_ramp R) s first second Hs Hf Hsec)
    as [Hfl Hcol].
  assert (Hpaint : forall t : raster,
             render_pixel R job x y t =
             WritePixel R x y first second (s - of_int first)%D t).
  { intros t. unfold render_pixel. rewrite Hk. bind_some.
    cbn [paint]. rewrite Hf. bind_some. rewrite Hsec. reflexivity. }
  split; [|split; [exact Hfl | split; [apply int_add_Some; exact Hsec|]]].
  - destruct (kernel_Outside R job x y s Hk) as (z & i & Hit & _ & _ & Hsm).
    exists z, i. split; [exact Hit | exact Hsm].
  - split.
    + intros t. rewrite Hpaint.
      unfold WritePixel, spec_paint. rewrite Hcol. reflexivity.
    + intros t t' Hr. rewrite Hpaint in Hr.
      apply WritePixel_pixel_at in Hr
        as (color & vr & vg & vb & Hc & Hr & Hg & Hb & Hat).
      exists color, vr, vg, vb. rewrite <- Hcol.
      split; [exact Hc|].
      apply to_range_Some in Hr as [Hr _].
      apply to_range_Some in Hg as [Hg _].
      apply to_range_Some in Hb as [Hb _].
      repeat (split; [assumption|]). exact Hat.
Qed.

(** The cast of line 120 gives the integer part of [s], taken as a number. *)
Lemma integer_part_of_integer (n : Z) (q : Q) :
  (q == inject_Z n)%Q -> (inject_Z n <= q)%Q /\ (q < inject_Z n + 1)%Q.
Proof.
  intros ->. split; [apply Qle_refl|].
  change 1%Q with (inject_Z 1). rewrite <- inject_Z_plus, <- Zlt_Qlt. lia.
Qed.

Lemma trunc_exact (s : double) (n : Z) :
  (Double.zero <=? s)%D = true ->
  Double.trunc s = Some n ->
  exists q, exact s = Some q /\ (inject_Z n <= q)%Q /\ (q < inject_Z n + 1)%Q.
Proof.
  intros Hs Ht.
  destruct s as [sg | sg | | sg m e]; cbn [Double.trunc] in Ht; try discriminate.
  - injection Ht as <-. exists 0%Q. split; [reflexivity|].
    split; [apply Qle_refl | reflexivity].
  - destruct sg; [discriminate Hs|].
    cbn [exact cond_Zopp]. eexists. split; [reflexivity|].
    destruct e as [|p|p]; cbn [cond_Zopp] in Ht; injection Ht as <-.
    + apply integer_part_of_integer.
      rewrite Z.shiftl_mul_pow2 by lia. change (2 ^ 0)%Q with 1%Q.
      rewrite Z.pow_0_r, Z.mul_1_r. apply Qmult_1_r.
    + apply integer_part_of_integer.
      rewrite Z.shiftl_mul_pow2 by lia.
      rewrite inject_Z_mult. rewrite Zpower_Qpower by lia. reflexivity.
    + rewrite Z.shiftr_div_pow2 by lia.
      assert (Hd : (0 < 2 ^ Zpos p)%Z) by (apply Z.pow_pos_nonneg; lia).
      assert (Hq : (inject_Z (Zpos m) * 2 ^ Zneg p
                    == inject_Z (Zpos m) / inject_Z (2 ^ Zpos p))%Q).
      { change (Zneg p) with (- Zpos p). rewrite Qpower_opp.
        rewrite Zpower_Qpower by lia. reflexivity. }
      rewrite Hq. split.
      * apply Qle_shift_div_l; [rewrite Zlt_Qlt in Hd; exact Hd|].
        rewrite <- inject_Z_mult, <- Zle_Qle.
        rewrite Z.mul_comm. apply Z.mul_div_le. exact Hd.
      * apply Qlt_shift_div_r; [rewrite Zlt_Qlt in Hd; exact Hd|].
        change 1%Q with (inject_Z 1).
        rewrite <- inject_Z_plus, <- inject_Z_mult, <- Zlt_Qlt.
        rewrite Z.mul_comm.
        pose proof (Z.mul_succ_div_gt (Zpos m) (2 ^ Zpos p) Hd). lia.
Qed.

Lemma trunc_None_exact (s : double) : Double.trunc s = None -> exact s = None.
Proof.
  destruct s as [sg | sg | | sg m e]; try reflexivity; try discriminate.
  destruct e; discriminate.
Qed.

(** The conversions of lines 120-121 on a count that is not negative: they
    are defined exactly when the integer part of [s] is below 2^31 - 1. *)
Lemma count_conversions (s : double) (n : Z) :
  (Double.zero <=? s)%D = true ->
  Double.trunc s = Some n ->
  0 <= n /\
  (n < INT_MAX -> to_int s = Some n /\ int_add n 1 = Some (n + 1)) /\
  (INT_MAX <= n -> (first ← to_int s; int_add first 1) = None).
Proof.
  intros Hs Ht. destruct (trunc_nonneg_floor s n Hs Ht) as [H0 _].
  split; [exact H0|].
  unfold to_int, to_range, int_add. rewrite Ht. bind_some.
  unfold INT_MIN, INT_MAX. split.
  - intros Hlt.
    assert ((- 2 ^ 31 <=? n) && (n <=? 2 ^ 31 - 1) = true) as ->
      by (apply andb_true_iff; rewrite !Z.leb_le; lia).
    assert ((- 2 ^ 31 <=? n + 1) && (n + 1 <=? 2 ^ 31 - 1) = true) as ->
      by (apply andb_true_iff; rewrite !Z.leb_le; lia).
    split; reflexivity.
  - intros Hge.
    destruct ((- 2 ^ 31 <=? n) && (n <=? 2 ^ 31 - 1)) eqn:Hin; [|reflexivity].
    bind_some.
    assert ((- 2 ^ 31 <=? n + 1) && (n + 1 <=? 2 ^ 31 - 1) = false) as ->
      by (apply andb_false_iff; right; apply Z.leb_gt; lia).
    reflexivity.
Qed.

(** C10: for every outside pixel whose smoothed count [s] is not negative
    and every 100-entry ramp, the call of WritePixel reads the ramp in
    bounds: with [first = (int)s] and [second = first + 1], the subscripts
    [first % (max_colors*2)] and [second % (max_colors*2)] of line 164 lie
    in [0, 100), the two reads yield the entries [c1] and [c2] of the ramp,
    and the colour of the pixel is the interpolation of the two; [first]
    is the integer part of [s], taken as a number. The only other case is
    that [s] is infinite or at least 2^31 - 1, where the conversion of line
    120 or the addition of line 121 is already undefined and no subscript
    is computed. *)
Theorem C10_ramp_indices_in_bounds
    (R : Renderer) (job : Job) (x y : Z) (s : double) (t : raster) :
  kernel R job x y = Some (Outside s) ->
  (Double.zero <=? s)%D = true ->
  length (color_ramp R) = 100%nat ->
  (exists first c1 c2 q,
      exact s = Some q /\ (inject_Z first <= q)%Q /\ (q < inject_Z first + 1)%Q /\
      to_int s = Some first /\ int_add first 1 = Some (first + 1) /\
      0 <= first /\
      0 <= Z.rem first (max_colors * 2) < 100 /\
      0 <= Z.rem (first + 1) (max_colors * 2) < 100 /\
      color_ramp R !! Z.to_nat (Z.rem first (max_colors * 2)) = Some c1 /\
      color_ramp R !! Z.to_nat (Z.rem (first + 1) (max_colors * 2)) = Some c2 /\
      ramp_color (color_ramp R) first (first + 1) (s - of_int first)%D =
        Some (color_add (color_scale c2 (s - of_int first)%D)
                        (color_scale c1 (one - (s - of_int first))%D)) /\
      render_pixel R job x y t =
        WritePixel R x y first (first + 1) (s - of_int first)%D t)
  \/
  (render_pixel R job x y t = None /\
   forall q, exact s = Some q -> (inject_Z INT_MAX <= q)%Q).
Proof.
  intros Hk Hs Hlen.
  assert (Hpaint : render_pixel R job x y t =
            (first ← to_int s; second ← int_add first 1;
             WritePixel R x y first second (s - of_int first)%D t))
    by (unfold render_pixel; rewrite Hk; reflexivity).
  destruct (Double.trunc s) as [n|] eqn:Ht.
  - destruct (count_conversions s n Hs Ht) as (H0 & Hdef & Hundef).
    destruct (trunc_exact s n Hs Ht) as (q & Hq & Hlo & Hhi).
    destruct (Z_lt_le_dec n INT_MAX) as [Hlt | Hge].
    + left. destruct (Hdef Hlt) as [Hf Hsec].
      destruct (rem_index n H0) as [E1 B1].
      destruct (rem_index (n + 1)) as [E2 B2]; [lia|].
      destruct (lookup_lt_is_Some_2 (color_ramp R) (Z.to_nat (n mod 100)))
        as [c1 Hc1]; [lia|].
      destruct (lookup_lt_is_Some_2 (color_ramp R) (Z.to_nat ((n + 1) mod 100)))
        as [c2 Hc2]; [lia|].
      exists n, c1, c2, q. rewrite E1, E2.
      repeat (split; [first [assumption | lia]|]). split.
      * unfold ramp_color.
        assert ((n =? -1) = false) as -> by (apply Z.eqb_neq; lia).
        rewrite E1, E2, !ramp_at_nonneg by lia. rewrite Hc1, Hc2. reflexivity.
      * rewrite Hpaint, Hf. bind_some. rewrite Hsec. reflexivity.
    + right. split.
      2:{ intros q' Hq'. assert (q' = q) as -> by congruence.
          apply (Qle_trans _ (inject_Z n)); [|exact Hlo].
          rewrite <- Zle_Qle. exact Hge. }
      rewrite Hpaint. specialize (Hundef Hge).
      destruct (to_int s) as [first|]; [|reflexivity].
      cbn [mbind option_bind] in Hundef |- *. rewrite Hundef. reflexivity.
  - right. split; [|intros q Hq; rewrite (trunc_None_exact s Ht) in Hq; discriminate].
    rewrite Hpaint. unfold to_int, to_range. rewrite Ht. reflexivity.
Qed.

End ColourFacts.

Section ColourExamples.
#[local] Existing Instance RefLibM.ref_libm.

(** C3, as stated, fails at the pixel (1,1) of a 2x2 window with offset
    [10^15]: it is classified outside with [s] about -1.32; the cast gives
    [first = -1] where the floor is -2, WritePixel takes -1 for its inside
    marker and paints (0,0,0), where the colour of the specification has the
    bytes (30,1,126). *)
Lemma C3_negative_count_painted_black :
  kernel Samples.R2 Samples.far_job 1 1 = Some (Outside Samples.far_s) /\
  to_int Samples.far_s = Some (-1) /\
  Double.floor Samples.far_s = Some (-2) /\
  render_pixel Samples.R2 Samples.far_job 1 1 Samples.blank
    = Some [7; 7; 7; 7; 7; 7; 7; 7; 7; 0; 0; 0] /\
  spec_paint Samples.R2 1 1 Samples.far_s Samples.blank
    = Some [7; 7; 7; 7; 7; 7; 7; 7; 7; 30; 1; 126] /\
  render_pixel Samples.R2 Samples.far_job 1 1 Samples.blank
    <> spec_paint Samples.R2 1 1 Samples.far_s Samples.blank.
Proof.
  repeat split; try (vm_compute; reflexivity).
  vm_compute. discriminate.
Qed.

Lemma C3_witness :
  Double.floor Samples.near_s = Some 3 /\
  render_pixel Samples.R2 Samples.near_job 1 1 Samples.blank
    = Some [7; 7; 7; 7; 7; 7; 7; 7; 7; 132; 18; 118].
Proof.
  destruct (C3_outside_colour_for_nonnegative_count
              Samples.R2 Samples.near_job 1 1 Samples.near_s 3 4)
    as (_ & Hfl & _ & Hp & _);
    [vm_compute; reflexivity | vm_compute; reflexivity
    | vm_compute; reflexivity | vm_compute; reflexivity |].
  split; [exact Hfl|]. rewrite Hp. vm_compute. reflexivity.
Defined.

(** At [c = 0.25 + 2^-13] the orbit leaves after 282 iterations and the
    count is about 285.2: [first] is 285 and [second] 286, neither of which
    is a subscript of the ramp, and the entries read are those at 85 and
    86. *)
Lemma C10_witness :
  kernel Samples.R2 Samples.slow_job 1 1
    = Some (Outside (S754_finite false 5017228148031155 (-44))) /\
  to_int (S754_finite false 5017228148031155 (-44)) = Some 285 /\
  Samples.ramp !! 285%nat = None /\
  exists c1 c2,
    Samples.ramp !! 85%nat = Some c1 /\ Samples.ramp !! 86%nat = Some c2 /\
    ramp_color Samples.ramp 285 286
      (S754_finite false 5017228148031155 (-44) - of_int 285)%D =
    Some (color_add
            (color_scale c2
               (S754_finite false 5017228148031155 (-44) - of_int 285)%D)
            (color_scale c1
               (one - (S754_finite false 5017228148031155 (-44) - of_int 285))%D)).
Proof.
  assert (Hk : kernel Samples.R2 Samples.slow_job 1 1
               = Some (Outside (S754_finite false 5017228148031155 (-44))))
    by (vm_compute; reflexivity).
  split; [exact Hk|]. split; [reflexivity|]. split; [reflexivity|].
  destruct (C10_ramp_indices_in_bounds Samples.R2 Samples.slow_job 1 1
              (S754_finite false 5017228148031155 (-44)) Samples.blank Hk)
    as [(first & c1 & c2 & q & _ & _ & _ & Hf & _ & _ & _ & _ & H1 & H2 & Hc & _)
       | [Hnone _]];
    [reflexivity | reflexivity | | vm_compute in Hnone; discriminate Hnone].
  assert (first = 285) as -> by (vm_compute in Hf; congruence).
  exists c1, c2. split; [exact H1|]. split; [exact H2 | exact Hc].
Defined.

End ColourExamples.

(** ** The two bands of Application::run *)

Lemma half_height (H : Z) :
  0 <= H < SIZE_MOD ->
  size_wrap (H ÷ 2) = H / 2 /\ 0 <= H / 2 <= H /\
  size_wrap (H - H / 2) = H - H / 2.
Proof.
  intros HH. rewrite Z.quot_div_nonneg by lia.
  assert (0 <= H / 2 <= H) as Hhalf.
  { split; [apply Z.div_pos; lia|]. apply Z.div_le_upper_bound; lia. }
  rewrite !size_wrap_small by lia. auto.
Qed.

Lemma first_job_rows (H : Z) :
  0 <= H < SIZE_MOD -> job_rows (first_job H) = seqZ 0 (H / 2).
Proof.
  intros HH. destruct (half_height H HH) as (E1 & B & E2).
  unfold job_rows, job_end, first_job. cbn [y_start y_count].
  rewrite E1. rewrite size_wrap_small by lia. f_equal. lia.
Qed.

Lemma second_job_rows (H : Z) :
  0 <= H < SIZE_MOD -> job_rows (second_job H) = seqZ (H / 2) (H - H / 2).
Proof.
  intros HH. destruct (half_height H HH) as (E1 & B & E2).
  unfold job_rows, job_end, second_job. cbn [y_start y_count].
  rewrite E1, E2. rewrite size_wrap_small by lia. f_equal. lia.
Qed.

(** C5: for every height [H] the rows of the two jobs are [0, H/2) and
    [H/2, H); together they are exactly the rows [0, H), in order and
    without repetition, and no row belongs to both. *)
Theorem C5_two_bands_partition_rows (H : Z) :
  0 <= H < SIZE_MOD ->
  job_rows (first_job H) = seqZ 0 (H / 2) /\
  job_rows (second_job H) = seqZ (H / 2) (H - H / 2) /\
  job_rows (first_job H) ++ job_rows (second_job H) = seqZ 0 H /\
  (forall y, y ∈ job_rows (first_job H) -> y ∈ job_rows (second_job H) -> False) /\
  (forall y, 0 <= y < H <->
             y ∈ job_rows (first_job H) \/ y ∈ job_rows (second_job H)).
Proof.
  intros HH. destruct (half_height H HH) as (_ & B & _).
  rewrite first_job_rows, second_job_rows by exact HH.
  split; [reflexivity|]. split; [reflexivity|].
  split; [|split].
  - replace (seqZ 0 H) with (seqZ 0 (H / 2 + (H - H / 2))) by (f_equal; lia).
    rewrite seqZ_app by lia. reflexivity.
  - intros y H1 H2. apply elem_of_seqZ in H1, H2. lia.
  - intros y. rewrite !elem_of_seqZ. lia.
Qed.

Lemma C5_witness :
  job_rows (first_job 5) ++ job_rows (second_job 5) = seqZ 0 5 /\
  job_rows (first_job 5) = [0; 1] /\ job_rows (second_job 5) = [2; 3; 4].
Proof.
  destruct (C5_two_bands_partition_rows 5) as (H1 & H2 & H3 & _);
    [unfold SIZE_MOD; lia|].
  split; [exact H3|]. split; [rewrite H1 | rewrite H2]; reflexivity.
Defined.

(** ** The colour ramp *)

Lemma for_each_app {A : Type} (l1 l2 : list Z) (body : Z -> A -> option A) (a : A) :
  for_each (l1 ++ l2) body a = a' ← for_each l1 body a; for_each l2 body a'.
Proof.
  revert a. induction l1 as [|v l1 IH]; intros a; cbn [for_each app].
  - reflexivity.
  - destruct (body v a) as [a1|]; bind_some; [apply IH | reflexivity].
Qed.

Lemma ramp_store_in_range (i : Z) (c : Color) (ramp : list Color) :
  0 <= i < Z.of_nat (length ramp) ->
  ramp_store i c ramp = Some (<[Z.to_nat i := c]> ramp).
Proof.
  intros [H0 H1]. unfold ramp_store.
  apply Z.leb_le in H0. apply Z.ltb_lt in H1. rewrite H0, H1. reflexivity.
Qed.

(** One iteration on a 100-entry array writes the entry and its mirror. *)
Lemma ramp_step_100 (ov : sqrt_overload) (i : Z) (ramp : list Color) :
  length ramp = 100%nat -> 0 <= i < max_colors ->
  ramp_step ov i ramp =
  Some (<[Z.to_nat (99 - i) := ramp_entry ov i]>
          (<[Z.to_nat i := ramp_entry ov i]> ramp)).
Proof.
  intros Hlen Hi. unfold max_colors in Hi. unfold ramp_step.
  rewrite ramp_store_in_range by lia. bind_some.
  rewrite ramp_at_nonneg by lia.
  rewrite list_lookup_insert_eq by lia. bind_some.
  change (max_colors * 2 - 1 - i) with (100 - 1 - i).
  rewrite size_wrap_small by (unfold SIZE_MOD; lia).
  rewrite ramp_store_in_range by (rewrite length_insert; lia).
  replace (100 - 1 - i) with (99 - i) by lia. reflexivity.
Qed.

Lemma ramp_prefix (ov : sqrt_overload) (init : list Color) (n : nat) :
  length init = 100%nat -> (n <= 50)%nat ->
  exists ramp,
    for_each (seqZ 0 (Z.of_nat n)) (ramp_step ov) init = Some ramp /\
    ramp_filled ov (Z.of_nat n) ramp.
Proof.
  intros Hlen. induction n as [|n IH]; intros Hn.
  - exists init. split; [reflexivity|]. split; [exact Hlen | intros j Hj; lia].
  - destruct IH as (ramp & Hrun & Hl & Hfill); [lia|].
    rewrite seqZ_S, for_each_app, Hrun. bind_some. cbn [for_each].
    rewrite Z.add_0_l.
    rewrite ramp_step_100 by (unfold max_colors; lia). bind_some.
    eexists. split; [reflexivity|]. split.
    + rewrite !length_insert. exact Hl.
    + intros j Hj.
      destruct (Z.eq_dec j (Z.of_nat n)) as [-> | Hne].
      * split.
        -- rewrite list_lookup_insert_ne by lia.
           apply list_lookup_insert_eq. lia.
        -- apply list_lookup_insert_eq. rewrite length_insert. lia.
      * destruct (Hfill j) as [F1 F2]; [lia|].
        rewrite !list_lookup_insert_ne by lia. split; assumption.
Qed.

Lemma build_ramp_filled (ov : sqrt_overload) (init : list Color) :
  length init = 100%nat ->
  exists ramp, build_ramp ov init = Some ramp /\ ramp_filled ov 50 ramp.
Proof.
  intros Hlen. exact (ramp_prefix ov init 50 Hlen (le_n 50)).
Qed.

Lemma entries_in_unit (ov : sqrt_overload) (i : Z) :
  0 <= i < 50 -> unit_color (ramp_entry ov i) = true.
Proof.
  intros Hi.
  assert (Hall : forallb (fun j => unit_color (ramp_entry ov j)) (seqZ 0 50) = true)
    by (destruct ov; vm_compute; reflexivity).
  rewrite forallb_forall in Hall. apply Hall.
  apply list_elem_of_In, elem_of_seqZ. lia.
Qed.

(** Line 227 written out: the entry is
    [(sqrt(sqrt(i/50)), i/50, ((50 - i)/50) * 0.5f)] in [float] arithmetic. *)
Lemma ramp_entry_formula (ov : sqrt_overload) (i : Z) :
  0 <= i < 50 ->
  ramp_entry ov i =
  mkColor
    (sqrt_sqrt ov (Single.div (Single.of_Z i) (Single.of_Z 50)))
    (Single.to_double (Single.div (Single.of_Z i) (Single.of_Z 50)))
    (Single.to_double
       (Single.mul (Single.div (Single.of_Z (50 - i)) (Single.of_Z 50))
                   Single.half)).
Proof.
  intros Hi. unfold ramp_entry. change max_colors with 50.
  rewrite size_wrap_small by (unfold SIZE_MOD; lia). reflexivity.
Qed.

(** The channels of the entries as numbers: each lies in [0, 1]; the red
    one is the fourth root of [i/50], the green one [i/50] and the blue one
    half of [(50 - i)/50], to within the rounding of the [float]
    operations. *)
Lemma ramp_entry_values (ov : sqrt_overload) (i : Z) :
  0 <= i < 50 ->
  exists vr vg vb : Q,
    exact (r (ramp_entry ov i)) = Some vr /\
    exact (g (ramp_entry ov i)) = Some vg /\
    exact (b (ramp_entry ov i)) = Some vb /\
    (0 <= vr /\ vr <= 1)%Q /\ (0 <= vg /\ vg <= 1)%Q /\ (0 <= vb /\ vb <= 1)%Q /\
    (Qabs (vr ^ 4 - inject_Z i / 50) <= 1 # 2 ^ 22)%Q /\
    (Qabs (vg - inject_Z i / 50) <= 1 # 2 ^ 24)%Q /\
    (Qabs (vb - inject_Z (50 - i) / 50 * (1 # 2)) <= 1 # 2 ^ 24)%Q.
Proof.
  intros Hi.
  assert (Hall :
    forallb
      (fun j =>
         match exact (r (ramp_entry ov j)), exact (g (ramp_entry ov j)),
               exact (b (ramp_entry ov j)) with
         | Some vr, Some vg, Some vb =>
             Qle_bool 0 vr && Qle_bool vr 1 && Qle_bool 0 vg && Qle_bool vg 1 &&
             Qle_bool 0 vb && Qle_bool vb 1 &&
             Qle_bool (Qabs (vr ^ 4 - inject_Z j / 50)) (1 # 2 ^ 22) &&
             Qle_bool (Qabs (vg - inject_Z j / 50)) (1 # 2 ^ 24) &&
             Qle_bool (Qabs (vb - inject_Z (50 - j) / 50 * (1 # 2))) (1 # 2 ^ 24)
         | _, _, _ => false
         end) (seqZ 0 50) = true)
    by (destruct ov; vm_compute; reflexivity).
  rewrite forallb_forall in Hall.
  specialize (Hall i). cbv beta in Hall.
  assert (Hin : In i (seqZ 0 50)) by (apply list_elem_of_In, elem_of_seqZ; lia).
  specialize (Hall Hin).
  destruct (exact (r (ramp_entry ov i))) as [vr|]; [|discriminate].
  destruct (exact (g (ramp_entry ov i))) as [vg|]; [|discriminate].
  destruct (exact (b (ramp_entry ov i))) as [vb|]; [|discriminate].
  rewrite !andb_true_iff, !Qle_bool_iff in Hall.
  exists vr, vg, vb. tauto.
Qed.

(** C7: from any 100-entry array the palette loop builds a ramp of exactly
    100 entries with, for every [i] in [0, 50),
    [ramp[i] = (sqrt(sqrt(i/50)), i/50, ((50 - i)/50) * 0.5)] and
    [ramp[99 - i] = ramp[i]]; every channel of every entry lies in [0, 1].
    The entry is given twice: as the [float] operations of lines 224-227
    compute it (binary32 division, the two square roots in binary32 or in
    binary64 according to the overload, the product by [0.5f], converted to
    [double]), and as numbers: the red channel [vr] is not negative and
    [vr^4] is [i/50] to within 2^-22, the green channel is [i/50] and the
    blue one [((50 - i)/50)/2] to within 2^-24. *)
Theorem C7_ramp_contents (ov : sqrt_overload) (init : list Color) :
  length init = 100%nat ->
  exists ramp,
    build_ramp ov init = Some ramp /\
    length ramp = 100%nat /\
    (forall i, 0 <= i < 50 ->
       exists c,
         ramp !! Z.to_nat i = Some c /\
         ramp !! Z.to_nat (99 - i) = Some c /\
         (let fifty := binary_normalize 24 128 50 0 false in
          let t := SFdiv 24 128 (binary_normalize 24 128 i 0 false) fifty in
          let u := SFdiv 24 128 (binary_normalize 24 128 (50 - i) 0 false) fifty in
          let half := SFdiv 24 128 (binary_normalize 24 128 1 0 false)
                                   (binary_normalize 24 128 2 0 false) in
          r c = match ov with
                | SqrtFloat => Single.to_double (SFsqrt 24 128 (SFsqrt 24 128 t))
                | SqrtDouble =>
                    SFsqrt 53 1024 (SFsqrt 53 1024 (Single.to_double t))
                end /\
          g c = Single.to_double t /\
          b c = Single.to_double (SFmul 24 128 u half)) /\
         exists vr vg vb : Q,
           exact (r c) = Some vr /\ exact (g c) = Some vg /\
           exact (b c) = Some vb /\
           (0 <= vr /\ vr <= 1)%Q /\ (0 <= vg /\ vg <= 1)%Q /\
           (0 <= vb /\ vb <= 1)%Q /\
           (Qabs (vr ^ 4 - inject_Z i / 50) <= 1 # 2 ^ 22)%Q /\
           (Qabs (vg - inject_Z i / 50) <= 1 # 2 ^ 24)%Q /\
           (Qabs (vb - inject_Z (50 - i) / 50 * (1 # 2)) <= 1 # 2 ^ 24)%Q) /\
    (forall (k : nat) (c : Color), ramp !! k = Some c -> unit_color c = true).
Proof.
  intros Hlen.
  destruct (build_ramp_filled ov init Hlen) as (ramp & Hb & Hl & Hfill).
  exists ramp. split; [exact Hb|]. split; [exact Hl|]. split.
  - intros i Hi. destruct (Hfill i Hi) as [F1 F2].
    exists (ramp_entry ov i). split; [exact F1|]. split; [exact F2|].
    split; [|exact (ramp_entry_values ov i Hi)].
    rewrite ramp_entry_formula by exact Hi.
    cbv zeta. cbn [r g b]. destruct ov; repeat split; reflexivity.
  - intros k c Hk.
    assert (k < 100)%nat as Hk100
      by (rewrite <- Hl; apply lookup_lt_is_Some; eauto).
    destruct (Z_lt_le_dec (Z.of_nat k) 50) as [Hlo | Hhi].
    + destruct (Hfill (Z.of_nat k)) as [F1 _]; [lia|].
      rewrite Nat2Z.id in F1.
      assert (c = ramp_entry ov (Z.of_nat k)) as -> by congruence.
      apply entries_in_unit. lia.
    + destruct (Hfill (99 - Z.of_nat k)) as [_ F2]; [lia|].
      replace (Z.to_nat (99 - (99 - Z.of_nat k))) with k in F2 by lia.
      assert (c = ramp_entry ov (99 - Z.of_nat k)) as -> by congruence.
      apply entries_in_unit. lia.
Qed.

(** The ramp built from an array of zeros: [ramp[25]] is
    [(sqrtf(sqrtf(0.5f)), 0.5, 0.25)], red being 0.840896427631378..., and
    [ramp[74]] is the same colour. *)
Lemma C7_witness :
  length Samples.ramp = 100%nat /\
  Samples.ramp !! 99%nat = Samples.ramp !! 0%nat /\
  Forall (fun c => unit_color c = true) Samples.ramp /\
  Samples.ramp !! 25%nat =
    Some (mkColor (S754_finite false 7574121676275712 (-53))
                  (S754_finite false 4503599627370496 (-53))
                  (S754_finite false 4503599627370496 (-54))) /\
  Samples.ramp !! 74%nat = Samples.ramp !! 25%nat /\
  exact (S754_finite false 7574121676275712 (-53))
    = Some (7574121676275712 # 9007199254740992).
Proof.
  destruct (C7_ramp_contents SqrtFloat (replicate 100 black))
    as (ramp & Hb & Hl & Hpal & Hunit); [reflexivity|].
  assert (Samples.ramp = ramp) as ->
    by (unfold Samples.ramp; rewrite Hb; reflexivity).
  destruct (Hpal 0 ltac:(lia)) as (c0 & H0 & H99 & _).
  destruct (Hpal 25 ltac:(lia)) as (c & H25 & H74 & (Hr & Hg & Hbl) & _).
  change (Z.to_nat 0) with 0%nat in H0.
  change (Z.to_nat (99 - 0)) with 99%nat in H99.
  change (Z.to_nat 25) with 25%nat in H25.
  change (Z.to_nat (99 - 25)) with 74%nat in H74.
  split; [exact Hl|]. split; [congruence|].
  split; [apply Forall_lookup; exact Hunit|].
  split; [|split; [congruence | vm_compute; reflexivity]].
  rewrite H25. f_equal. destruct c as [cr cg cb]. cbn [r g b] in Hr, Hg, Hbl.
  rewrite Hr, Hg, Hbl. vm_compute. reflexivity.
Defined.

(** C8: the ramp has [ramp[0] = ramp[99]] and [ramp[49] = ramp[50]], so
    where [first mod 100] is 99 (or 49) the two entries WritePixel
    interpolates between, [ramp[second % 100]] and [ramp[first % 100]], are
    the same colour: there is no jump at the wrap. *)
Theorem C8_ramp_equal_at_wrap (ov : sqrt_overload) (init : list Color) :
  length init = 100%nat ->
  exists ramp,
    build_ramp ov init = Some ramp /\
    is_Some (ramp !! 0%nat) /\ ramp !! 0%nat = ramp !! 99%nat /\
    is_Some (ramp !! 49%nat) /\ ramp !! 49%nat = ramp !! 50%nat /\
    (forall first,
        0 <= first -> first mod 100 = 99 \/ first mod 100 = 49 ->
        ramp_at ramp (Z.rem (first + 1) (max_colors * 2)) =
        ramp_at ramp (Z.rem first (max_colors * 2))).
Proof.
  intros Hlen.
  destruct (build_ramp_filled ov init Hlen) as (ramp & Hb & Hl & Hfill).
  destruct (Hfill 0) as [A0 A99]; [lia|].
  destruct (Hfill 49) as [A49 A50]; [lia|].
  change (Z.to_nat 0) with 0%nat in A0.
  change (Z.to_nat (99 - 0)) with 99%nat in A99.
  change (Z.to_nat 49) with 49%nat in A49.
  change (Z.to_nat (99 - 49)) with 50%nat in A50.
  exists ramp. split; [exact Hb|].
  split; [rewrite A0; eauto|]. split; [congruence|].
  split; [rewrite A49; eauto|]. split; [congruence|].
  intros first H0 Hm.
  destruct (rem_index first H0) as [-> _].
  destruct (rem_index (first + 1)) as [-> _]; [lia|].
  assert ((first + 1) mod 100 = (first mod 100 + 1) mod 100) as ->
    by (rewrite Z.add_mod_idemp_l by lia; reflexivity).
  destruct Hm as [-> | ->].
  - change ((99 + 1) mod 100) with 0. rewrite !ramp_at_nonneg by lia.
    change (Z.to_nat 0) with 0%nat. change (Z.to_nat 99) with 99%nat.
    congruence.
  - change ((49 + 1) mod 100) with 50. rewrite !ramp_at_nonneg by lia.
    change (Z.to_nat 50) with 50%nat. change (Z.to_nat 49) with 49%nat.
    congruence.
Qed.

Lemma C8_witness :
  Samples.ramp !! 0%nat = Samples.ramp !! 99%nat /\
  Samples.ramp !! 49%nat = Samples.ramp !! 50%nat.
Proof.
  destruct (C8_ramp_equal_at_wrap SqrtFloat (replicate 100 black))
    as (ramp & Hb & _ & H0 & _ & H49 & _); [reflexivity|].
  assert (Samples.ramp = ramp) as ->
    by (unfold Samples.ramp; rewrite Hb; reflexivity).
  split; assumption.
Defined.

(** ** Independence of the order of the pixels *)

Lemma write3_length (offset vr vg vb : Z) (t : raster) :
  length (write3 offset vr vg vb t) = length t.
Proof. unfold write3. rewrite !length_insert. reflexivity. Qed.

Lemma write3_comm (o1 o2 a1 b1 c1 a2 b2 c2 : Z) (t : raster) :
  0 <= o1 -> 0 <= o2 -> o1 <> o2 ->
  write3 o2 a2 b2 c2 (write3 o1 a1 b1 c1 t) =
  write3 o1 a1 b1 c1 (write3 o2 a2 b2 c2 t).
Proof.
  intros H1 H2 Hne. unfold write3.
  apply list_eq. intros k.
  rewrite !list_lookup_insert, !length_insert.
  repeat case_decide; try reflexivity; lia.
Qed.

(** Away from the wrap-around of [size_t], the stores of a pixel either
    are undefined or update the three bytes in place. *)
Lemma put_bytes_plain (offset : Z) (c : Color) (t : raster) :
  0 <= offset -> offset * 3 + 2 < SIZE_MOD ->
  put_bytes offset c t =
  '(vr, vg, vb) ← color_bytes c;
  if offset * 3 + 2 <? Z.of_nat (length t)
  then Some (write3 offset vr vg vb t) else None.
Proof.
  intros H0 Hw. unfold put_bytes, color_bytes.
  rewrite !size_wrap_small by lia.
  destruct (channel_byte (r c)) as [vr|]; bind_some; [|reflexivity].
  destruct (channel_byte (g c)) as [vg|]; bind_some.
  2: { destruct (store _ vr t); reflexivity. }
  destruct (channel_byte (b c)) as [vb|]; bind_some.
  2: { destruct (store _ vr t) as [t1|]; bind_some; [|reflexivity].
       destruct (store _ vg t1); reflexivity. }
  destruct (offset * 3 + 2 <? Z.of_nat (length t)) eqn:Hlen.
  - apply Z.ltb_lt in Hlen.
    rewrite store_in_range by lia. bind_some.
    rewrite store_in_range by (rewrite length_insert; lia). bind_some.
    rewrite store_in_range by (rewrite !length_insert; lia). reflexivity.
  - apply Z.ltb_ge in Hlen.
    destruct (store _ vr t) as [t1|] eqn:S1; bind_some; [|reflexivity].
    destruct (store _ vg t1) as [t2|] eqn:S2; bind_some; [|reflexivity].
    destruct (store (offset * 3 + 2) vb t2) as [t3|] eqn:S3; [|reflexivity].
    apply store_length in S1, S2. apply store_Some in S3 as [S3 _]. lia.
Qed.

Section OrderFacts.
Context {lm : LibM}.

(** The loop body computes a colour from the pixel alone and stores it. *)
Lemma render_pixel_color (R : Renderer) (job : Job) (x y : Z) (t : raster) :
  render_pixel R job x y t =
  W ← to_size_t (texture_width R);
  c ← pixel_color R job x y;
  put_bytes (size_wrap (y * W + x)) c t.
Proof.
  unfold render_pixel, pixel_color.
  destruct (kernel R job x y) as [[|s]|]; bind_some.
  - reflexivity.
  - cbn [paint]. destruct (to_int s) as [first|]; bind_some.
    + destruct (int_add first 1) as [second|]; bind_some; [reflexivity|].
      destruct (to_size_t (texture_width R)); reflexivity.
    + destruct (to_size_t (texture_width R)); reflexivity.
  - destruct (to_size_t (texture_width R)); reflexivity.
Qed.

(** Only the viewport of a job enters the loop body. *)
Lemma render_pixel_viewport (R : Renderer) (job job' : Job) (x y : Z) (t : raster) :
  scale job = scale job' -> offset job = offset job' ->
  render_pixel R job x y t = render_pixel R job' x y t.
Proof.
  intros Hs Ho. unfold render_pixel, kernel, pixel_c. rewrite Hs, Ho. reflexivity.
Qed.

Lemma plain_offset (W x y : Z) :
  plain_pixel W (x, y) ->
  size_wrap (y * W + x) = y * W + x /\ 0 <= y * W + x.
Proof.
  intros (Hx & Hy & Hw). cbn [fst snd] in *.
  assert (0 <= y * W) by (apply Z.mul_nonneg_nonneg; lia).
  rewrite size_wrap_small by lia. lia.
Qed.

Lemma plain_offsets_differ (W x1 y1 x2 y2 : Z) :
  plain_pixel W (x1, y1) -> plain_pixel W (x2, y2) ->
  (x1, y1) <> (x2, y2) -> y1 * W + x1 <> y2 * W + x2.
Proof.
  intros (Hx1 & Hy1 & _) (Hx2 & Hy2 & _) Hne Heq. cbn [fst snd] in *.
  apply Hne.
  assert (y1 = y2) by nia. subst y2.
  f_equal. lia.
Qed.

(** The stores of two different pixels can be done in either order. *)
Lemma put_bytes_swap (o1 o2 : Z) (c1 c2 : Color) (t : raster) :
  0 <= o1 -> o1 * 3 + 2 < SIZE_MOD ->
  0 <= o2 -> o2 * 3 + 2 < SIZE_MOD -> o1 <> o2 ->
  (t' ← put_bytes o1 c1 t; put_bytes o2 c2 t') =
  (t' ← put_bytes o2 c2 t; put_bytes o1 c1 t').
Proof.
  intros N1 B1 N2 B2 Hne.
  rewrite (put_bytes_plain o1 c1 t), (put_bytes_plain o2 c2 t) by assumption.
  destruct (color_bytes c1) as [[[a1 b1] d1]|] eqn:C1;
    destruct (color_bytes c2) as [[[a2 b2] d2]|] eqn:C2; bind_some.
  - destruct (o1 * 3 + 2 <? Z.of_nat (length t)) eqn:L1;
      destruct (o2 * 3 + 2 <? Z.of_nat (length t)) eqn:L2; bind_some;
      rewrite ?put_bytes_plain by assumption;
      rewrite ?C1, ?C2; bind_some; rewrite ?write3_length, ?L1, ?L2;
      try reflexivity.
    f_equal. apply write3_comm; assumption.
  - destruct (o1 * 3 + 2 <? Z.of_nat (length t)); bind_some; [|reflexivity].
    rewrite put_bytes_plain by assumption. rewrite C2. reflexivity.
  - destruct (o2 * 3 + 2 <? Z.of_nat (length t)); bind_some; [|reflexivity].
    rewrite put_bytes_plain by assumption. rewrite C1. reflexivity.
  - reflexivity.
Qed.

Lemma render_pixel_known (R : Renderer) (job : Job) (W x y : Z) (t : raster) :
  to_size_t (texture_width R) = Some W ->
  render_pixel R job x y t =
  match pixel_color R job x y with
  | Some c => put_bytes (size_wrap (y * W + x)) c t
  | None => None
  end.
Proof.
  intros HW. rewrite render_pixel_color, HW. bind_some.
  destruct (pixel_color R job x y); reflexivity.
Qed.

(** The loop bodies of two pixels can be run in either order. *)
Lemma render_pixel_swap (R : Renderer) (job : Job) (W x1 y1 x2 y2 : Z) (t : raster) :
  to_size_t (texture_width R) = Some W ->
  plain_pixel W (x1, y1) -> plain_pixel W (x2, y2) ->
  (t' ← render_pixel R job x1 y1 t; render_pixel R job x2 y2 t') =
  (t' ← render_pixel R job x2 y2 t; render_pixel R job x1 y1 t').
Proof.
  intros HW P1 P2.
  destruct (decide ((x1, y1) = (x2, y2))) as [Heq | Hne];
    [injection Heq as -> ->; reflexivity|].
  pose proof (plain_offsets_differ W x1 y1 x2 y2 P1 P2 Hne) as Hoff.
  destruct (plain_offset W x1 y1 P1) as [E1 N1].
  destruct (plain_offset W x2 y2 P2) as [E2 N2].
  destruct P1 as (_ & _ & B1). destruct P2 as (_ & _ & B2).
  cbn [fst snd] in B1, B2.
  transitivity
    (match pixel_color R job x1 y1, pixel_color R job x2 y2 with
     | Some c1, Some c2 =>
         t' ← put_bytes (y1 * W + x1) c1 t; put_bytes (y2 * W + x2) c2 t'
     | _, _ => None
     end).
  - rewrite (render_pixel_known R job W x1 y1 t HW), E1.
    destruct (pixel_color R job x1 y1) as [c1|]; [|reflexivity].
    destruct (put_bytes (y1 * W + x1) c1 t) as [t1|]; bind_some.
    + rewrite (render_pixel_known R job W x2 y2 t1 HW), E2.
      destruct (pixel_color R job x2 y2); reflexivity.
    + destruct (pixel_color R job x2 y2); reflexivity.
  - rewrite (render_pixel_known R job W x2 y2 t HW), E2.
    destruct (pixel_color R job x2 y2) as [c2|];
      [|destruct (pixel_color R job x1 y1); reflexivity].
    destruct (pixel_color R job x1 y1) as [c1|] eqn:C1; [|].
    + rewrite put_bytes_swap by assumption.
      destruct (put_bytes (y2 * W + x2) c2 t) as [t2|]; bind_some; [|reflexivity].
      rewrite (render_pixel_known R job W x1 y1 t2 HW), E1, C1. reflexivity.
    + destruct (put_bytes (y2 * W + x2) c2 t) as [t2|]; bind_some; [|reflexivity].
      rewrite (render_pixel_known R job W x1 y1 t2 HW), C1. reflexivity.
Qed.

Lemma render_pixels_app (R : Renderer) (job : Job) (l1 l2 : list (Z * Z)) (t : raster) :
  render_pixels R job (l1 ++ l2) t =
  t' ← render_pixels R job l1 t; render_pixels R job l2 t'.
Proof.
  revert t. induction l1 as [|[x y] l1 IH]; intros t; cbn [render_pixels app].
  - reflexivity.
  - destruct (render_pixel R job x y t) as [t1|]; bind_some; [apply IH | reflexivity].
Qed.

Lemma bind_swap_then {A : Type} (m1 m2 : raster -> option raster)
    (k : raster -> option A) (t : raster) :
  (t' ← m1 t; m2 t') = (t' ← m2 t; m1 t') ->
  (t1 ← m1 t; t2 ← m2 t1; k t2) = (t1 ← m2 t; t2 ← m1 t1; k t2).
Proof.
  intros Hswap.
  transitivity ((t' ← m1 t; m2 t') ≫= k).
  - destruct (m1 t); reflexivity.
  - rewrite Hswap. destruct (m2 t); reflexivity.
Qed.

(** Pixels whose offsets do not wrap can be rendered in any order. *)
Lemma render_pixels_perm (R : Renderer) (job : Job) (W : Z) (l1 l2 : list (Z * Z)) :
  to_size_t (texture_width R) = Some W ->
  l1 ≡ₚ l2 -> Forall (plain_pixel W) l1 ->
  forall t, render_pixels R job l1 t = render_pixels R job l2 t.
Proof.
  intros HW Hperm. induction Hperm as [|[x y] l l' _ IH|[x1 y1] [x2 y2] l|l l' l'' P1 IH1 P2 IH2];
    intros Hall t.
  - reflexivity.
  - cbn [render_pixels]. apply Forall_cons in Hall as [_ Hall].
    destruct (render_pixel R job x y t); bind_some; [apply IH; exact Hall | reflexivity].
  - cbn [render_pixels].
    apply Forall_cons in Hall as [Q1 Hall]. apply Forall_cons in Hall as [Q2 _].
    apply bind_swap_then.
    apply (render_pixel_swap R job W); assumption.
  - rewrite IH1 by exact Hall. apply IH2. rewrite <- P1. exact Hall.
Qed.

Lemma render_pixels_viewport (R : Renderer) (job job' : Job) (l : list (Z * Z)) :
  scale job = scale job' -> offset job = offset job' ->
  forall t, render_pixels R job l t = render_pixels R job' l t.
Proof.
  intros Hs Ho. induction l as [|[x y] l IH]; intros t; cbn [render_pixels].
  - reflexivity.
  - rewrite (render_pixel_viewport R job job' x y t Hs Ho).
    destruct (render_pixel R job' x y t); bind_some; [apply IH | reflexivity].
Qed.

Lemma row_pixels (R : Renderer) (job : Job) (y : Z) (l : list Z) (t : raster) :
  for_each l (fun x => render_pixel R job x y) t =
  render_pixels R job (map (fun x => (x, y)) l) t.
Proof.
  revert t. induction l as [|x l IH]; intros t; cbn [for_each map render_pixels].
  - reflexivity.
  - destruct (render_pixel R job x y t); bind_some; [apply IH | reflexivity].
Qed.

Lemma rows_pixels (R : Renderer) (job : Job) (W : Z) (rows : list Z) (t : raster) :
  to_size_t (texture_width R) = Some W ->
  for_each rows (render_row R job) t = render_pixels R job (all_pixels W rows) t.
Proof.
  intros HW. revert t. unfold all_pixels.
  induction rows as [|y rows IH]; intros t; cbn [for_each map concat].
  - reflexivity.
  - rewrite render_pixels_app.
    assert (render_row R job y t =
            render_pixels R job (map (fun x => (x, y)) (seqZ 0 W)) t) as ->
      by (unfold render_row; rewrite HW; bind_some; apply row_pixels).
    destruct (render_pixels R job _ t); bind_some; [apply IH | reflexivity].
Qed.

Lemma all_pixels_app (W : Z) (rows1 rows2 : list Z) :
  all_pixels W (rows1 ++ rows2) = all_pixels W rows1 ++ all_pixels W rows2.
Proof. unfold all_pixels. rewrite map_app, concat_app. reflexivity. Qed.

Lemma elem_of_all_pixels (W : Z) (rows : list Z) (x y : Z) :
  (x, y) ∈ all_pixels W rows <-> y ∈ rows /\ 0 <= x < W.
Proof.
  unfold all_pixels. induction rows as [|y0 rows IH]; cbn [map concat].
  - rewrite !elem_of_nil. tauto.
  - rewrite elem_of_app, elem_of_cons, IH, list_elem_of_In, in_map_iff.
    split.
    + intros [(x' & Heq & Hx') | [Hy Hx]]; [|tauto].
      injection Heq as -> ->.
      apply list_elem_of_In, elem_of_seqZ in Hx'. split; [left; reflexivity | lia].
    + intros [[-> | Hy] Hx]; [left | right; tauto].
      exists x. split; [reflexivity|].
      apply list_elem_of_In, elem_of_seqZ. lia.
Qed.

End OrderFacts.

Lemma put_bytes_pixel_at (R : Renderer) (W x y : Z) (c : Color) (t t' : raster) :
  to_size_t (texture_width R) = Some W ->
  put_bytes (size_wrap (y * W + x)) c t = Some t' ->
  exists bs, color_bytes c = Some bs /\ pixel_at R x y t' = Some bs.
Proof.
  intros HW Hp. unfold put_bytes in Hp. unfold color_bytes, pixel_at.
  rewrite HW. bind_some.
  set (o := size_wrap (y * W + x) * 3) in *.
  destruct (channel_byte (r c)) as [vr|]; [|discriminate].
  cbn [mbind option_bind] in Hp.
  destruct (store _ vr t) as [t1|] eqn:H1; [|discriminate].
  cbn [mbind option_bind] in Hp.
  destruct (channel_byte (g c)) as [vg|]; [|discriminate].
  cbn [mbind option_bind] in Hp.
  destruct (store _ vg t1) as [t2|] eqn:H2; [|discriminate].
  cbn [mbind option_bind] in Hp.
  destruct (channel_byte (b c)) as [vb|]; [|discriminate].
  cbn [mbind option_bind] in Hp.
  exists (vr, vg, vb). split; [reflexivity|].
  assert (t' !! Z.to_nat (size_wrap (o + 0)) = Some vr) as ->.
  { rewrite (store_lookup_other _ _ _ _ _ Hp)
      by (apply channel_offsets_distinct; lia).
    rewrite (store_lookup_other _ _ _ _ _ H2)
      by (apply channel_offsets_distinct; lia).
    apply (store_lookup_same _ _ _ _ H1). }
  bind_some.
  assert (t' !! Z.to_nat (size_wrap (o + 1)) = Some vg) as ->.
  { rewrite (store_lookup_other _ _ _ _ _ Hp)
      by (apply channel_offsets_distinct; lia).
    apply (store_lookup_same _ _ _ _ H2). }
  bind_some.
  rewrite (store_lookup_same _ _ _ _ Hp). reflexivity.
Qed.

Lemma total_nonneg (counts : list Z) :
  Forall (fun n => 0 <= n) counts -> 0 <= total counts.
Proof.
  induction 1 as [|n counts Hn _ IH]; cbn [total foldr]; [lia|].
  fold (total counts). lia.
Qed.

Section PartitionFacts.
Context {lm : LibM}.

Lemma pixel_color_viewport (R : Renderer) (job job' : Job) (x y : Z) :
  scale job = scale job' -> offset job = offset job' ->
  pixel_color R job x y = pixel_color R job' x y.
Proof.
  intros Hs Ho. unfold pixel_color, kernel, pixel_c. rewrite Hs, Ho. reflexivity.
Qed.

(** A band job renders the pixels of its rows. *)
Lemma run_job_pixels (R : Renderer) (job : Job) (W : Z) (t : raster) :
  to_size_t (texture_width R) = Some W ->
  run_job R job t = render_pixels R job (all_pixels W (job_rows job)) t.
Proof. intros HW. unfold run_job. apply rows_pixels. exact HW. Qed.

(** Consecutive bands render the pixels of their rows, band after band. *)
Lemma bands_pixels (R : Renderer) (job' : Job) (W : Z) (counts : list Z) :
  to_size_t (texture_width R) = Some W ->
  Forall (fun n => 0 <= n) counts ->
  forall y0 t,
    0 <= y0 -> y0 + total counts < SIZE_MOD ->
    run_jobs R (bands y0 counts (scale job') (offset job')) t =
    render_pixels R job' (all_pixels W (seqZ y0 (total counts))) t.
Proof.
  intros HW Hall. induction Hall as [|n counts Hn Hall IH]; intros y0 t Hy0 Hend.
  - reflexivity.
  - cbn [bands run_jobs total foldr] in *. fold (total counts) in *.
    pose proof (total_nonneg counts Hall) as Htot.
    rewrite seqZ_app, all_pixels_app, render_pixels_app by lia.
    rewrite (run_job_pixels R _ W t HW).
    unfold job_rows, job_end. cbn [y_start y_count].
    rewrite size_wrap_small by lia.
    replace (y0 + n - y0) with n by lia.
    rewrite (render_pixels_viewport R _ job') by reflexivity.
    destruct (render_pixels R job' _ t) as [t1|]; bind_some; [|reflexivity].
    apply IH; lia.
Qed.

Lemma whole_pixels_plain (W H : Z) :
  0 <= H -> W * H * 3 <= SIZE_MOD ->
  Forall (plain_pixel W) (all_pixels W (seqZ 0 H)).
Proof.
  intros HH Hsz. apply Forall_forall. intros [x y] Hin.
  apply elem_of_all_pixels in Hin as [Hy Hx]. apply elem_of_seqZ in Hy.
  unfold plain_pixel. cbn [fst snd]. split; [lia|]. split; [lia|]. nia.
Qed.

End PartitionFacts.

Section Determinism.
Context {lm : LibM}.

(** C6: for a fixed renderer (width, height, ramp) and viewport, the final
    raster is the same whatever the partition of the rows [0, H) into
    consecutive bands, and whatever the order in which the pixels of those
    rows are rendered; each pixel ends with the bytes of a colour computed
    from (x, y), the renderer and the viewport alone. *)
Theorem C6_raster_independent_of_partition
    (R : Renderer) (sc : double) (off : complex) (W H : Z) (t : raster) :
  to_size_t (texture_width R) = Some W ->
  0 <= H < SIZE_MOD ->
  W * H * 3 <= SIZE_MOD ->
  (forall counts,
      Forall (fun n => 0 <= n) counts -> total counts = H ->
      run_jobs R (bands 0 counts sc off) t = run_job R (mkJob 0 H sc off) t) /\
  (forall order,
      order ≡ₚ all_pixels W (seqZ 0 H) ->
      render_pixels R (mkJob 0 H sc off) order t = run_job R (mkJob 0 H sc off) t) /\
  (forall t',
      run_job R (mkJob 0 H sc off) t = Some t' ->
      forall x y, 0 <= x < W -> 0 <= y < H ->
      exists c bs,
        (forall job, scale job = sc -> offset job = off ->
                     pixel_color R job x y = Some c) /\
        color_bytes c = Some bs /\
        pixel_at R x y t' = Some bs).
Proof.
  intros HW HH Hsz. set (whole := mkJob 0 H sc off).
  assert (Hrows : job_rows whole = seqZ 0 H).
  { unfold job_rows, job_end, whole. cbn [y_start y_count].
    rewrite Z.add_0_l, size_wrap_small by lia. f_equal. lia. }
  assert (Hrun : run_job R whole t =
                 render_pixels R whole (all_pixels W (seqZ 0 H)) t)
    by (rewrite (run_job_pixels R whole W t HW), Hrows; reflexivity).
  pose proof (whole_pixels_plain W H (proj1 HH) Hsz) as Hplain.
  split; [|split].
  - intros counts Hall Htot. rewrite Hrun, <- Htot.
    apply (bands_pixels R whole W counts HW Hall); lia.
  - intros order Hperm. rewrite Hrun.
    apply (render_pixels_perm R whole W); [exact HW | exact Hperm |].
    rewrite Hperm. exact Hplain.
  - intros t' Ht' x y Hx Hy.
    assert (Hin : (x, y) ∈ all_pixels W (seqZ 0 H))
      by (apply elem_of_all_pixels; split; [apply elem_of_seqZ; lia | exact Hx]).
    apply list_elem_of_split in Hin as (l1 & l2 & Hsplit).
    assert (Hperm : all_pixels W (seqZ 0 H) ≡ₚ (l1 ++ l2) ++ [(x, y)]).
    { rewrite Hsplit. rewrite <- Permutation_middle.
      rewrite <- Permutation_cons_append. reflexivity. }
    rewrite Hrun in Ht'.
    rewrite (render_pixels_perm R whole W _ _ HW Hperm Hplain) in Ht'.
    rewrite render_pixels_app in Ht'.
    destruct (render_pixels R whole (l1 ++ l2) t) as [t1|]; [|discriminate].
    cbn [mbind option_bind render_pixels] in Ht'.
    destruct (render_pixel R whole x y t1) as [t2|] eqn:Hpx; [|discriminate].
    cbn [mbind option_bind] in Ht'. injection Ht' as <-.
    rewrite (render_pixel_known R whole W x y t1 HW) in Hpx.
    destruct (pixel_color R whole x y) as [c|] eqn:Hc; [|discriminate].
    destruct (put_bytes_pixel_at R W x y c t1 t2 HW Hpx) as (bs & Hbs & Hat).
    exists c, bs. split; [|split; assumption].
    intros job Hs Ho. rewrite <- Hc. apply pixel_color_viewport; assumption.
Qed.

End Determinism.

Section DeterminismExample.
#[local] Existing Instance RefLibM.ref_libm.

Lemma C6_witness :
  run_jobs Samples.R2 (bands 0 [1; 1] two (Complex (of_int 3) Double.zero))
           Samples.blank
  = run_job Samples.R2 (mkJob 0 2 two (Complex (of_int 3) Double.zero))
            Samples.blank /\
  render_pixels Samples.R2 (mkJob 0 2 two (Complex (of_int 3) Double.zero))
                [(1, 1); (0, 0); (1, 0); (0, 1)] Samples.blank
  = run_job Samples.R2 (mkJob 0 2 two (Complex (of_int 3) Double.zero))
            Samples.blank.
Proof.
  destruct (C6_raster_independent_of_partition
              Samples.R2 two (Complex (of_int 3) Double.zero) 2 2 Samples.blank)
    as (Hbands & Horder & _);
    [vm_compute; reflexivity | unfold SIZE_MOD; lia | unfold SIZE_MOD; lia |].
  split.
  - apply Hbands; [repeat constructor; lia | reflexivity].
  - apply Horder. vm_compute.
    apply (Permutation_cons_app [(0, 0); (1, 0); (0, 1)] [] (1, 1)).
    reflexivity.
Defined.

Lemma two_bands_rendering :
  run_job Samples.R2 (mkJob 0 2 two (Complex (of_int 3) Double.zero)) Samples.blank
  = Some [136; 20; 117; 130; 17; 118; 145; 27; 113; 132; 18; 118].
Proof. vm_compute. reflexivity. Qed.

End DeterminismExample.

(** ** The job flag *)

Section WorkerFacts.
Context {lm : LibM}.
Variable R : Renderer.

Lemma inv_constructed (garbage : Job) (t : raster) :
  job_wf garbage -> worker_inv R (constructed garbage t).
Proof. intros Hwf. split; [exact Hwf | reflexivity]. Qed.

(** A consumer event keeps the invariant. *)
Lemma inv_consumer (e : event) (s s' : state) :
  e <> Work ->
  worker_inv R s -> gated e s -> step R e s = Some s' -> worker_inv R s'.
Proof.
  intros Hne [Hwf Hinv] Hg Hstep. destruct e; cbn [step] in Hstep.
  - (* line 53 *)
    destruct Hg as [Hnew Hgate].
    destruct (consumer s); [|discriminate]. injection Hstep as <-.
    split; [exact Hnew|]. cbn.
    destruct (worker s) eqn:Hpc; cbn; try discriminate;
      try (destruct Hgate as [? | Hd]; [discriminate | ];
           destruct Hinv as [Hf _]; congruence).
    exact Hinv.
  - (* line 55 *)
    destruct (consumer s); [discriminate|]. injection Hstep as <-.
    split; [exact Hwf|]. cbn.
    destruct (worker s); cbn; try discriminate; try reflexivity.
    + destruct Hinv as (_ & Hy & Hrows). split; [reflexivity|].
      split; [exact Hy | exact Hrows].
    + destruct Hinv as (_ & Hy & Hx & Hrows & Hcols). split; [reflexivity|].
      repeat (split; [assumption|]). exact Hcols.
    + destruct Hinv as [_ Hband]. split; [reflexivity | exact Hband].
  - (* stop *)
    injection Hstep as <-. split; [exact Hwf | exact Hinv].
  - (* the thread is created *)
    destruct (worker s) eqn:Hpc; try discriminate. injection Hstep as <-.
    split; [exact Hwf|]. cbn. intros Hd. congruence.
  - contradiction.
Qed.

(** Unfold the invariant and the fields of a state that was just built. *)
Ltac state_simpl :=
  unfold rows_written, cols_written, band_written, in_band, set_worker in *;
  cbn [current_job job_done running texture_data worker consumer written] in *.

(** A step of the worker keeps the invariant. *)
Lemma inv_work (s s' : state) :
  worker_inv R s -> work R s = Some s' -> worker_inv R s'.
Proof.
  intros [Hwf Hinv] Hstep. unfold work in Hstep.
  destruct (worker s) as [| |_y|_y _x| | |] eqn:Hpc; try discriminate.
  - (* line 79 *)
    destruct (job_done s) eqn:Hd; injection Hstep as <-;
      (split; [exact Hwf|]); state_simpl.
    + rewrite Hd. exact Hinv.
    + rewrite Hd. split; [reflexivity|]. split; [lia|].
      intros W x y _ Hy. lia.
  - (* line 84 *)
    destruct Hinv as (Hd & Hy & Hrows).
    destruct (_y <? job_end (current_job s)) eqn:Hlt; injection Hstep as <-;
      (split; [exact Hwf|]); state_simpl; rewrite Hd; (split; [reflexivity|]).
    + apply Z.ltb_lt in Hlt. split; [lia|]. split; [lia|].
      split; [exact Hrows|]. intros W x _ Hx. lia.
    + apply Z.ltb_ge in Hlt. intros W x y HW [Hyb Hxb].
      apply (Hrows W x y HW); lia.
  - (* line 86 *)
    destruct Hinv as (Hd & Hy & Hx & Hrows & Hcols).
    destruct (to_size_t (texture_width R)) as [W|] eqn:HW; [|discriminate].
    cbn [mbind option_bind] in Hstep.
    pose proof (to_size_t_nonneg _ _ HW) as HWr.
    pose proof (size_wrap_range (y_start (current_job s) + y_count (current_job s)))
      as Hend. fold (job_end (current_job s)) in Hend.
    destruct Hwf as [Hys Hyc].
    destruct (_x <? W) eqn:Hlt.
    + apply Z.ltb_lt in Hlt.
      destruct (render_pixel R (current_job s) _x _y (texture_data s)) as [t|];
        [|discriminate].
      cbn [mbind option_bind] in Hstep. injection Hstep as <-.
      split; [split; assumption|]. state_simpl. rewrite Hd.
      rewrite size_wrap_small by lia.
      split; [reflexivity|]. split; [lia|]. split; [lia|]. split.
      * intros W' x y HW' Hyb Hye Hxb. apply elem_of_cons. right.
        apply (Hrows W' x y HW'); assumption.
      * intros W' x HW' Hx1 Hx2. apply elem_of_cons.
        destruct (Z.eq_dec x _x) as [-> | Hne]; [left; reflexivity | right].
        apply (Hcols W' x HW'); lia.
    + apply Z.ltb_ge in Hlt. injection Hstep as <-.
      split; [split; assumption|]. state_simpl. rewrite Hd.
      rewrite size_wrap_small by lia.
      split; [reflexivity|]. split; [lia|].
      intros W' x y HW' Hyb Hye Hxb.
      assert (W' = W) as -> by congruence.
      destruct (Z.eq_dec y _y) as [-> | Hne].
      * apply (Hcols W x HW); lia.
      * apply (Hrows W x y HW); lia.
  - (* line 129 *)
    destruct Hinv as [_ Hband]. injection Hstep as <-.
    split; [exact Hwf|]. state_simpl. intros _ _. exact Hband.
  - (* line 137 *)
    injection Hstep as <-. split; [exact Hwf|]. state_simpl.
    destruct (running s); exact Hinv.
Qed.

Lemma inv_step (e : event) (s s' : state) :
  worker_inv R s -> gated e s -> step R e s = Some s' -> worker_inv R s'.
Proof.
  intros Hinv Hg Hstep.
  destruct e; try (apply (inv_work s s' Hinv Hstep));
    (eapply inv_consumer; [|exact Hinv | exact Hg | exact Hstep]); discriminate.
Qed.

Lemma inv_gated_run (garbage : Job) (t : raster) (s : state) :
  job_wf garbage ->
  gated_run R (constructed garbage t) s -> worker_inv R s.
Proof.
  intros Hwf Hrun. induction Hrun as [|s e s' _ IH Hg Hstep].
  - apply inv_constructed. exact Hwf.
  - apply (inv_step e s s' IH Hg Hstep).
Qed.

(** A done job: the worker is outside the band. *)
Lemma inv_done_band (s : state) :
  worker_inv R s -> jobDone s = Some true -> band_written R s.
Proof.
  intros [_ Hinv] Hjd. unfold jobDone in Hjd.
  destruct (consumer s) eqn:Hc; [|discriminate]. injection Hjd as Hd.
  destruct (worker s) as [| |_y|_y _x| | |].
  - congruence.
  - apply Hinv; auto.
  - destruct Hinv as [Hf _]. congruence.
  - destruct Hinv as [Hf _]. congruence.
  - destruct Hinv as [Hf _]. congruence.
  - apply Hinv; auto.
  - apply Hinv; auto.
Qed.

(** Only line 55 takes the flag from true to false. *)
Lemma flag_stays_true (e : event) (s s' : state) :
  step R e s = Some s' -> job_done s = true -> job_done s' = false ->
  e = SetJobClear.
Proof.
  intros Hstep Hd Hd'. destruct e; cbn [step] in Hstep; [| reflexivity | | |].
  - destruct (consumer s); [|discriminate]. injection Hstep as <-.
    cbn in Hd'. congruence.
  - injection Hstep as <-. cbn in Hd'. congruence.
  - destruct (worker s); try discriminate. injection Hstep as <-.
    cbn in Hd'. congruence.
  - unfold work in Hstep.
    destruct (worker s) as [| |_y|_y _x| | |]; try discriminate.
    + rewrite Hd in Hstep. injection Hstep as <-. cbn in Hd'. congruence.
    + destruct (_y <? _); injection Hstep as <-; cbn in Hd'; congruence.
    + destruct (to_size_t (texture_width R)) as [W|]; [|discriminate].
      cbn [mbind option_bind] in Hstep.
      destruct (_x <? W).
      * destruct (render_pixel R _ _x _y _); [|discriminate].
        cbn [mbind option_bind] in Hstep.
        injection Hstep as <-. cbn in Hd'. congruence.
      * injection Hstep as <-. cbn in Hd'. congruence.
    + injection Hstep as <-. cbn in Hd'. discriminate.
    + injection Hstep as <-. cbn in Hd'. congruence.
Qed.

End WorkerFacts.

Section FlagFacts.
Context {lm : LibM}.
Variable R : Renderer.

Lemma job_wfb_wf (job : Job) : job_wfb job = true -> job_wf job.
Proof.
  unfold job_wfb, job_wf. rewrite !andb_true_iff.
  rewrite !Z.leb_le, !Z.ltb_lt. lia.
Qed.

Lemma gatedb_gated (e : event) (s : state) : gatedb e s = true -> gated e s.
Proof.
  destruct e; cbn [gatedb gated]; try (intros _; exact I).
  rewrite andb_true_iff, orb_true_iff. intros [Hwf Hgate].
  split; [apply job_wfb_wf; exact Hwf|].
  destruct Hgate as [Hpc | Hd]; [left | right; exact Hd].
  destruct (worker s); try discriminate. reflexivity.
Qed.

(** A run that passes the test of the gate is a gated run. *)
Lemma run_gated_sound (es : list event) :
  forall s0 s1 s,
    gated_run R s0 s1 -> run_gated R es s1 = Some s -> gated_run R s0 s.
Proof.
  induction es as [|e es IH]; intros s0 s1 s Hrun Hes; cbn [run_gated] in Hes.
  - injection Hes as <-. exact Hrun.
  - destruct (gatedb e s1) eqn:Hg; [|discriminate].
    destruct (step R e s1) as [s2|] eqn:Hstep; [|discriminate].
    cbn [mbind option_bind] in Hes.
    apply (IH s0 s2 s); [|exact Hes].
    apply (gated_snoc R s0 s1 e s2 Hrun); [apply gatedb_gated; exact Hg | exact Hstep].
Qed.

(** C9, for a consumer that calls [setJob] as [Application::run] does
    (before the thread is created, or after [jobDone()] has returned
    true): whenever [jobDone()] returns true every pixel of the band of the
    current job has been written since that job was set; the flag is false
    when [setJob] returns and for as long as the worker is inside the band;
    and once true it is only made false by the next [setJob]. *)
Theorem C9_flag_under_gated_setJob (garbage : Job) (t : raster) (s : state) :
  job_wf garbage ->
  gated_run R (constructed garbage t) s ->
  (jobDone s = Some true -> band_written R s) /\
  (forall s', step R SetJobClear s = Some s' -> job_done s' = false) /\
  (in_flight s -> job_done s = false) /\
  (forall e s',
      step R e s = Some s' -> job_done s = true -> job_done s' = false ->
      e = SetJobClear).
Proof.
  intros Hwf Hrun.
  pose proof (inv_gated_run R garbage t s Hwf Hrun) as Hinv.
  split; [apply inv_done_band; exact Hinv|]. split; [|split].
  - intros s' Hstep. cbn [step] in Hstep.
    destruct (consumer s); [discriminate|]. injection Hstep as <-. reflexivity.
  - destruct Hinv as [_ Hinv]. unfold in_flight.
    destruct (worker s); try contradiction; intros _; apply Hinv.
  - intros e s'. apply flag_stays_true.
Qed.

End FlagFacts.

Section FlagExamples.
#[local] Existing Instance RefLibM.ref_libm.

(** C9, as stated, fails when [setJob] is called while the worker is in the
    middle of a band: the worker has rendered pixel (0,0) for job A, the
    consumer sets job B, the worker renders pixel (1,0) for B and sets
    [job_done]. [jobDone()] then returns true although pixel (0,0) of B was
    never written: the raster holds A's bytes there. *)
Lemma C9_done_with_pixel_missing :
  run Samples.R2 Samples.resubmission (constructed Samples.job_B Samples.blank)
  = Some (mkState Samples.job_B true true
            [136; 20; 117; 127; 15; 119; 7; 7; 7; 7; 7; 7]
            AtWhile Idle [(1, 0)]) /\
  jobDone (mkState Samples.job_B true true
            [136; 20; 117; 127; 15; 119; 7; 7; 7; 7; 7; 7]
            AtWhile Idle [(1, 0)]) = Some true /\
  in_band Samples.job_B 2 0 0 /\
  ~ band_written Samples.R2
      (mkState Samples.job_B true true
         [136; 20; 117; 127; 15; 119; 7; 7; 7; 7; 7; 7]
         AtWhile Idle [(1, 0)]) /\
  run_job Samples.R2 Samples.job_B Samples.blank
  = Some [128; 16; 119; 127; 15; 119; 7; 7; 7; 7; 7; 7].
Proof.
  assert (Hband : in_band Samples.job_B 2 0 0)
    by (unfold in_band; vm_compute; intuition discriminate).
  split; [vm_compute; reflexivity|]. split; [reflexivity|].
  split; [exact Hband|]. split; [|vm_compute; reflexivity].
  intros Hw. specialize (Hw 2 0 0 eq_refl Hband). cbn [written] in Hw.
  apply elem_of_cons in Hw as [Hw | Hw]; [discriminate|].
  apply elem_of_nil in Hw. exact Hw.
Qed.

Lemma C9_witness :
  exists s,
    run Samples.R2 Samples.one_job (constructed Samples.job_B Samples.blank)
    = Some s /\
    jobDone s = Some true /\ band_written Samples.R2 s.
Proof.
  eexists. split; [vm_compute; reflexivity|]. split; [reflexivity|].
  apply (C9_flag_under_gated_setJob Samples.R2 Samples.job_B Samples.blank).
  - unfold job_wf, SIZE_MOD. cbn. lia.
  - apply (run_gated_sound Samples.R2 Samples.one_job _ _ _ (gated_nil _ _)).
    vm_compute. reflexivity.
  - reflexivity.
Defined.

End FlagExamples.

(** * Further properties of the code *)

(** ** The escape loop computes the escape time *)

Lemma origin_inside : (norm2 z0 <? four)%D = true.
Proof. vm_compute. reflexivity. Qed.

(** From the [k]-th iterate, with all earlier iterates inside the disc, the
    loop stops at the first iterate that is not inside it, or at 1000. *)
Lemma escape_loop_orbit (c : complex) (fuel : nat) :
  forall k : nat,
    (k <= 1000)%nat -> (1000 - k < fuel)%nat ->
    (forall j, (j < k)%nat -> (norm2 (orbit c j) <? four)%D = true) ->
    exists n : nat,
      escape_loop fuel c (orbit c k) (Z.of_nat k) = Some (orbit c n, Z.of_nat n) /\
      (k <= n <= 1000)%nat /\
      (forall j, (j < n)%nat -> (norm2 (orbit c j) <? four)%D = true) /\
      ((n < 1000)%nat -> (norm2 (orbit c n) <? four)%D = false).
Proof.
  induction fuel as [|fuel IH]; intros k Hk Hfuel Hin; [lia|].
  cbn [escape_loop]. unfold max_iterations.
  destruct (Z.of_nat k <? 1000) eqn:Hlt; cbn [andb].
  - apply Z.ltb_lt in Hlt.
    destruct (norm2 (orbit c k) <? four)%D eqn:Hn.
    + rewrite size_wrap_small by (unfold SIZE_MOD; lia).
      replace (Z.of_nat k + 1) with (Z.of_nat (S k)) by lia.
      change (cadd (cmul (orbit c k) (orbit c k)) c) with (orbit c (S k)).
      destruct (IH (S k)) as (n & He & Hr & Hall & Hout); [lia | lia | |].
      * intros j Hj. destruct (Nat.eq_dec j k) as [-> | Hne]; [exact Hn|].
        apply Hin. lia.
      * exists n. split; [exact He|]. split; [lia|]. split; assumption.
    + exists k. split; [reflexivity|]. split; [lia|]. split; [exact Hin|].
      intros _. exact Hn.
  - apply Z.ltb_ge in Hlt.
    exists k. split; [reflexivity|]. split; [lia|]. split; [exact Hin|]. lia.
Qed.

Lemma iterate_orbit (c : complex) :
  exists n : nat,
    iterate loop_fuel c = Some (orbit c n, Z.of_nat n) /\
    (1 <= n <= 1000)%nat /\
    (forall j, (j < n)%nat -> (norm2 (orbit c j) <? four)%D = true) /\
    ((n < 1000)%nat -> (norm2 (orbit c n) <? four)%D = false).
Proof.
  rewrite iterate_is_loop.
  destruct (escape_loop_orbit c loop_fuel 0) as (n & He & Hr & Hall & Hout).
  - lia.
  - unfold loop_fuel, max_iterations. lia.
  - intros j Hj. lia.
  - exists n. split; [exact He|]. split; [|split; assumption].
    split; [|lia].
    destruct n as [|n]; [|lia].
    specialize (Hout ltac:(lia)). cbn [orbit] in Hout.
    rewrite origin_inside in Hout. discriminate.
Qed.

(** X1: the loop returns the escape time of [c]: the final [z] is the
    [i]-th iterate of the orbit of 0, every earlier iterate is inside the
    disc [|z|^2 < 4], and unless [i] is 1000 the [i]-th is not; the loop
    body always runs at least once. *)
Theorem X1_escape_time (c : complex) :
  exists n : nat,
    iterate loop_fuel c = Some (orbit c n, Z.of_nat n) /\
    (1 <= n <= 1000)%nat /\
    (forall j, (j < n)%nat -> (norm2 (orbit c j) <? four)%D = true) /\
    ((n < 1000)%nat -> (norm2 (orbit c n) <? four)%D = false).
Proof. exact (iterate_orbit c). Qed.

(** ** Points that escape at the first iteration *)

(** Adding [c] to the square of 0 keeps [c], up to the sign of a zero. *)
Lemma square_plus_zero (x : double) :
  (Double.mul (Double.add Double.zero x) (Double.add Double.zero x)) =
  Double.mul x x.
Proof. destruct x as [[|] | [|] | | [|] m e]; reflexivity. Qed.

Lemma first_iterate_norm (c : complex) : norm2 (orbit c 1) = norm2 c.
Proof.
  destruct c as [cr ci]. cbn [orbit].
  change (cmul z0 z0) with (Complex Double.zero Double.zero).
  unfold cadd, norm2. cbn [real imag].
  rewrite !square_plus_zero. reflexivity.
Qed.

Section FirstIteration.
Context {lm : LibM}.

(** X2: the loop stops after one iteration exactly for the points [c] that
    are not inside the disc ([|c|^2 < 4] false, which includes a [c] with a
    NaN or infinite part); such a pixel is never classified inside. *)
Theorem X2_escape_at_first_iteration (c z : complex) (i : Z) :
  iterate loop_fuel c = Some (z, i) ->
  (i = 1 <-> (norm2 c <? four)%D = false) /\
  ((norm2 c <? four)%D = false -> classify z i = Outside (smooth 1 z)).
Proof.
  intros Hit.
  destruct (iterate_orbit c) as (n & He & Hr & Hall & Hout).
  rewrite He in Hit. injection Hit as <- <-.
  assert (Hiff : Z.of_nat n = 1 <-> (norm2 c <? four)%D = false).
  { split.
    - intros Hn. assert (n = 1%nat) as -> by lia.
      rewrite <- first_iterate_norm. apply Hout. lia.
    - intros Hc. destruct (Nat.eq_dec n 1%nat) as [-> | Hne]; [reflexivity|].
      specialize (Hall 1%nat ltac:(lia)).
      rewrite first_iterate_norm in Hall. congruence. }
  split; [exact Hiff|].
  intros Hc. apply Hiff in Hc as Hn. assert (n = 1%nat) as -> by lia.
  unfold classify. rewrite first_iterate_norm, Hc. reflexivity.
Qed.

End FirstIteration.

Lemma X2_witness :
  (norm2 (Complex Double.nan (of_int 0)) <? four)%D = false /\
  exists z, iterate loop_fuel (Complex Double.nan (of_int 0)) = Some (z, 1).
Proof.
  assert (Hc : (norm2 (Complex Double.nan (of_int 0)) <? four)%D = false)
    by reflexivity.
  split; [exact Hc|].
  destruct (iterate_ends (Complex Double.nan (of_int 0))) as (z & i & Hit & _).
  exists z.
  destruct (X2_escape_at_first_iteration (lm := RefLibM.ref_libm) _ z i Hit)
    as [Hiff _].
  rewrite Hit. f_equal. f_equal. apply Hiff. exact Hc.
Defined.

(** ** WritePixel *)

(** X3: a defined call of WritePixel keeps the size of the raster and
    changes no byte other than the three of its pixel. *)
Theorem X3_WritePixel_touches_one_pixel
    (R : Renderer) (x y first second : Z) (factor : double) (t t' : raster) :
  WritePixel R x y first second factor t = Some t' ->
  exists W,
    to_size_t (texture_width R) = Some W /\
    length t' = length t /\
    forall k : nat, k ∉ pixel_offsets W x y -> t' !! k = t !! k.
Proof.
  intros Hw. pose proof (WritePixel_length _ _ _ _ _ _ _ _ Hw) as Hlen.
  apply WritePixel_Some in Hw
    as (W & color & vr & vg & vb & t1 & t2 & HW & _ & _ & _ & _ & H1 & H2 & H3).
  exists W. split; [exact HW|]. split; [exact Hlen|].
  intros k Hk. unfold pixel_offsets in Hk. cbn [map] in Hk.
  rewrite !not_elem_of_cons in Hk. destruct Hk as (K0 & K1 & K2 & _).
  rewrite (store_lookup_other _ _ _ _ _ H3) by exact K2.
  rewrite (store_lookup_other _ _ _ _ _ H2) by exact K1.
  apply (store_lookup_other _ _ _ _ _ H1). exact K0.
Qed.

Lemma X3_witness :
  WritePixel Samples.R2 1 1 (-1) 0 Double.zero Samples.blank
  = Some [7; 7; 7; 7; 7; 7; 7; 7; 7; 0; 0; 0] /\
  forall k : nat, k ∉ pixel_offsets 2 1 1 ->
    [7; 7; 7; 7; 7; 7; 7; 7; 7; 0; 0; 0] !! k = Samples.blank !! k.
Proof.
  assert (Hw : WritePixel Samples.R2 1 1 (-1) 0 Double.zero Samples.blank
               = Some [7; 7; 7; 7; 7; 7; 7; 7; 7; 0; 0; 0])
    by (vm_compute; reflexivity).
  split; [exact Hw|].
  destruct (X3_WritePixel_touches_one_pixel Samples.R2 1 1 (-1) 0 Double.zero
              Samples.blank [7; 7; 7; 7; 7; 7; 7; 7; 7; 0; 0; 0] Hw)
    as (W & HW & _ & Hk).
  assert (W = 2) as -> by (vm_compute in HW; congruence).
  exact Hk.
Defined.

(** X4: for a pixel whose offsets do not wrap, WritePixel is defined exactly
    when the ramp reads and the three byte conversions are defined and the
    last byte of the pixel lies inside the raster; a pixel beyond the end of
    the raster is never written. *)
Theorem X4_WritePixel_defined_iff
    (R : Renderer) (W x y first second : Z) (factor : double) (t : raster) :
  to_size_t (texture_width R) = Some W ->
  0 <= x -> 0 <= y -> (y * W + x) * 3 + 2 < SIZE_MOD ->
  (is_Some (WritePixel R x y first second factor t) <->
   (exists c, ramp_color (color_ramp R) first second factor = Some c /\
              is_Some (color_bytes c)) /\
   (y * W + x) * 3 + 2 < Z.of_nat (length t)).
Proof.
  intros HW Hx Hy Hwrap.
  apply to_size_t_nonneg in HW as HW0.
  assert (0 <= y * W) by (apply Z.mul_nonneg_nonneg; lia).
  unfold WritePixel. rewrite HW. bind_some.
  rewrite size_wrap_small by lia.
  destruct (ramp_color (color_ramp R) first second factor) as [c|]; bind_some.
  - rewrite put_bytes_plain by lia.
    destruct (color_bytes c) as [[[vr vg] vb]|] eqn:Hcb; bind_some.
    + destruct (_ <? Z.of_nat (length t)) eqn:Hlen.
      * apply Z.ltb_lt in Hlen. split; [|intros _; eexists; reflexivity].
        intros _. split; [|exact Hlen].
        exists c. split; [reflexivity|]. rewrite Hcb. eexists. reflexivity.
      * apply Z.ltb_ge in Hlen. split; [intros [? ?]; discriminate|].
        intros [_ Hlt]. lia.
    + split; [intros [? ?]; discriminate|].
      intros [(c' & Hc' & [bs Hbs]) _]. congruence.
  - split; [intros [? ?]; discriminate|].
    intros [(c' & Hc' & _) _]. discriminate.
Qed.

Lemma X4_witness :
  is_Some (WritePixel Samples.R2 1 1 (-1) 0 Double.zero Samples.blank) /\
  ~ is_Some (WritePixel Samples.R2 0 2 (-1) 0 Double.zero Samples.blank).
Proof.
  split.
  - apply (X4_WritePixel_defined_iff Samples.R2 2);
      [vm_compute; reflexivity | lia | lia | unfold SIZE_MOD; lia |].
    split; [eexists; split; [reflexivity | vm_compute; eauto] | vm_compute; reflexivity].
  - intros Hdef.
    apply (X4_WritePixel_defined_iff Samples.R2 2) in Hdef as [_ Hlen];
      [| vm_compute; reflexivity | lia | lia | unfold SIZE_MOD; lia].
    vm_compute in Hlen. discriminate.
Defined.

(** ** Negative smoothed counts *)

Lemma rem_negative (n : Z) :
  n <= -1 -> Z.rem n 100 < 0 \/ (Z.rem n 100 = 0 /\ Z.rem (n - 1) 100 < 0).
Proof. intros Hn. Z.quot_rem_to_equations. lia. Qed.

Lemma ramp_at_negative (ramp : list Color) (i : Z) : i < 0 -> ramp_at ramp i = None.
Proof.
  intros Hi. unfold ramp_at. apply Z.leb_gt in Hi. rewrite Hi. reflexivity.
Qed.

(** With [first <= -2] one of the two subscripts of line 164 is negative. *)
Lemma ramp_color_negative (ramp : list Color) (first : Z) (factor : double) :
  first <= -2 -> ramp_color ramp first (first + 1) factor = None.
Proof.
  intros Hf. unfold ramp_color.
  assert ((first =? -1) = false) as -> by (apply Z.eqb_neq; lia).
  change (max_colors * 2) with 100.
  destruct (rem_negative (first + 1)) as [Hs | [Hs Hf']]; [lia | |].
  - rewrite (ramp_at_negative ramp _ Hs). reflexivity.
  - replace (first + 1 - 1) with first in Hf' by lia.
    rewrite (ramp_at_negative ramp _ Hf').
    destruct (ramp_at ramp _); reflexivity.
Qed.

Section NegativeCounts.
Context {lm : LibM}.

(** X5: for an outside pixel whose count [s] casts to [first <= -2] (that
    is, [s <= -2]), line 164 reads [color_ramp] at a negative subscript:
    the behaviour of the loop body is undefined, whatever the ramp and the
    raster. *)
Theorem X5_count_below_minus_two_undefined
    (R : Renderer) (job : Job) (x y : Z) (s : double) (first : Z) (t : raster) :
  kernel R job x y = Some (Outside s) ->
  to_int s = Some first -> first <= -2 ->
  render_pixel R job x y t = None.
Proof.
  intros Hk Hf Hneg. unfold render_pixel. rewrite Hk. bind_some.
  cbn [paint]. rewrite Hf. bind_some.
  apply to_range_Some in Hf as [_ Hr].
  assert (int_add first 1 = Some (first + 1)) as ->.
  { unfold int_add, INT_MIN, INT_MAX in *.
    assert ((- 2 ^ 31 <=? first + 1) && (first + 1 <=? 2 ^ 31 - 1) = true) as ->
      by (apply andb_true_iff; rewrite !Z.leb_le; lia).
    reflexivity. }
  bind_some. unfold WritePixel.
  rewrite ramp_color_negative by exact Hneg.
  destruct (to_size_t (texture_width R)); reflexivity.
Qed.

(** X6: an outside pixel whose count casts to -1 (that is, [-2 < s <= -1])
    is painted exactly as an inside pixel: WritePixel takes [first = -1]
    for its inside marker. *)
Theorem X6_count_minus_one_painted_inside
    (R : Renderer) (x y : Z) (s : double) (t : raster) :
  to_int s = Some (-1) ->
  paint R x y (Outside s) t = paint R x y Inside t.
Proof.
  intros Hf. cbn [paint]. rewrite Hf. bind_some.
  change (int_add (-1) 1) with (Some 0). bind_some.
  unfold WritePixel. rewrite !ramp_color_sentinel. reflexivity.
Qed.

End NegativeCounts.

Section NegativeCountExamples.
#[local] Existing Instance RefLibM.ref_libm.

Lemma X5_witness :
  render_pixel Samples.R2 very_far_job 1 1 Samples.blank = None.
Proof.
  apply (X5_count_below_minus_two_undefined
           Samples.R2 very_far_job 1 1 very_far_s (-2));
    [vm_compute; reflexivity | vm_compute; reflexivity | lia].
Defined.

Lemma X6_witness :
  paint Samples.R2 1 1 (Outside Samples.far_s) Samples.blank
  = Some [7; 7; 7; 7; 7; 7; 7; 7; 7; 0; 0; 0].
Proof.
  rewrite (X6_count_minus_one_painted_inside Samples.R2 1 1 Samples.far_s)
    by (vm_compute; reflexivity).
  vm_compute. reflexivity.
Defined.

End NegativeCountExamples.

(** ** The ramp and the memory it is built in *)

(** X7: the palette loop overwrites every entry: the ramp it builds does
    not depend on what the (uninitialised) array held before. *)
Theorem X7_ramp_independent_of_initial_array
    (ov : sqrt_overload) (init1 init2 : list Color) :
  length init1 = 100%nat -> length init2 = 100%nat ->
  build_ramp ov init1 = build_ramp ov init2 /\ is_Some (build_ramp ov init1).
Proof.
  intros H1 H2.
  destruct (build_ramp_filled ov init1 H1) as (r1 & B1 & L1 & F1).
  destruct (build_ramp_filled ov init2 H2) as (r2 & B2 & L2 & F2).
  rewrite B1, B2. split; [|eauto]. f_equal.
  apply list_eq. intros k.
  destruct (Nat.lt_ge_cases k 100) as [Hk | Hk].
  - destruct (Z_lt_le_dec (Z.of_nat k) 50) as [Hlo | Hhi].
    + destruct (F1 (Z.of_nat k)) as [E1 _]; [lia|].
      destruct (F2 (Z.of_nat k)) as [E2 _]; [lia|].
      rewrite Nat2Z.id in E1, E2. congruence.
    + destruct (F1 (99 - Z.of_nat k)) as [_ E1]; [lia|].
      destruct (F2 (99 - Z.of_nat k)) as [_ E2]; [lia|].
      replace (Z.to_nat (99 - (99 - Z.of_nat k))) with k in E1, E2 by lia.
      congruence.
  - rewrite !lookup_ge_None_2 by lia. reflexivity.
Qed.

Lemma X7_witness :
  build_ramp SqrtFloat (replicate 100 (mkColor Double.nan Double.nan Double.nan))
  = Some Samples.ramp.
Proof.
  destruct (X7_ramp_independent_of_initial_array SqrtFloat
              (replicate 100 (mkColor Double.nan Double.nan Double.nan))
              (replicate 100 black)) as [Heq [r Hr]];
    [reflexivity | reflexivity |].
  rewrite Heq in *. unfold Samples.ramp. rewrite Hr. reflexivity.
Defined.

(** ** Bands *)

Lemma for_each_ext {A : Type} (l : list Z) (f g : Z -> A -> option A) :
  (forall v a, f v a = g v a) -> forall a, for_each l f a = for_each l g a.
Proof.
  intros Hfg. induction l as [|v l IH]; intros a; cbn [for_each]; [reflexivity|].
  rewrite Hfg. destruct (g v a); bind_some; [apply IH | reflexivity].
Qed.

Lemma for_each_unchanged {A : Type} (l : list Z) (f : Z -> A -> option A) (a : A) :
  (forall v, f v a = Some a) -> for_each l f a = Some a.
Proof.
  intros Hf. induction l as [|v l IH]; cbn [for_each]; [reflexivity|].
  rewrite Hf. bind_some. exact IH.
Qed.

Section BandFacts.
Context {lm : LibM}.

(** X8: a job whose band is empty (a count of 0, or a sum
    [y_start + y_count] that wraps around to at most [y_start]) and any job
    on a raster of width 0 leave the raster as it is. *)
Theorem X8_empty_band_writes_nothing (R : Renderer) (job : Job) (t : raster) :
  job_end job <= y_start job \/ to_size_t (texture_width R) = Some 0 ->
  run_job R job t = Some t.
Proof.
  intros [Hrows | HW]; unfold run_job.
  - unfold job_rows. rewrite seqZ_nil by lia. reflexivity.
  - apply for_each_unchanged. intros y. unfold render_row. rewrite HW.
    reflexivity.
Qed.

Lemma render_row_viewport (R : Renderer) (job job' : Job) (y : Z) (t : raster) :
  scale job = scale job' -> offset job = offset job' ->
  render_row R job y t = render_row R job' y t.
Proof.
  intros Hs Ho. unfold render_row.
  destruct (to_size_t (texture_width R)) as [W|]; bind_some; [|reflexivity].
  apply for_each_ext. intros x a. apply render_pixel_viewport; assumption.
Qed.

(** Consecutive bands run one after the other are one loop over their
    rows. *)
Lemma bands_rows (R : Renderer) (job' : Job) (counts : list Z) :
  Forall (fun n => 0 <= n) counts ->
  forall y0 t,
    0 <= y0 -> y0 + total counts < SIZE_MOD ->
    run_jobs R (bands y0 counts (scale job') (offset job')) t =
    for_each (seqZ y0 (total counts)) (render_row R job') t.
Proof.
  intros Hall. induction Hall as [|n counts Hn Hall IH]; intros y0 t Hy0 Hend.
  - reflexivity.
  - cbn [bands run_jobs total foldr] in *. fold (total counts) in *.
    pose proof (total_nonneg counts Hall) as Htot.
    rewrite seqZ_app, for_each_app by lia.
    unfold run_job at 1, job_rows, job_end. cbn [y_start y_count].
    rewrite size_wrap_small by lia.
    replace (y0 + n - y0) with n by lia.
    rewrite (for_each_ext _ _ (render_row R job'))
      by (intros v a; apply render_row_viewport; reflexivity).
    destruct (for_each _ (render_row R job') t) as [t1|]; bind_some; [|reflexivity].
    apply IH; lia.
Qed.

(** X10: the two jobs [Application::run] gives its workers, run one after
    the other, render the whole frame: the same raster as one job for the
    rows [0, H). *)
Theorem X10_two_jobs_render_the_frame (R : Renderer) (H : Z) (t : raster) :
  0 <= H < SIZE_MOD ->
  run_jobs R [first_job H; second_job H] t =
  run_job R (mkJob 0 H two app_offset) t.
Proof.
  intros HH. destruct (half_height H HH) as (E1 & B & E2).
  assert (Hjobs : [first_job H; second_job H] =
                  bands 0 [H / 2; H - H / 2] two app_offset).
  { unfold first_job, second_job. cbn [bands]. rewrite E1, E2, Z.add_0_l.
    reflexivity. }
  rewrite Hjobs.
  rewrite (bands_rows R (mkJob 0 H two app_offset));
    [| repeat constructor; lia | lia | cbn [total foldr]; lia].
  unfold run_job, job_rows, job_end. cbn [y_start y_count total foldr].
  rewrite Z.add_0_l, size_wrap_small by lia.
  do 2 f_equal; lia.
Qed.

End BandFacts.

Section BandExamples.
#[local] Existing Instance RefLibM.ref_libm.

Lemma X8_witness :
  run_job Samples.R2 (mkJob 1 0 two app_offset) Samples.blank = Some Samples.blank /\
  run_job Samples.R2 (mkJob (SIZE_MOD - 1) 2 two app_offset) Samples.blank
  = Some Samples.blank.
Proof.
  split; apply X8_empty_band_writes_nothing; left; vm_compute; discriminate.
Defined.

Lemma X10_witness :
  run_jobs Samples.R2 [first_job 2; second_job 2] Samples.blank =
  run_job Samples.R2 (mkJob 0 2 two app_offset) Samples.blank.
Proof. apply X10_two_jobs_render_the_frame. unfold SIZE_MOD. lia. Defined.

End BandExamples.

(** ** A band job writes only the bytes of its rows *)

Lemma write3_lookup_outside (o vr vg vb : Z) (t : raster) (k : nat) :
  0 <= o -> Z.of_nat k < o * 3 \/ o * 3 + 2 < Z.of_nat k ->
  write3 o vr vg vb t !! k = t !! k.
Proof.
  intros Ho Hk. unfold write3.
  rewrite !list_lookup_insert_ne by lia. reflexivity.
Qed.

Lemma put_bytes_frame (o : Z) (c : Color) (t t' : raster) :
  0 <= o -> o * 3 + 2 < SIZE_MOD ->
  put_bytes o c t = Some t' ->
  length t' = length t /\
  forall k : nat, Z.of_nat k < o * 3 \/ o * 3 + 2 < Z.of_nat k -> t' !! k = t !! k.
Proof.
  intros Ho Hw Hp. rewrite put_bytes_plain in Hp by assumption.
  destruct (color_bytes c) as [[[vr vg] vb]|]; [|discriminate].
  cbn [mbind option_bind] in Hp.
  destruct (_ <? Z.of_nat (length t)); [|discriminate].
  injection Hp as <-. split; [apply write3_length|].
  intros k Hk. apply write3_lookup_outside; assumption.
Qed.

Section BandFrame.
Context {lm : LibM}.

Lemma render_pixels_frame (R : Renderer) (job : Job) (W lo hi : Z)
    (l : list (Z * Z)) :
  to_size_t (texture_width R) = Some W ->
  Forall (pixel_within W lo hi) l ->
  forall t t',
    render_pixels R job l t = Some t' ->
    length t' = length t /\
    forall k : nat, Z.of_nat k < lo \/ hi <= Z.of_nat k -> t' !! k = t !! k.
Proof.
  intros HW Hall. induction Hall as [|[x y] l Hp Hall IH]; intros t t' Hr.
  - injection Hr as <-. split; [reflexivity | intros; reflexivity].
  - cbn [render_pixels] in Hr.
    destruct (render_pixel R job x y t) as [t1|] eqn:Hpx; [|discriminate].
    cbn [mbind option_bind] in Hr.
    destruct (IH t1 t' Hr) as [Hlen Hsame].
    destruct Hp as (Hplain & Hlo & Hhi). cbn [fst snd] in Hlo, Hhi.
    destruct (plain_offset W x y Hplain) as [Eo No].
    destruct Hplain as (_ & _ & Hwrap). cbn [fst snd] in Hwrap.
    rewrite (render_pixel_known R job W x y t HW), Eo in Hpx.
    destruct (pixel_color R job x y) as [c|]; [|discriminate].
    destruct (put_bytes_frame _ c t t1 No Hwrap Hpx) as [Hlen1 Hsame1].
    split; [congruence|].
    intros k Hk. rewrite (Hsame k Hk). apply Hsame1. lia.
Qed.

(** X9: a band job keeps the size of the raster and changes no byte outside
    the rows of its band: the bytes before row [y_start] and from row
    [y_start + y_count] on are as they were. *)
Theorem X9_band_job_writes_only_its_rows
    (R : Renderer) (job : Job) (W : Z) (t t' : raster) :
  to_size_t (texture_width R) = Some W ->
  0 <= y_start job ->
  job_end job * W * 3 <= SIZE_MOD ->
  run_job R job t = Some t' ->
  length t' = length t /\
  forall k : nat,
    Z.of_nat k < y_start job * W * 3 \/ job_end job * W * 3 <= Z.of_nat k ->
    t' !! k = t !! k.
Proof.
  intros HW Hys Hsz Hrun.
  rewrite (run_job_pixels R job W t HW) in Hrun.
  apply (render_pixels_frame R job W (y_start job * W * 3) (job_end job * W * 3)
           _ HW) in Hrun; [exact Hrun|].
  apply Forall_forall. intros [x y] Hin.
  apply elem_of_all_pixels in Hin as [Hy Hx].
  unfold job_rows in Hy. apply elem_of_seqZ in Hy.
  unfold pixel_within, plain_pixel. cbn [fst snd].
  repeat split; try lia; nia.
Qed.

End BandFrame.

Section BandFrameExample.
#[local] Existing Instance RefLibM.ref_libm.

Lemma X9_witness :
  run_job Samples.R2 Samples.job_B Samples.blank
  = Some [128; 16; 119; 127; 15; 119; 7; 7; 7; 7; 7; 7] /\
  forall k : nat, 6 <= Z.of_nat k ->
    [128; 16; 119; 127; 15; 119; 7; 7; 7; 7; 7; 7] !! k = Samples.blank !! k.
Proof.
  assert (Hrun : run_job Samples.R2 Samples.job_B Samples.blank
                 = Some [128; 16; 119; 127; 15; 119; 7; 7; 7; 7; 7; 7])
    by (vm_compute; reflexivity).
  split; [exact Hrun|].
  destruct (X9_band_job_writes_only_its_rows Samples.R2 Samples.job_B 2
              Samples.blank [128; 16; 119; 127; 15; 119; 7; 7; 7; 7; 7; 7])
    as [_ Hk];
    [vm_compute; reflexivity | vm_compute; discriminate
    | vm_compute; discriminate | exact Hrun |].
  intros k Hk6. apply Hk. right. vm_compute. vm_compute in Hk6. exact Hk6.
Defined.

End BandFrameExample.

(** ** The worker renders its band and sets the flag *)

Section WorkerRuns.
Context {lm : LibM}.
Variable R : Renderer.

Lemma run_app (es1 es2 : list event) (s : state) :
  run R (es1 ++ es2) s = s' ← run R es1 s; run R es2 s'.
Proof.
  revert s. induction es1 as [|e es1 IH]; intros s; cbn [run app].
  - reflexivity.
  - destruct (step R e s); bind_some; [apply IH | reflexivity].
Qed.

(** The inner loop from column [x]: one step per pixel and the test that
    ends it. *)
Lemma work_columns (job : Job) (rn : bool) (cons : consumer_pc) (W y : Z) (n : nat) :
  to_size_t (texture_width R) = Some W ->
  forall (x : Z) (t t' : raster) (wr : list (Z * Z)),
    0 <= x -> x + Z.of_nat n = W ->
    for_each (seqZ x (Z.of_nat n)) (fun x' => render_pixel R job x' y) t = Some t' ->
    run R (replicate (S n) Work) (mkState job false rn t (AtPixel y x) cons wr)
    = Some (mkState job false rn t' (AtRow (size_wrap (y + 1))) cons
              (rev (row_pixels_of y (seqZ x (Z.of_nat n))) ++ wr)).
Proof.
  intros HW. pose proof (to_size_t_nonneg _ _ HW) as HWr.
  induction n as [|n IH]; intros x t t' wr Hx Hn Hfor.
  - cbn [replicate run step work worker]. rewrite HW. bind_some.
    assert ((x <? W) = false) as -> by (apply Z.ltb_ge; lia).
    cbn in Hfor. injection Hfor as <-. reflexivity.
  - rewrite seqZ_cons in Hfor |- * by lia.
    cbn [for_each] in Hfor.
    destruct (render_pixel R job x y t) as [t1|] eqn:Hpx; [|discriminate].
    cbn [mbind option_bind] in Hfor.
    change (replicate (S (S n)) Work) with (Work :: replicate (S n) Work).
    cbn [run step work worker]. rewrite HW. bind_some.
    assert ((x <? W) = true) as -> by (apply Z.ltb_lt; lia).
    cbn [current_job texture_data job_done running consumer written].
    rewrite Hpx. bind_some.
    rewrite size_wrap_small by lia.
    replace (Z.pred (Z.of_nat (S n))) with (Z.of_nat n) in * by lia.
    replace (Z.succ x) with (x + 1) in * by lia.
    rewrite (IH (x + 1) t1 t' ((x, y) :: wr)) by (try assumption; lia).
    cbn [row_pixels_of map rev]. rewrite <- app_assoc. reflexivity.
Qed.

(** The outer loop from row [y]: per row the two tests and the pixels, and
    the test that ends it. *)
Lemma work_rows (job : Job) (rn : bool) (cons : consumer_pc) (W : Z) (m : nat) :
  to_size_t (texture_width R) = Some W ->
  forall (y : Z) (t t' : raster) (wr : list (Z * Z)),
    0 <= y -> m = Z.to_nat (job_end job - y) ->
    for_each (seqZ y (Z.of_nat m)) (render_row R job) t = Some t' ->
    run R (replicate (S (m * (Z.to_nat W + 2))) Work)
        (mkState job false rn t (AtRow y) cons wr)
    = Some (mkState job false rn t' AtBandEnd cons
              (rev (all_pixels W (seqZ y (Z.of_nat m))) ++ wr)).
Proof.
  intros HW. pose proof (to_size_t_nonneg _ _ HW) as HWr.
  pose proof (size_wrap_range (y_start job + y_count job)) as Hend.
  fold (job_end job) in Hend.
  induction m as [|m IH]; intros y t t' wr Hy Hm Hfor.
  - cbn [Nat.mul replicate run step work worker current_job].
    assert ((y <? job_end job) = false) as -> by (apply Z.ltb_ge; lia).
    cbn in Hfor. injection Hfor as <-. reflexivity.
  - rewrite seqZ_cons in Hfor |- * by lia.
    cbn [for_each] in Hfor.
    destruct (render_row R job y t) as [t1|] eqn:Hrow; [|discriminate].
    cbn [mbind option_bind] in Hfor.
    replace (Z.pred (Z.of_nat (S m))) with (Z.of_nat m) in * by lia.
    replace (Z.succ y) with (y + 1) in * by lia.
    replace (S (S m * (Z.to_nat W + 2)))
      with (1 + (S (Z.to_nat W) + S (m * (Z.to_nat W + 2))))%nat by lia.
    rewrite !replicate_add, !run_app.
    set (cols := replicate (S (Z.to_nat W)) Work).
    set (rest := replicate (S (m * (Z.to_nat W + 2))) Work).
    cbn [replicate run step work worker current_job].
    assert ((y <? job_end job) = true) as -> by (apply Z.ltb_lt; lia).
    bind_some. unfold set_worker.
    cbn [current_job texture_data job_done running consumer written].
    subst cols rest.
    unfold render_row in Hrow. rewrite HW in Hrow.
    cbn [mbind option_bind] in Hrow.
    rewrite run_app.
    rewrite (work_columns job rn cons W y (Z.to_nat W) HW 0 t t1 wr)
      by (try lia; rewrite Z2Nat.id by lia; exact Hrow).
    bind_some. rewrite size_wrap_small by lia.
    rewrite (IH (y + 1) t1 t') by (try assumption; lia).
    unfold all_pixels. cbn [map concat]. fold (all_pixels W (seqZ (y + 1) (Z.of_nat m))).
    rewrite rev_app_distr, <- app_assoc. rewrite Z2Nat.id by lia. reflexivity.
Qed.

(** X11: a worker that is at the top of its loop with a job pending
    renders the band and sets the flag, whatever the value of [running]:
    after [3 + rows * (W + 2)] steps it is at the test of [running] with
    [job_done] true and the raster [run_job] gives, having written the
    pixels of the band in the order of the two loops. *)
Theorem X11_worker_renders_the_band
    (job : Job) (rn : bool) (cons : consumer_pc) (W : Z)
    (t t' : raster) (wr : list (Z * Z)) :
  to_size_t (texture_width R) = Some W ->
  0 <= y_start job ->
  run_job R job t = Some t' ->
  run R (replicate (band_steps (Z.to_nat (job_end job - y_start job)) (Z.to_nat W)) Work)
      (mkState job false rn t AtDo cons wr)
  = Some (mkState job true rn t' AtWhile cons
            (rev (all_pixels W (job_rows job)) ++ wr)).
Proof.
  intros HW Hys Hrun. unfold band_steps.
  set (m := Z.to_nat (job_end job - y_start job)).
  replace (3 + m * (Z.to_nat W + 2))%nat
    with (1 + (S (m * (Z.to_nat W + 2)) + 1))%nat by lia.
  rewrite !replicate_add, !run_app.
  set (band := replicate (S (m * (Z.to_nat W + 2))) Work).
  cbn [replicate run step work worker job_done]. bind_some.
  unfold set_worker.
  cbn [current_job texture_data job_done running consumer written].
  subst band. rewrite run_app.
  unfold run_job, job_rows in Hrun.
  assert (Hrows : seqZ (y_start job) (job_end job - y_start job) =
                  seqZ (y_start job) (Z.of_nat m)).
  { destruct (Z_lt_le_dec (job_end job - y_start job) 0) as [Hneg | Hpos].
    - rewrite !seqZ_nil by lia. reflexivity.
    - unfold m. rewrite Z2Nat.id by lia. reflexivity. }
  unfold job_rows. rewrite Hrows in Hrun |- *.
  rewrite (work_rows job rn cons W m HW (y_start job) t t' wr Hys eq_refl Hrun).
  reflexivity.
Qed.

End WorkerRuns.

Section WorkerRunExample.
#[local] Existing Instance RefLibM.ref_libm.

Lemma X11_witness :
  run Samples.R2 (replicate 7 Work)
      (mkState Samples.job_B false true Samples.blank AtDo Idle [])
  = Some (mkState Samples.job_B true true
            [128; 16; 119; 127; 15; 119; 7; 7; 7; 7; 7; 7]
            AtWhile Idle [(1, 0); (0, 0)]).
Proof.
  apply (X11_worker_renders_the_band Samples.R2 Samples.job_B true Idle 2
           Samples.blank [128; 16; 119; 127; 15; 119; 7; 7; 7; 7; 7; 7] []);
    [vm_compute; reflexivity | vm_compute; discriminate | vm_compute; reflexivity].
Defined.

End WorkerRunExample.

(** ** stop, and the raster while the flag is set *)

Section StopFacts.
Context {lm : LibM}.
Variable R : Renderer.

Lemma work_fields (s s' : state) :
  work R s = Some s' ->
  running s' = running s /\ current_job s' = current_job s /\
  consumer s' = consumer s.
Proof.
  unfold work. intros Hw.
  destruct (worker s) as [| |_y|_y _x| | |]; try discriminate.
  - destruct (job_done s); injection Hw as <-; auto.
  - destruct (_y <? _); injection Hw as <-; auto.
  - destruct (to_size_t (texture_width R)) as [W|]; [|discriminate].
    cbn [mbind option_bind] in Hw.
    destruct (_x <? W).
    + destruct (render_pixel R _ _x _y _); [|discriminate].
      injection Hw as <-. auto.
    + injection Hw as <-. auto.
  - injection Hw as <-. auto.
  - injection Hw as <-. auto.
Qed.

Lemma exit_needs_stop_step (e : event) (s s' : state) :
  (worker s = Exited -> running s = false) ->
  step R e s = Some s' ->
  worker s' = Exited -> running s' = false.
Proof.
  intros Hinv Hstep Hex. destruct e; cbn [step] in Hstep.
  - destruct (consumer s); [|discriminate]. injection Hstep as <-.
    cbn in *. auto.
  - destruct (consumer s); [discriminate|]. injection Hstep as <-.
    cbn in *. auto.
  - injection Hstep as <-. reflexivity.
  - destruct (worker s); try discriminate. injection Hstep as <-.
    cbn in Hex. discriminate.
  - unfold work in Hstep.
    destruct (worker s) as [| |_y|_y _x| | |] eqn:Hpc; try discriminate.
    + destruct (job_done s); injection Hstep as <-; cbn in Hex; discriminate.
    + destruct (_y <? _); injection Hstep as <-; cbn in Hex; discriminate.
    + destruct (to_size_t (texture_width R)) as [W|]; [|discriminate].
      cbn [mbind option_bind] in Hstep.
      destruct (_x <? W).
      * destruct (render_pixel R _ _x _y _); [|discriminate].
        injection Hstep as <-. cbn in Hex. discriminate.
      * injection Hstep as <-. cbn in Hex. discriminate.
    + injection Hstep as <-. cbn in Hex. discriminate.
    + injection Hstep as <-. cbn in *.
      destruct (running s); [discriminate | reflexivity].
Qed.

Lemma exited_is_final (e : event) (s s' : state) :
  worker s = Exited -> step R e s = Some s' ->
  worker s' = Exited /\ texture_data s' = texture_data s.
Proof.
  intros Hex Hstep. destruct e; cbn [step] in Hstep.
  - destruct (consumer s); [|discriminate]. injection Hstep as <-. auto.
  - destruct (consumer s); [discriminate|]. injection Hstep as <-. auto.
  - injection Hstep as <-. auto.
  - rewrite Hex in Hstep. discriminate.
  - unfold work in Hstep. rewrite Hex in Hstep. discriminate.
Qed.

(** X12: the worker thread ends only after [stop()]: in every run from the
    constructed state, a worker that has left [operator()] has [running]
    false; and once it has left, no call changes the raster any more. *)
Theorem X12_worker_exits_only_after_stop
    (garbage : Job) (t : raster) (es : list event) (s : state) :
  run R es (constructed garbage t) = Some s ->
  (worker s = Exited -> running s = false) /\
  (worker s = Exited ->
   forall es' s', run R es' s = Some s' ->
                  worker s' = Exited /\ texture_data s' = texture_data s).
Proof.
  intros Hrun. split.
  - assert (Hgen : forall es s0 s1,
               (worker s0 = Exited -> running s0 = false) ->
               run R es s0 = Some s1 ->
               worker s1 = Exited -> running s1 = false).
    { clear. intros es. induction es as [|e es IH]; intros s0 s1 H0 Hr.
      - injection Hr as <-. exact H0.
      - cbn [run] in Hr. destruct (step R e s0) as [s2|] eqn:Hs; [|discriminate].
        apply (IH s2 s1); [|exact Hr].
        apply (exit_needs_stop_step e s0 s2 H0 Hs). }
    apply (Hgen es (constructed garbage t) s); [discriminate | exact Hrun].
  - intros Hex es'. clear Hrun. revert s Hex.
    induction es' as [|e es' IH]; intros s Hex s' Hr.
    + injection Hr as <-. auto.
    + cbn [run] in Hr. destruct (step R e s) as [s2|] eqn:Hs; [|discriminate].
      destruct (exited_is_final e s s2 Hex Hs) as [Hex2 Ht2].
      destruct (IH s2 Hex2 s' Hr) as [Hex' Ht']. split; congruence.
Qed.

Lemma polling_step (e : event) (s s' : state) :
  polling s -> job_done s = true -> e <> SetJobClear ->
  step R e s = Some s' ->
  polling s' /\ job_done s' = true /\ texture_data s' = texture_data s.
Proof.
  unfold polling. intros Hp Hd Hne Hstep. destruct e; cbn [step] in Hstep.
  - destruct (consumer s); [|discriminate]. injection Hstep as <-. auto.
  - contradiction.
  - injection Hstep as <-. auto.
  - destruct (worker s); try discriminate; contradiction.
  - unfold work in Hstep.
    destruct (worker s) as [| |_y|_y _x| | |]; try contradiction;
      try discriminate.
    + rewrite Hd in Hstep. injection Hstep as <-. cbn. auto.
    + injection Hstep as <-. cbn. destruct (running s); auto.
Qed.

(** X13: while [job_done] is set the worker only polls: from a state of a
    gated run in which the flag is true, no sequence of calls and worker
    steps changes the raster or the flag until [setJob] clears it (line
    55). The consumer can read the raster it was told is done. *)
Theorem X13_raster_stable_while_done
    (garbage : Job) (t : raster) (s : state) (es : list event) (s' : state) :
  job_wf garbage ->
  gated_run R (constructed garbage t) s ->
  job_done s = true ->
  Forall (fun e => e <> SetJobClear) es ->
  run R es s = Some s' ->
  texture_data s' = texture_data s /\ job_done s' = true.
Proof.
  intros Hwf Hrun Hd Hes Hr.
  pose proof (inv_gated_run R garbage t s Hwf Hrun) as [_ Hinv].
  assert (Hp : polling s).
  { unfold polling. destruct (worker s) as [| |_y|_y _x| | |]; try exact I.
    - congruence.
    - destruct Hinv as [Hf _]. congruence.
    - destruct Hinv as [Hf _]. congruence.
    - destruct Hinv as [Hf _]. congruence. }
  clear Hinv Hrun Hwf. revert s Hd Hp Hr.
  induction Hes as [|e es He Hes IH]; intros s Hd Hp Hr.
  - injection Hr as <-. auto.
  - cbn [run] in Hr. destruct (step R e s) as [s2|] eqn:Hs; [|discriminate].
    destruct (polling_step e s s2 Hp Hd He Hs) as (Hp2 & Hd2 & Ht2).
    destruct (IH s2 Hd2 Hp2 Hr) as [Ht' Hd']. split; congruence.
Qed.

End StopFacts.

Section StopExamples.
#[local] Existing Instance RefLibM.ref_libm.

Lemma X12_witness :
  exists s,
    run Samples.R2 (Samples.one_job ++ [Stop; Work])
        (constructed Samples.job_B Samples.blank) = Some s /\
    worker s = Exited /\ running s = false.
Proof.
  eexists. split; [vm_compute; reflexivity|]. split; [reflexivity|].
  eapply (X12_worker_exits_only_after_stop Samples.R2 Samples.job_B Samples.blank
            (Samples.one_job ++ [Stop; Work])).
  - vm_compute. reflexivity.
  - reflexivity.
Defined.

Lemma X13_witness :
  exists s s',
    run Samples.R2 Samples.one_job (constructed Samples.job_B Samples.blank)
    = Some s /\
    run Samples.R2 [Work; Work; Stop; SetJobAssign Samples.job_B; Work] s = Some s' /\
    texture_data s' = texture_data s /\ job_done s' = true.
Proof.
  eexists. eexists. split; [vm_compute; reflexivity|].
  split; [vm_compute; reflexivity|].
  eapply (X13_raster_stable_while_done Samples.R2 Samples.job_B Samples.blank _
            [Work; Work; Stop; SetJobAssign Samples.job_B; Work]).
  - unfold job_wf, SIZE_MOD. cbn. lia.
  - apply (run_gated_sound Samples.R2 Samples.one_job _ _ _ (gated_nil _ _)).
    vm_compute. reflexivity.
  - reflexivity.
  - repeat constructor; discriminate.
  - vm_compute. reflexivity.
Defined.

End StopExamples.

(** ** The jobs of every frame *)

Lemma zoom_not_below_floor (elapsed sc : double) :
  (zoom elapsed sc <? scale_floor)%D = false.
Proof.
  unfold zoom.
  destruct (one / (elapsed * (one / sc)) <? scale_floor)%D eqn:Hlt;
    [reflexivity | exact Hlt].
Qed.

(** After any number of frames the two jobs are still the two bands of the
    window, with the offset of the first frame and one common scale. *)
Lemma jobs_after_bands (H : Z) (es : list double) :
  exists sc,
    jobs_after H es =
      (with_scale sc (first_job H), with_scale sc (second_job H)) /\
    (es <> [] -> (sc <? scale_floor)%D = false).
Proof.
  induction es as [|e es IH] using rev_ind.
  - exists two. split; [reflexivity | congruence].
  - destruct IH as (sc & Hj & _). unfold jobs_after in *.
    rewrite foldl_app. cbn [foldl]. rewrite Hj.
    exists (zoom e sc). split; [reflexivity|].
    intros _. apply zoom_not_below_floor.
Qed.

Section FrameFacts.
Context {lm : LibM}.

(** X14: in every frame the two jobs (lines 262-268) differ from those of
    the first frame only by their scale, which is the same for both and,
    once updated, never compares below [0.00000000001]; run one after the
    other they render the whole frame at that one viewport. *)
Theorem X14_every_frame_is_two_bands_one_viewport
    (R : Renderer) (H : Z) (es : list double) (t : raster) :
  0 <= H < SIZE_MOD ->
  exists sc,
    jobs_after H es =
      (with_scale sc (first_job H), with_scale sc (second_job H)) /\
    (es <> [] -> (sc <? scale_floor)%D = false) /\
    run_jobs R [fst (jobs_after H es); snd (jobs_after H es)] t =
    run_job R (mkJob 0 H sc app_offset) t.
Proof.
  intros HH. destruct (jobs_after_bands H es) as (sc & Hj & Hfloor).
  exists sc. split; [exact Hj|]. split; [exact Hfloor|].
  rewrite Hj. cbn [fst snd].
  destruct (half_height H HH) as (E1 & B & E2).
  assert (Hjobs : [with_scale sc (first_job H); with_scale sc (second_job H)] =
                  bands 0 [H / 2; H - H / 2] sc app_offset).
  { unfold with_scale, first_job, second_job. cbn [bands y_start y_count offset].
    rewrite E1, E2, Z.add_0_l. reflexivity. }
  rewrite Hjobs.
  rewrite (bands_rows R (mkJob 0 H sc app_offset));
    [| repeat constructor; lia | lia | cbn [total foldr]; lia].
  unfold run_job, job_rows, job_end. cbn [y_start y_count total foldr].
  rewrite Z.add_0_l, size_wrap_small by lia.
  do 2 f_equal; lia.
Qed.

End FrameFacts.

Section FrameExample.
#[local] Existing Instance RefLibM.ref_libm.

Lemma X14_witness :
  exists sc,
    jobs_after 2 [elapsed_factor (of_int 10); elapsed_factor (of_int 20)]
    = (with_scale sc (first_job 2), with_scale sc (second_job 2)) /\
    (sc <? two)%D = true /\ (sc <? scale_floor)%D = false.
Proof.
  destruct (X14_every_frame_is_two_bands_one_viewport Samples.R2 2
              [elapsed_factor (of_int 10); elapsed_factor (of_int 20)]
              Samples.blank) as (sc & Hj & Hfloor & _);
    [unfold SIZE_MOD; lia|].
  exists sc. split; [exact Hj|]. split; [|apply Hfloor; discriminate].
  assert (Hs : scale (fst (jobs_after 2
             [elapsed_factor (of_int 10); elapsed_factor (of_int 20)])) = sc)
    by (rewrite Hj; reflexivity).
  rewrite <- Hs. vm_compute. reflexivity.
Defined.

End FrameExample.

(** ** The two workers on the shared raster *)

Section TwoWorkerFacts.
Context {lm : LibM}.
Variable R : Renderer.
Variables H W : Z.
Hypothesis HW : to_size_t (texture_width R) = Some W.
Hypothesis HH : 0 <= H < SIZE_MOD.

Lemma band_shape (w : who) (sc : double) :
  0 <= y_start (band w H sc) <= job_end (band w H sc) /\
  scale (band w H sc) = sc /\ offset (band w H sc) = app_offset.
Proof.
  destruct (half_height H HH) as (Hh & Hr & Hc).
  destruct w; unfold band, with_scale, first_job, second_job, job_end;
    cbn [y_start y_count scale offset]; rewrite ?Hh, ?Hc.
  - rewrite size_wrap_small by lia. split; [lia | auto].
  - replace (H / 2 + (H - H / 2)) with H by lia.
    rewrite size_wrap_small by lia. split; [lia | auto].
Qed.

Lemma band_rows_whole (sc : double) :
  all_pixels W (job_rows (band Worker1 H sc)) ++
  all_pixels W (job_rows (band Worker2 H sc)) = all_pixels W (seqZ 0 H).
Proof.
  destruct (half_height H HH) as (Hh & Hr & Hc).
  change (job_rows (band Worker1 H sc)) with (job_rows (first_job H)).
  change (job_rows (band Worker2 H sc)) with (job_rows (second_job H)).
  rewrite first_job_rows, second_job_rows by exact HH.
  rewrite <- all_pixels_app. f_equal.
  replace (seqZ 0 H) with (seqZ 0 (H / 2 + (H - H / 2))) by (f_equal; lia).
  rewrite seqZ_app by lia. reflexivity.
Qed.

Lemma all_pixels_snoc (ys n : Z) :
  0 <= n ->
  all_pixels W (seqZ ys (n + 1)) =
  all_pixels W (seqZ ys n) ++ row_pixels_of (ys + n) (seqZ 0 W).
Proof.
  intros Hn. rewrite seqZ_app by lia. rewrite all_pixels_app. f_equal.
  unfold all_pixels, row_pixels_of. cbn. apply app_nil_r.
Qed.

Lemma row_pixels_snoc (y x : Z) :
  0 <= x ->
  row_pixels_of y (seqZ 0 (x + 1)) = row_pixels_of y (seqZ 0 x) ++ [(x, y)].
Proof.
  intros Hx. unfold row_pixels_of. rewrite seqZ_app by lia.
  rewrite map_app. reflexivity.
Qed.

Lemma progress_work (job : Job) (s s' : state) (t : raster) :
  0 <= y_start job <= job_end job ->
  progress W job s -> work R (on_raster s t) = Some s' ->
  progress W job s' /\ worker s' <> NotStarted /\
  rev (written s') = rev (written s) ++ writes R s /\
  render_pixels R job (writes R s) t = Some (texture_data s').
Proof.
  destruct (to_size_t_nonneg _ _ HW) as [HW0 HW1].
  assert (Hje : job_end job < SIZE_MOD) by apply size_wrap_range.
  destruct s as [cj jd rn td wk cs wr].
  unfold progress, work, writes, on_raster, set_worker.
  cbn [current_job job_done running texture_data worker consumer written].
  intros Hle [-> Hp] Hw.
  destruct wk as [| |_y|_y _x| | |]; try discriminate.
  - destruct jd; injection Hw as <-;
      cbn [current_job job_done running texture_data worker consumer written];
      rewrite app_nil_r.
    + repeat split; [exact Hp | discriminate].
    + destruct Hp as [[-> [[_ ->]|[Hf _]]]|[Hf _]]; try discriminate.
      repeat split; try lia; try discriminate.
      rewrite Z.sub_diag. reflexivity.
  - destruct Hp as (-> & -> & Hy & Hwr).
    destruct (_y <? job_end job) eqn:Hlt; injection Hw as <-;
      cbn [current_job job_done running texture_data worker consumer written];
      rewrite app_nil_r.
    + apply Z.ltb_lt in Hlt.
      repeat split; try lia; try discriminate;
        [exact Hwr | symmetry; apply app_nil_r].
    + apply Z.ltb_ge in Hlt.
      repeat split; try discriminate.
      rewrite Hwr. unfold job_rows. do 2 f_equal. lia.
  - destruct Hp as (-> & -> & Hy & Hx & Hwr).
    rewrite HW in Hw |- *. bind_some. cbn [mbind option_bind] in Hw.
    destruct (_x <? W) eqn:Hlt.
    + apply Z.ltb_lt in Hlt.
      destruct (render_pixel R job _x _y t) as [t'|] eqn:Hrp; [|discriminate].
      cbn [mbind option_bind] in Hw. injection Hw as <-.
      cbn [current_job job_done running texture_data worker consumer written].
      rewrite size_wrap_small by lia.
      repeat split; try lia; try discriminate.
      * cbn [rev]. rewrite Hwr, row_pixels_snoc by lia.
        rewrite app_assoc. reflexivity.
      * cbn [render_pixels]. rewrite Hrp. reflexivity.
    + apply Z.ltb_ge in Hlt. injection Hw as <-.
      cbn [current_job job_done running texture_data worker consumer written].
      rewrite size_wrap_small by lia.
      repeat split; try lia; try discriminate; [|symmetry; apply app_nil_r].
      assert (_x = W) as -> by lia.
      rewrite Hwr.
      replace (_y + 1 - y_start job) with (_y - y_start job + 1) by lia.
      rewrite all_pixels_snoc by lia.
      replace (y_start job + (_y - y_start job)) with _y by lia.
      reflexivity.
  - destruct Hp as (-> & -> & Hwr). injection Hw as <-.
    cbn [current_job job_done running texture_data worker consumer written].
    rewrite app_nil_r.
    repeat split; try discriminate. right. auto.
  - injection Hw as <-.
    cbn [current_job job_done running texture_data worker consumer written].
    rewrite app_nil_r.
    destruct rn; repeat split; try exact Hp; discriminate.
Qed.

Lemma idle_work (s s' : state) (t : raster) :
  job_done s = true -> polling s ->
  work R (on_raster s t) = Some s' ->
  (job_done s' = true /\ polling s') /\ consumer s' = consumer s /\
  writes R s = [] /\ texture_data s' = t.
Proof.
  destruct s as [cj jd rn td wk cs wr].
  unfold polling, work, writes, on_raster, set_worker.
  cbn [current_job job_done running texture_data worker consumer written].
  intros -> Hp Hw.
  destruct wk as [| |_y|_y _x| | |]; try contradiction; try discriminate.
  - injection Hw as <-. cbn. auto.
  - injection Hw as <-. cbn. destruct rn; cbn; auto.
Qed.

(** One event of one worker keeps what holds of it, and writes to the
    raster the pixel it adds to what the worker has written. *)
Lemma worker_state_step (job : Job) (b : bool) (e : event) (s s' : state)
    (t : raster) :
  0 <= y_start job <= job_end job ->
  call_ok job b e s -> worker_state W job b s ->
  step R e (on_raster s t) = Some s' ->
  let wr := match e with Work => writes R s | _ => [] end in
  worker_state W job (b || is_assign e) s' /\
  since_upload (b || is_assign e) s' = since_upload b s ++ wr /\
  render_pixels R job wr t = Some (texture_data s').
Proof.
  intros Hle Hok [Hns Hst] Hstep. cbv zeta.
  destruct e as [new_job| | | |]; cbn [is_assign]; rewrite ?orb_false_r, ?orb_true_r.
  - (* line 53 *)
    destruct Hok as (-> & -> & Hgate). destruct Hst as [Hc Hidle].
    destruct s as [cj jd rn td wk cs wr0].
    cbn [current_job job_done running texture_data worker consumer written
         step on_raster] in *.
    subst cs. injection Hstep as <-.
    unfold worker_state, progress, since_upload, polling in *.
    cbn [current_job job_done running texture_data worker consumer written] in *.
    repeat split; auto.
    destruct Hidle as [->|[-> Hp]]; [reflexivity|].
    destruct wk; try contradiction; left; auto.
  - (* lines 54-55 *)
    destruct s as [cj jd rn td wk cs wr0].
    cbn [current_job job_done running texture_data worker consumer written
         step on_raster] in *.
    destruct cs; [discriminate|]. injection Hstep as <-.
    destruct b; [|destruct Hst as [Hc _]; discriminate].
    unfold worker_state, progress, since_upload in *.
    cbn [current_job job_done running texture_data worker consumer written] in *.
    rewrite app_nil_r. destruct Hst as [-> Hp].
    repeat split; auto.
    destruct wk as [| |_y|_y _x| | |].
    + exact Hp.
    + destruct Hp as [[-> [[_ Hf]|_]]|(_ & Hf & _)]; try discriminate. auto.
    + destruct Hp as (_ & Hf & _). discriminate.
    + destruct Hp as (_ & Hf & _). discriminate.
    + destruct Hp as (_ & Hf & _). discriminate.
    + destruct Hp as [[-> [[_ Hf]|_]]|(_ & Hf & _)]; try discriminate. auto.
    + destruct Hp as [[-> [[_ Hf]|_]]|(_ & Hf & _)]; try discriminate. auto.
  - (* stop *)
    destruct s as [cj jd rn td wk cs wr0].
    cbn [current_job job_done running texture_data worker consumer written
         step on_raster] in *.
    injection Hstep as <-.
    unfold worker_state, progress, since_upload, polling in *.
    cbn [current_job job_done running texture_data worker consumer written] in *.
    rewrite app_nil_r. repeat split; auto.
  - (* the thread is created *)
    destruct Hok as [-> Hc].
    destruct s as [cj jd rn td wk cs wr0].
    cbn [current_job job_done running texture_data worker consumer written
         step on_raster set_worker] in *.
    destruct wk; try discriminate. injection Hstep as <-.
    unfold worker_state, progress, since_upload in *.
    cbn [current_job job_done running texture_data worker consumer written] in *.
    rewrite app_nil_r. destruct Hst as [-> ->].
    repeat split; try discriminate.
    left. split; [reflexivity|]. left. auto.
  - (* a step of the worker *)
    cbn [step] in Hstep. destruct b.
    + destruct (progress_work job s s' t Hle Hst Hstep) as (Hp & Hn & Hwr & Hr).
      unfold worker_state, since_upload.
      split; [split; [intros Hf; contradiction | exact Hp] |].
      split; [exact Hwr | exact Hr].
    + destruct Hst as [Hc [Hf|[Hd Hp]]].
      { unfold work, on_raster in Hstep. cbn [worker] in Hstep.
        rewrite Hf in Hstep. discriminate. }
      destruct (idle_work s s' t Hd Hp Hstep) as ((Hd' & Hp') & Hc' & Hw & Ht).
      rewrite Hw. unfold worker_state, since_upload. cbn [render_pixels].
      rewrite Ht, Hc'. repeat split; auto.
      intros Hf. unfold polling in Hp'. rewrite Hf in Hp'. contradiction.
Qed.

Lemma frame_inv_step (ev : sys_event) (sys sys' : system) :
  frame_inv R H W sys -> app_calls H ev sys -> sys_step R ev sys = Some sys' ->
  frame_inv R H W sys'.
Proof.
  intros (Hr & Hperm & H1 & H2) Hok Hstep.
  destruct ev as [w e | elapsed].
  - destruct (band_shape w (view sys)) as (Hys & Hsc & Hoff).
    destruct w; cbn [sys_step] in Hstep; cbn [app_calls sub_of renderer_of] in Hok.
    + apply bind_Some in Hstep as (s' & Hs & Hstep). injection Hstep as <-.
      destruct (worker_state_step _ _ _ _ _ _ Hys Hok H1 Hs)
        as (Hst & Hsince & Hwr).
      unfold frame_inv. cbn [renderer1 renderer2 shared view base order sub1 sub2].
      split; [|split; [|split; [exact Hst | exact H2]]].
      * rewrite render_pixels_app, Hr. cbn [mbind option_bind].
        rewrite <- Hwr. apply render_pixels_viewport; [symmetry; exact Hsc | symmetry; exact Hoff].
      * rewrite Hsince, Hperm. rewrite <- !app_assoc.
        apply Permutation_app_head, Permutation_app_comm.
    + apply bind_Some in Hstep as (s' & Hs & Hstep). injection Hstep as <-.
      destruct (worker_state_step _ _ _ _ _ _ Hys Hok H2 Hs)
        as (Hst & Hsince & Hwr).
      unfold frame_inv. cbn [renderer1 renderer2 shared view base order sub1 sub2].
      split; [|split; [|split; [exact H1 | exact Hst]]].
      * rewrite render_pixels_app, Hr. cbn [mbind option_bind].
        rewrite <- Hwr. apply render_pixels_viewport; [symmetry; exact Hsc | symmetry; exact Hoff].
      * rewrite Hsince, Hperm. rewrite <- !app_assoc. reflexivity.
  - cbn [sys_step] in Hstep. injection Hstep as <-.
    destruct Hok as (Hd1 & Hd2 & Hs1 & Hs2).
    rewrite Hs1 in H1. rewrite Hs2 in H2.
    unfold frame_inv. cbn [renderer1 renderer2 shared view base order sub1 sub2].
    assert (Hidle : forall job job' s,
               jobDone s = Some true -> worker_state W job true s ->
               worker_state W job' false s).
    { intros job job' s Hd [Hns Hp]. unfold jobDone in Hd.
      destruct (consumer s) eqn:Hc; [|discriminate]. injection Hd as Hd.
      split; [exact Hns|]. split; [exact Hc|]. right. split; [exact Hd|].
      unfold polling. destruct Hp as [_ Hp].
      destruct (worker s) as [| |_y|_y _x| | |]; auto.
      - specialize (Hns eq_refl). congruence.
      - destruct Hp as (Hf & _). congruence.
      - destruct Hp as (Hf & _). congruence.
      - destruct Hp as (Hf & _). congruence. }
    split; [reflexivity|]. split; [reflexivity|].
    split; [exact (Hidle _ _ _ Hd1 H1) | exact (Hidle _ _ _ Hd2 H2)].
Qed.

Lemma frame_inv_run (garbage1 garbage2 : Job) (t : raster) (sys : system) :
  app_run R H (app_start garbage1 garbage2 t) sys -> frame_inv R H W sys.
Proof.
  induction 1 as [|sys ev sys' _ IH Hok Hstep].
  - unfold frame_inv, app_start, worker_state, constructed.
    cbn [renderer1 renderer2 shared view base order sub1 sub2 since_upload
         render_pixels app worker job_done consumer].
    split; [reflexivity|]. split; [reflexivity|].
    split; (split; [reflexivity|]; split; [reflexivity | left; reflexivity]).
  - exact (frame_inv_step ev sys sys' IH Hok Hstep).
Qed.

(** A worker whose job is done has written its band. *)
Lemma done_band (job : Job) (s : state) :
  worker_state W job true s -> jobDone s = Some true ->
  rev (written s) = all_pixels W (job_rows job).
Proof.
  intros [Hns [_ Hp]] Hd. unfold jobDone in Hd.
  destruct (consumer s) eqn:Hc; [|discriminate]. injection Hd as Hd.
  destruct (worker s) as [| |_y|_y _x| | |].
  - specialize (Hns eq_refl). congruence.
  - destruct Hp as [[_ [[Hf _]|[_ Hf]]]|(_ & _ & Hwr)]; congruence.
  - destruct Hp as (Hf & _). congruence.
  - destruct Hp as (Hf & _). congruence.
  - destruct Hp as (Hf & _). congruence.
  - destruct Hp as [[_ [[Hf _]|[_ Hf]]]|(_ & _ & Hwr)]; congruence.
  - destruct Hp as [[_ [[Hf _]|[_ Hf]]]|(_ & _ & Hwr)]; congruence.
Qed.

Lemma app_trace_run (evs : list sys_event) (sys0 sys sys' : system) :
  app_run R H sys0 sys -> app_trace R H evs sys -> sys_run R evs sys = Some sys' ->
  app_run R H sys0 sys'.
Proof.
  revert sys. induction evs as [|ev evs IH]; intros sys Hrun Htr Hsr.
  - injection Hsr as <-. exact Hrun.
  - cbn [app_trace] in Htr. cbn [sys_run] in Hsr. destruct Htr as [Hok Htr].
    destruct (sys_step R ev sys) as [sys1|] eqn:Hs; [|contradiction].
    cbn [mbind option_bind] in Hsr.
    apply (IH sys1); [|exact Htr|exact Hsr].
    exact (app_snoc R H sys0 sys ev sys1 Hrun Hok Hs).
Qed.

(** What a worker has written is the beginning of its band. *)
Lemma progress_prefix (job : Job) (s : state) :
  0 <= y_start job <= job_end job ->
  progress W job s ->
  exists rest, rev (written s) ++ rest = all_pixels W (job_rows job).
Proof.
  destruct (to_size_t_nonneg _ _ HW) as [HW0 HW1].
  intros Hle [_ Hp]. unfold job_rows.
  destruct (worker s) as [| |_y|_y _x| | |].
  - rewrite Hp. eexists. reflexivity.
  - destruct Hp as [[-> _]|(_ & _ & ->)];
      [eexists; reflexivity | exists []; apply app_nil_r].
  - destruct Hp as (_ & _ & Hy & ->).
    exists (all_pixels W (seqZ _y (job_end job - _y))).
    rewrite <- all_pixels_app. f_equal.
    replace (job_end job - y_start job)
      with ((_y - y_start job) + (job_end job - _y)) by lia.
    rewrite seqZ_app by lia. do 2 f_equal. lia.
  - destruct Hp as (_ & _ & Hy & Hx & ->).
    exists (row_pixels_of _y (seqZ _x (W - _x)) ++
            all_pixels W (seqZ (_y + 1) (job_end job - _y - 1))).
    replace (job_end job - y_start job)
      with ((_y - y_start job) + (job_end job - _y)) by lia.
    rewrite seqZ_app by lia. rewrite all_pixels_app, <- app_assoc. f_equal.
    replace (y_start job + (_y - y_start job)) with _y by lia.
    rewrite (seqZ_cons _y) by lia.
    replace (Z.succ _y) with (_y + 1) by lia.
    replace (Z.pred (job_end job - _y)) with (job_end job - _y - 1) by lia.
    change (all_pixels W (_y :: ?l))
      with (row_pixels_of _y (seqZ 0 W) ++ all_pixels W l).
    rewrite app_assoc. f_equal.
    unfold row_pixels_of. rewrite <- map_app. f_equal.
    replace (seqZ 0 W) with (seqZ 0 (_x + (W - _x))) by (f_equal; lia).
    rewrite seqZ_app by lia. reflexivity.
  - destruct Hp as (_ & _ & ->). exists []. apply app_nil_r.
  - destruct Hp as [[-> _]|(_ & _ & ->)];
      [eexists; reflexivity | exists []; apply app_nil_r].
  - destruct Hp as [[-> _]|(_ & _ & ->)];
      [eexists; reflexivity | exists []; apply app_nil_r].
Qed.

Lemma since_upload_prefix (w : who) (sc : double) (b : bool) (s : state) :
  worker_state W (band w H sc) b s ->
  exists rest,
    since_upload b s ++ rest = all_pixels W (job_rows (band w H sc)).
Proof.
  intros [_ Hst]. destruct b.
  - destruct (band_shape w sc) as (Hys & _).
    exact (progress_prefix _ s Hys Hst).
  - eexists. reflexivity.
Qed.

Lemma all_pixels_NoDup (rows : list Z) :
  NoDup rows -> NoDup (all_pixels W rows).
Proof.
  induction rows as [|y rows IH]; intros Hnd.
  - constructor.
  - apply NoDup_cons in Hnd as [Hy Hnd].
    change (all_pixels W (y :: rows))
      with (row_pixels_of y (seqZ 0 W) ++ all_pixels W rows).
    apply NoDup_app. split; [|split; [|exact (IH Hnd)]].
    + apply NoDup_fmap_2; [|apply NoDup_seqZ].
      intros x1 x2 Heq. congruence.
    + intros [x y'] Hin Hin'.
      apply list_elem_of_In, in_map_iff in Hin as (x0 & Heq & _).
      apply elem_of_all_pixels in Hin' as [Hin' _].
      injection Heq as _ <-. contradiction.
Qed.

End TwoWorkerFacts.

(** X15: whenever the test of line 258 passes ([worker.jobDone() &&
    worker2.jobDone()], both jobs set since the last upload), the shared
    raster that [texture->update] reads is the one a single job for the
    whole window at the scale of the frame gives from the raster of the
    last upload: whatever the interleaving of the two threads and of the
    consumer was, no band is missing or half drawn. *)
Theorem X15_upload_shows_the_whole_frame {lm : LibM}
    (R : Renderer) (H W : Z) (garbage1 garbage2 : Job) (t : raster)
    (sys : system) :
  to_size_t (texture_width R) = Some W ->
  0 <= H < SIZE_MOD ->
  W * H * 3 <= SIZE_MOD ->
  app_run R H (app_start garbage1 garbage2 t) sys ->
  frame_done sys ->
  run_job R (frame_job H (view sys)) (base sys) = Some (shared sys).
Proof.
  intros HW HH Hsz Hrun (Hd1 & Hd2 & Hs1 & Hs2).
  destruct (frame_inv_run R H W HW HH _ _ _ _ Hrun) as (Hr & Hperm & H1 & H2).
  rewrite Hs1 in H1, Hperm. rewrite Hs2 in H2, Hperm.
  unfold since_upload in Hperm.
  rewrite (done_band W _ _ H1 Hd1), (done_band W _ _ H2 Hd2) in Hperm.
  rewrite (band_rows_whole H W HH) in Hperm.
  rewrite (run_job_pixels R _ W _ HW).
  assert (job_rows (frame_job H (view sys)) = seqZ 0 H) as ->.
  { unfold job_rows, job_end, frame_job. cbn [y_start y_count].
    rewrite Z.add_0_l, size_wrap_small by lia. rewrite Z.sub_0_r. reflexivity. }
  rewrite <- Hr. symmetry in Hperm.
  apply (render_pixels_perm R _ W _ _ HW Hperm).
  apply whole_pixels_plain; lia.
Qed.

(** X16: between two uploads no pixel is written twice, by the same
    worker or by the two, and every pixel written is one of the window;
    the shared raster is the raster of the last upload with these pixels
    drawn at the scale of the frame. *)
Theorem X16_no_pixel_written_twice {lm : LibM}
    (R : Renderer) (H W : Z) (garbage1 garbage2 : Job) (t : raster)
    (sys : system) :
  to_size_t (texture_width R) = Some W ->
  0 <= H < SIZE_MOD ->
  app_run R H (app_start garbage1 garbage2 t) sys ->
  NoDup (order sys) /\
  (forall x y, (x, y) ∈ order sys -> 0 <= x < W /\ 0 <= y < H) /\
  render_pixels R (frame_job H (view sys)) (order sys) (base sys)
    = Some (shared sys).
Proof.
  intros HW HH Hrun.
  destruct (frame_inv_run R H W HW HH _ _ _ _ Hrun) as (Hr & Hperm & H1 & H2).
  destruct (since_upload_prefix R H W HW HH _ _ _ _ H1) as [r1 Hp1].
  destruct (since_upload_prefix R H W HW HH _ _ _ _ H2) as [r2 Hp2].
  pose proof (band_rows_whole H W HH (view sys)) as Hall.
  rewrite <- Hp1, <- Hp2 in Hall.
  pose proof (all_pixels_NoDup W (seqZ 0 H) (NoDup_seqZ _ _)) as Hnd.
  assert (Hsub : since_upload (sub1 sys) (renderer1 sys) ++
                 since_upload (sub2 sys) (renderer2 sys)
                 `sublist_of` all_pixels W (seqZ 0 H)).
  { rewrite <- Hall. apply sublist_app; apply sublist_inserts_r; reflexivity. }
  split; [|split; [|exact Hr]].
  - rewrite Hperm. exact (sublist_NoDup _ _ Hnd Hsub).
  - intros x y Hin. rewrite Hperm in Hin.
    pose proof (elem_of_sublist _ _ _ Hin Hsub) as Hin'.
    apply elem_of_all_pixels in Hin' as [Hy Hx].
    apply elem_of_seqZ in Hy. split; lia.
Qed.

Section FrameExamples.
#[local] Existing Instance RefLibM.ref_libm.

Lemma X15_witness :
  exists sys,
    sys_run Samples.R2 FrameSamples.two_frames
      (app_start Samples.job_A Samples.job_B Samples.blank) = Some sys /\
    run_job Samples.R2 (frame_job 2 (view sys)) (base sys) = Some (shared sys).
Proof.
  eexists. split; [vm_compute; reflexivity|].
  apply (X15_upload_shows_the_whole_frame Samples.R2 2 2
           Samples.job_A Samples.job_B Samples.blank).
  - vm_compute. reflexivity.
  - unfold SIZE_MOD. lia.
  - unfold SIZE_MOD. lia.
  - apply (app_trace_run Samples.R2 2 FrameSamples.two_frames _ _ _
             (app_nil _ _ _)); [|vm_compute; reflexivity].
    vm_compute. repeat split; auto.
  - vm_compute. repeat split.
Defined.

Lemma X16_witness :
  exists sys,
    sys_run Samples.R2 FrameSamples.mid_frame
      (app_start Samples.job_A Samples.job_B Samples.blank) = Some sys /\
    order sys = [(0, 0); (1, 0); (0, 1)] /\
    NoDup (order sys) /\
    (forall x y, (x, y) ∈ order sys -> 0 <= x < 2 /\ 0 <= y < 2) /\
    render_pixels Samples.R2 (frame_job 2 (view sys)) (order sys) (base sys)
      = Some (shared sys).
Proof.
  eexists. split; [vm_compute; reflexivity|]. split; [reflexivity|].
  apply (X16_no_pixel_written_twice Samples.R2 2 2
           Samples.job_A Samples.job_B Samples.blank).
  - vm_compute. reflexivity.
  - unfold SIZE_MOD. lia.
  - apply (app_trace_run Samples.R2 2 FrameSamples.mid_frame _ _ _
             (app_nil _ _ _)); [|vm_compute; reflexivity].
    vm_compute. repeat split; auto.
Defined.

End FrameExamples.
